(** * MenuWise backend: from an uploaded menu to its dishes

    A shallow embedding of [services/openai.ts] (OCR extraction, dish
    resolution, the menu analysis orchestrator), of the Unsplash service
    ([searchKoreanFood], [searchGenericKoreanFood]) and of the Korean image
    service ([searchKoreanFoodImage], [searchNaver], [searchPexels],
    [searchPixabay]), together with the storage layer they use, the
    seeding of the dish table, the usage middleware and the analysis route
    of [routes.ts].

    Conventions.
    - JavaScript numbers that carry token counts, costs and confidences are
      IEEE-754 doubles: they are modelled by Rocq's primitive [float]s.
      [totalDetected] and [calories] are integer counts and are kept in [Z].
    - JavaScript strings are modelled by [string] (the UTF-8 bytes of the
      text).  Substring search and splitting at an ASCII separator agree on
      both representations; [toLowerCase] is exact on every letter whose
      lower case holds an ASCII letter, and keeps the other letters outside
      ASCII.
    - Everything outside the process (the OpenAI API, the image providers,
      HTTP probes, database availability, [Math.random]) is an oracle that
      threads a hidden state [Ext]; a reply is the decoded outcome of the
      call, with every way of failing the source handles alike collapsed
      into one case.
    - An [async] function becomes a computation in the monad [M]: it reads
      and writes a [World] (hidden external state, the [korean_foods] table,
      the serial counter and the trace of external calls) and either returns
      or throws an [Error] with a message.  The world survives a throw.
    - The route layer runs in [Task], the same monad over a [Host]: the
      world and the [users] and [menu_analyses] tables.  A request is taken
      as it reaches the usage middleware, and one request runs at a time. *)

From Stdlib Require Import String Ascii List ZArith Bool Lia Floats DecimalString.
Import ListNotations.

Set Warnings "-inexact-float".

Local Open Scope string_scope.
Local Open Scope Z_scope.

(** ** JavaScript string primitives *)

Module JsString.

(** [s.startsWith(p)] *)
Fixpoint startsWith (s p : string) {struct p} : bool :=
  match p with
  | EmptyString => true
  | String c p' =>
      match s with
      | EmptyString => false
      | String d s' => Ascii.eqb c d && startsWith s' p'
      end
  end.

(** [s.includes(needle)] *)
Fixpoint includes (s needle : string) : bool :=
  startsWith s needle ||
  match s with
  | EmptyString => false
  | String _ s' => includes s' needle
  end.

Definition lowerAscii (c : ascii) : ascii :=
  let n := nat_of_ascii c in
  if (Nat.leb 65 n && Nat.leb n 90)%bool then ascii_of_nat (n + 32) else c.

(** [s.toLowerCase()].  ASCII letters are lowered.  Of the letters outside
    ASCII, two have a lower case that holds an ASCII letter, and both are
    handled: the Kelvin sign U+212A (bytes E2 84 AA) becomes [k], and the
    dotted capital I U+0130 (bytes C4 B0) becomes [i] followed by U+0307
    (bytes CC 87).  Every other letter outside ASCII is kept as it is: its
    lower case lies outside ASCII too, so a search of the result for a
    needle made of ASCII or Hangul characters answers as the source does. *)
Fixpoint toLowerCase (s : string) : string :=
  match s with
  | EmptyString => EmptyString
  | String c s' =>
      let plain := String (lowerAscii c) (toLowerCase s') in
      if Ascii.eqb c (ascii_of_nat 226) then
        match s' with
        | String d (String e rest) =>
            if Ascii.eqb d (ascii_of_nat 132) && Ascii.eqb e (ascii_of_nat 170)
            then String "k"%char (toLowerCase rest)
            else plain
        | _ => plain
        end
      else if Ascii.eqb c (ascii_of_nat 196) then
        match s' with
        | String d rest =>
            if Ascii.eqb d (ascii_of_nat 176)
            then String "i"%char
                   (String (ascii_of_nat 204)
                      (String (ascii_of_nat 135) (toLowerCase rest)))
            else plain
        | _ => plain
        end
      else plain
  end.

(** [s.split(sep)] for a one-character separator: never empty, the pieces
    between consecutive separators, in order. *)
Fixpoint split (sep : ascii) (s : string) : list string :=
  match s with
  | EmptyString => [EmptyString]
  | String c s' =>
      if Ascii.eqb c sep then EmptyString :: split sep s'
      else match split sep s' with
           | [] => [String c EmptyString]
           | piece :: pieces => String c piece :: pieces
           end
  end.

(** [s.replace(/ /g, '+')] *)
Fixpoint replaceSpaces (s : string) : string :=
  match s with
  | EmptyString => EmptyString
  | String c s' =>
      String (if Ascii.eqb c " "%char then "+"%char else c) (replaceSpaces s')
  end.

(** Truthiness of a string: the empty string is falsy. *)
Definition truthy (s : string) : bool :=
  match s with EmptyString => false | _ => true end.

(** [a || b] on possibly-undefined strings. *)
Definition orElse (a b : option string) : option string :=
  match a with
  | Some s => if truthy s then Some s else b
  | None => b
  end.

(** [a || ''], as in [item.title?.toLowerCase() || '']. *)
Definition orEmpty (a : option string) : string :=
  match a with Some s => s | None => EmptyString end.

(** [a?.includes(needle)], used as a condition: undefined is falsy. *)
Definition optIncludes (a : option string) (needle : string) : bool :=
  match a with Some s => includes s needle | None => false end.

(** Interpolation [`${a}`] of a possibly-undefined string. *)
Definition interp (a : option string) : string :=
  match a with Some s => s | None => "undefined" end.

(** Interpolation [`${n}`] of a number that is an integer: its decimal
    digits.  This is the text JavaScript prints for every integer of
    absolute value at most 2^53; beyond, JavaScript prints the shortest
    digits that identify the double, padded with zeros or with an exponent,
    and the statements that quote the text are bounded accordingly. *)
Definition ofZ (n : Z) : string := NilZero.string_of_int (Z.to_int n).

(** The largest count every integer up to which prints as its digits. *)
Definition maxExactInteger : Z := 9007199254740992.

End JsString.

Import JsString.

(** ** Exceptions and the computation monad *)

Inductive Res (A : Type) : Type :=
| Ok (a : A)
| Throw (message : string).
Arguments Ok {A} a.
Arguments Throw {A} message.

(** ** Data model ([shared/schema.ts]) *)

(** [InsertKoreanFood]: a row of [korean_foods] without [id] and timestamps. *)
Record InsertKoreanFood : Type := mkInsertKoreanFood {
  ins_nameKorean : string;
  ins_nameEnglish : string;
  ins_description : string;
  ins_descriptionEnglish : string;
  ins_ingredients : list string;
  ins_calories : Z;
  ins_category : option string;
  ins_spiciness : Z;
  ins_allergens : list string;
  ins_isVegetarian : bool;
  ins_isVegan : bool;
  ins_servingSize : option string;
  ins_cookingMethod : option string;
  ins_region : option string;
  ins_imageUrl : option string
}.

(** [KoreanFood]: a stored row.  The table has no [descriptionEnglish]
    column, so an insert drops that property. *)
Record KoreanFood : Type := mkKoreanFood {
  id : Z;
  nameKorean : string;
  nameEnglish : string;
  description : string;
  ingredients : list string;
  calories : Z;
  category : option string;
  spiciness : Z;
  allergens : list string;
  isVegetarian : bool;
  isVegan : bool;
  servingSize : option string;
  cookingMethod : option string;
  region : option string;
  imageUrl : option string
}.

Inductive Source : Type := database | ai.

Record DetectedDish : Type := mkDetectedDish {
  d_nameKorean : string;
  d_nameEnglish : string;
  d_description : string;
  d_descriptionEnglish : string;
  d_ingredients : list string;
  d_calories : Z;
  d_imageUrl : option string;
  d_imageAccuracy : string;
  d_category : option string;
  d_spiciness : Z;
  d_allergens : list string;
  d_isVegetarian : bool;
  d_isVegan : bool;
  d_servingSize : option string;
  d_cookingMethod : option string;
  d_region : option string;
  confidence : float;
  source : Source
}.

Record TokenUsage : Type := mkTokenUsage {
  prompt_tokens : float;
  completion_tokens : float;
  total_tokens : float;
  cost_usd : float;
  cost_aud : float
}.

(** The [usage] object of a chat completion. *)
Record ApiUsage : Type := mkApiUsage {
  u_prompt_tokens : float;
  u_completion_tokens : float;
  u_total_tokens : float
}.

(** What [JSON.parse(content)] yields for the OCR prompt, read at the type
    the extraction declares for it: [extractedNames] is missing or a list
    of strings. *)
Record OcrJson : Type := mkOcrJson {
  j_isKoreanMenu : bool;
  j_extractedNames : option (list string);
  j_totalDetected : option Z
}.

(** What [JSON.parse(content)] yields for the dish-details prompt; the
    properties the source defaults with [||] may be missing. *)
Record FoodJson : Type := mkFoodJson {
  f_nameKorean : string;
  f_nameEnglish : string;
  f_description : string;
  f_descriptionEnglish : option string;
  f_ingredients : option (list string);
  f_calories : option Z;
  f_category : option string;
  f_spiciness : option Z;
  f_allergens : option (list string);
  f_isVegetarian : option bool;
  f_isVegan : option bool;
  f_servingSize : option string;
  f_cookingMethod : option string;
  f_region : option string
}.

(** [response.choices[0].message.content], seen through [JSON.parse]. *)
Inductive Content (P : Type) : Type :=
| NoContent            (* null or empty: [!content] *)
| BadJson              (* [JSON.parse] throws *)
| Json (payload : P).
Arguments NoContent {P}.
Arguments BadJson {P}.
Arguments Json {P} payload.

(** Outcome of [openai.chat.completions.create]. *)
Inductive ApiReply (P : Type) : Type :=
| ApiError (message : string)
| ApiOk (content : Content P) (usage : option ApiUsage).
Arguments ApiError {P} message.
Arguments ApiOk {P} content usage.

(** ** Image search data *)

Inductive Accuracy : Type := high | medium | low.

Definition accuracyText (a : Accuracy) : string :=
  match a with high => "high" | medium => "medium" | low => "low" end.

Inductive Provider : Type := naver | pexels | pixabay | unsplash.

Record ImageResult : Type := mkImageResult {
  url : option string;
  provider : Provider;
  accuracy : Accuracy;
  title : option string;
  img_description : string
}.

(** An item of the Naver JSONP payload. *)
Record NaverItem : Type := mkNaverItem {
  n_title : option string;
  n_source : option string;
  n_originalUrl : option string;
  n_thumb : option string
}.

Record PexelsPhoto : Type := mkPexelsPhoto {
  p_alt : option string;
  p_photographer : option string;
  p_src_large : string
}.

Record PixabayHit : Type := mkPixabayHit {
  h_tags : option string;
  h_largeImageURL : option string;
  h_webformatURL : option string
}.

Record UnsplashImage : Type := mkUnsplashImage {
  i_regular : string;
  i_alt_description : option string;
  i_description : option string
}.

(** ** The world: external services, the table, the trace *)

(** One entry per call that leaves the process. *)
Inductive Event : Type :=
| EvOcr (base64Image : string)        (* OCR chat completion *)
| EvDetails (koreanName : string)     (* dish-details chat completion *)
| EvFind (koreanName : string)        (* SELECT on korean_foods *)
| EvCreate (food : InsertKoreanFood)  (* INSERT into korean_foods *)
| EvNaver (query : string)            (* GET s.search.naver.com *)
| EvHead (target : string)            (* HEAD probe of a candidate URL *)
| EvPexels (query : string)           (* GET api.pexels.com *)
| EvPixabay (query : string)          (* GET pixabay.com/api *)
| EvUnsplash (query : string).        (* GET api.unsplash.com/search/photos *)

(** The collaborators of the pipeline.  A search oracle answers [None]
    when the request, the JSONP match or the JSON decoding fails. *)
Record Services (Ext : Type) : Type := mkServices {
  openai_ocr : string -> Ext -> ApiReply OcrJson * Ext;
  openai_details : string -> Ext -> ApiReply FoodJson * Ext;
  (** [Some message]: the database call rejects with that message. *)
  db_select_error : string -> Ext -> option string * Ext;
  db_insert_error : InsertKoreanFood -> Ext -> option string * Ext;
  naver_get : string -> Ext -> option (list NaverItem) * Ext;
  (** [true]: status 200 and a content type starting with [image/]. *)
  http_head : string -> Ext -> bool * Ext;
  pexels_get : string -> Ext -> option (list PexelsPhoto) * Ext;
  pixabay_get : string -> Ext -> option (list PixabayHit) * Ext;
  unsplash_get : string -> Ext -> option (list UnsplashImage) * Ext;
  (** The entropy behind [Math.random()]: any natural number; [randomBelow]
      reduces it to [Math.floor(Math.random() * bound)]. *)
  math_random : Ext -> nat * Ext;
  pexelsApiKey : option string;
  pixabayApiKey : option string;
  accessKey : string
}.
Arguments openai_ocr {Ext}.
Arguments openai_details {Ext}.
Arguments db_select_error {Ext}.
Arguments db_insert_error {Ext}.
Arguments naver_get {Ext}.
Arguments http_head {Ext}.
Arguments pexels_get {Ext}.
Arguments pixabay_get {Ext}.
Arguments unsplash_get {Ext}.
Arguments math_random {Ext}.
Arguments pexelsApiKey {Ext}.
Arguments pixabayApiKey {Ext}.
Arguments accessKey {Ext}.

Record World (Ext : Type) : Type := mkWorld {
  ext : Ext;
  foods : list KoreanFood;   (* rows of korean_foods, oldest first *)
  nextId : Z;                (* the serial of the next row *)
  log : list Event           (* external calls so far, oldest first *)
}.
Arguments mkWorld {Ext}.
Arguments ext {Ext}.
Arguments foods {Ext}.
Arguments nextId {Ext}.
Arguments log {Ext}.

Definition M (Ext A : Type) : Type := World Ext -> Res A * World Ext.

Definition ret {Ext A} (a : A) : M Ext A := fun w => (Ok a, w).

Definition bind {Ext A B} (m : M Ext A) (k : A -> M Ext B) : M Ext B :=
  fun w =>
    match m w with
    | (Ok a, w') => k a w'
    | (Throw msg, w') => (Throw msg, w')
    end.

Definition throw {Ext A} (msg : string) : M Ext A := fun w => (Throw msg, w).

(** [try { body } catch (error) { handler(error.message) }] *)
Definition tryCatch {Ext A} (body : M Ext A) (handler : string -> M Ext A)
  : M Ext A :=
  fun w =>
    match body w with
    | (Ok a, w') => (Ok a, w')
    | (Throw msg, w') => handler msg w'
    end.

Declare Scope monad_scope.
Delimit Scope monad_scope with monad.
Notation "x <- m ;; k" := (bind m (fun x => k))
  (at level 61, m at next level, right associativity) : monad_scope.
Notation "m ;;; k" := (bind m (fun _ => k))
  (at level 61, right associativity) : monad_scope.
Local Open Scope monad_scope.

(** The first row of the table whose [name_korean] equals [name]: the
    query has no ordering clause and the rows are taken in table order. *)
Definition selectByName (name : string) (table : list KoreanFood)
  : option KoreanFood :=
  find (fun row => String.eqb (nameKorean row) name) table.

Section Pipeline.

Context {Ext : Type} (svc : Services Ext).

#[local] Abbreviation Comp := (M Ext).

(** Record an external call. *)
Definition emit (e : Event) : Comp unit :=
  fun w => (Ok tt, mkWorld (ext w) (foods w) (nextId w) (log w ++ [e])).

(** Consult an oracle, recording the call. *)
Definition call {A} (e : Event) (oracle : Ext -> A * Ext) : Comp A :=
  fun w =>
    let (a, x) := oracle (ext w) in
    (Ok a, mkWorld x (foods w) (nextId w) (log w ++ [e])).

(** ** Storage: the [korean_foods] table *)

(** [const [food] = await db.select().from(koreanFoods)
       .where(eq(koreanFoods.nameKorean, nameKorean))] *)
Definition findKoreanFood (name : string) : Comp (option KoreanFood) :=
  err <- call (EvFind name) (db_select_error svc name) ;;
  match err with
  | Some msg => throw msg
  | None => fun w => (Ok (selectByName name (foods w)), w)
  end.

Definition rowOf (newId : Z) (food : InsertKoreanFood) : KoreanFood :=
  {| id := newId;
     nameKorean := ins_nameKorean food;
     nameEnglish := ins_nameEnglish food;
     description := ins_description food;
     ingredients := ins_ingredients food;
     calories := ins_calories food;
     category := ins_category food;
     spiciness := ins_spiciness food;
     allergens := ins_allergens food;
     isVegetarian := ins_isVegetarian food;
     isVegan := ins_isVegan food;
     servingSize := ins_servingSize food;
     cookingMethod := ins_cookingMethod food;
     region := ins_region food;
     imageUrl := ins_imageUrl food |}.

(** [const [created] = await db.insert(koreanFoods).values(food).returning()]

    The row gets the next serial.  The counter advances on an accepted
    insert; whether a rejected insert uses up a serial depends on where the
    database rejects it, and no statement below reads the serial of a row
    added after a rejected insert. *)
Definition createKoreanFood (food : InsertKoreanFood) : Comp KoreanFood :=
  err <- call (EvCreate food) (db_insert_error svc food) ;;
  match err with
  | Some msg => throw msg
  | None =>
      fun w =>
        let created := rowOf (nextId w) food in
        (Ok created,
         mkWorld (ext w) (foods w ++ [created]) (nextId w + 1) (log w))
  end.

(** ** OCR extraction ([extractKoreanFoodNames]) *)

Record OcrResult : Type := mkOcrResult {
  isKoreanMenu : bool;
  extractedNames : list string;
  totalDetected : option Z;
  tokenUsage : TokenUsage
}.

Definition promptTokenCost : float := (0.0025 / 1000)%float.
Definition completionTokenCost : float := (0.01 / 1000)%float.
Definition audPerUsd : float := 1.5%float.

Definition totalCostUSD (usage : ApiUsage) : float :=
  (u_prompt_tokens usage * promptTokenCost
   + u_completion_tokens usage * completionTokenCost)%float.

Definition totalCostAUD (usage : ApiUsage) : float :=
  (totalCostUSD usage * audPerUsd)%float.

(** The body of the [try] block, after the completion came back. *)
Definition decodeOcr (reply : ApiReply OcrJson) : Res OcrResult :=
  match reply with
  | ApiError msg => Throw msg
  | ApiOk NoContent _ => Throw "No response content from OpenAI"
  | ApiOk BadJson _ => Throw "Unexpected token in JSON"
  | ApiOk (Json _) None =>
      Throw "Cannot read properties of undefined (reading 'prompt_tokens')"
  | ApiOk (Json result) (Some usage) =>
      Ok {| isKoreanMenu := j_isKoreanMenu result;
            extractedNames :=
              match j_extractedNames result with
              | Some names => names
              | None => []
              end;
            totalDetected := j_totalDetected result;
            tokenUsage :=
              {| prompt_tokens := u_prompt_tokens usage;
                 completion_tokens := u_completion_tokens usage;
                 total_tokens := u_total_tokens usage;
                 cost_usd := totalCostUSD usage;
                 cost_aud := totalCostAUD usage |} |}
  end.

Definition lift {A} (r : Res A) : Comp A := fun w => (r, w).

Definition extractKoreanFoodNames (base64Image : string) : Comp OcrResult :=
  tryCatch
    (reply <- call (EvOcr base64Image) (openai_ocr svc base64Image) ;;
     lift (decodeOcr reply))
    (fun _ => throw "Failed to extract food names from menu image").

(** ** Generative fallback ([getFoodDetailsFromAI]) *)

Definition orDefault {A} (a : option A) (d : A) : A :=
  match a with Some x => x | None => d end.

(** [x || 0] on an optional integer. *)
Definition orZero (a : option Z) : Z := orDefault a 0.

Definition decodeFood (reply : ApiReply FoodJson) : Res InsertKoreanFood :=
  match reply with
  | ApiError msg => Throw msg
  | ApiOk NoContent _ => Throw "No response content from OpenAI"
  | ApiOk BadJson _ => Throw "Unexpected token in JSON"
  | ApiOk (Json foodData) _ =>
      Ok {| ins_nameKorean := f_nameKorean foodData;
            ins_nameEnglish := f_nameEnglish foodData;
            ins_description := f_description foodData;
            ins_descriptionEnglish :=
              interp (orElse (f_descriptionEnglish foodData)
                        (Some ("Traditional Korean " ++ f_nameEnglish foodData)));
            ins_ingredients := orDefault (f_ingredients foodData) [];
            ins_calories := orZero (f_calories foodData);
            ins_category := f_category foodData;
            ins_spiciness := orZero (f_spiciness foodData);
            ins_allergens := orDefault (f_allergens foodData) [];
            ins_isVegetarian := orDefault (f_isVegetarian foodData) false;
            ins_isVegan := orDefault (f_isVegan foodData) false;
            ins_servingSize := f_servingSize foodData;
            ins_cookingMethod := f_cookingMethod foodData;
            ins_region := f_region foodData;
            ins_imageUrl := None |}
  end.

Definition getFoodDetailsFromAI (koreanName : string) : Comp InsertKoreanFood :=
  tryCatch
    (reply <- call (EvDetails koreanName) (openai_details svc koreanName) ;;
     lift (decodeFood reply))
    (fun _ => throw "Failed to get food details from AI").

(** ** Relevance scoring and selection *)

(** [if (cond) score += weight] *)
Definition bonus (cond : bool) (weight : Z) : Z := if cond then weight else 0.

(** [scored.sort((a, b) => b.relevanceScore - a.relevanceScore)]: a stable
    sort by decreasing score. *)
Fixpoint insertByScore {A} (x : A * Z) (sorted : list (A * Z)) : list (A * Z) :=
  match sorted with
  | [] => [x]
  | y :: rest =>
      if snd x <? snd y then y :: insertByScore x rest else x :: y :: rest
  end.

Definition sortByScore {A} (scored : list (A * Z)) : list (A * Z) :=
  fold_right insertByScore [] scored.

(** [items.map(score); sort; scored[0]] *)
Definition best {A} (score : A -> Z) (items : list A) : option (A * Z) :=
  hd_error (sortByScore (map (fun item => (item, score item)) items)).

Definition naverScore (item : NaverItem) : Z :=
  let title := orEmpty (option_map toLowerCase (n_title item)) in
  let source := orEmpty (option_map toLowerCase (n_source item)) in
  let imageUrl := orEmpty (orElse (n_originalUrl item) (n_thumb item)) in
  bonus (includes imageUrl "blogfiles.naver.net"
         || includes imageUrl "postfiles.naver.net"
         || includes imageUrl "blog.naver.com") 10
  + bonus (includes title "음식" || includes title "요리"
           || includes title "맛집") 3
  + bonus (includes title "한국" || includes title "전통") 2
  + bonus (includes source "blog" || includes source "recipe"
           || includes source "restaurant") 2
  + bonus (includes imageUrl "pinimg.com") 1
  - bonus (includes title "사람" || includes title "건물"
           || includes title "풍경") 2.

(** Domains that often block external access. *)
Definition blockedDomain (imageUrl : option string) : bool :=
  optIncludes imageUrl "shopping.phinf.naver.net"
  || optIncludes imageUrl "shop1.phinf.naver.net"
  || optIncludes imageUrl "commerce."
  || optIncludes imageUrl "shopping.".

(** Authentic Korean blog sources. *)
Definition blogDomain (imageUrl : option string) : bool :=
  optIncludes imageUrl "blogfiles.naver.net"
  || optIncludes imageUrl "blog.naver.com"
  || optIncludes imageUrl "postfiles.naver.net".

Definition naverAccuracy (imageUrl : option string) (relevanceScore : Z)
  : Accuracy :=
  if blogDomain imageUrl then high
  else if relevanceScore <? 2 then low
  else if relevanceScore <? 4 then medium
  else high.

Definition naverQueries (koreanName englishName : string)
    (customQuery : option string) : list string :=
  match orElse customQuery None with
  | Some q => [q]
  | None =>
      [ koreanName;
        koreanName ++ " 음식";
        koreanName ++ " 요리";
        "한국 " ++ englishName;
        englishName ++ " 한국음식" ]
  end.

(** What one decoded Naver response contributes: [Some result] when the
    loop body returns, [None] when it falls through or [continue]s. *)
Definition naverPick (query : string) (items : list NaverItem)
  : option ImageResult :=
  match best naverScore items with
  | None => None                                  (* items.length = 0 *)
  | Some (bestItem, relevanceScore) =>
      if 0 <=? relevanceScore then
        let imageUrl := orElse (n_originalUrl bestItem) (n_thumb bestItem) in
        if blockedDomain imageUrl then None       (* continue *)
        else
          Some {| url := imageUrl;
                  provider := naver;
                  accuracy := naverAccuracy imageUrl relevanceScore;
                  title := n_title bestItem;
                  img_description := "Found via Naver search: " ++ query |}
      else None
  end.

Fixpoint searchNaverLoop (queries : list string) : Comp (option ImageResult) :=
  match queries with
  | [] => ret None
  | query :: rest =>
      reply <- call (EvNaver query) (naver_get svc query) ;;
      match reply with
      | None => searchNaverLoop rest               (* catch / no JSONP match *)
      | Some items =>
          match naverPick query items with
          | Some result => ret (Some result)
          | None => searchNaverLoop rest
          end
      end
  end.

Definition searchNaver (koreanName englishName : string)
    (customQuery : option string) : Comp (option ImageResult) :=
  searchNaverLoop (naverQueries koreanName englishName customQuery).

(** ** Pexels *)

Definition stockAccuracy (relevanceScore : Z) : Accuracy :=
  if 5 <=? relevanceScore then high
  else if relevanceScore <? 2 then low
  else medium.

Definition pexelsScore (englishName : string) (photo : PexelsPhoto) : Z :=
  let alt := orEmpty (option_map toLowerCase (p_alt photo)) in
  let photographer := orEmpty (option_map toLowerCase (p_photographer photo)) in
  bonus (includes alt "korean" || includes alt "korea") 3
  + bonus (includes alt "food" || includes alt "dish" || includes alt "meal") 2
  + bonus (includes alt (toLowerCase englishName)) 4
  + bonus (includes photographer "korean" || includes photographer "asia") 1.

Definition pexelsQueries (englishName : string) : list string :=
  [ "korean " ++ englishName;
    englishName ++ " korean food";
    "traditional korean " ++ englishName;
    "korean cuisine";
    "korean food dish" ].

Definition pexelsPick (englishName query : string) (photos : list PexelsPhoto)
  : option ImageResult :=
  match best (pexelsScore englishName) photos with
  | None => None
  | Some (bestPhoto, relevanceScore) =>
      Some {| url := Some (p_src_large bestPhoto);
              provider := pexels;
              accuracy := stockAccuracy relevanceScore;
              title := p_alt bestPhoto;
              img_description := "Found via Pexels: " ++ query |}
  end.

Fixpoint searchPexelsLoop (englishName : string) (queries : list string)
  : Comp (option ImageResult) :=
  match queries with
  | [] => ret None
  | query :: rest =>
      reply <- call (EvPexels query) (pexels_get svc query) ;;
      match reply with
      | None => searchPexelsLoop englishName rest
      | Some photos =>
          match pexelsPick englishName query photos with
          | Some result => ret (Some result)
          | None => searchPexelsLoop englishName rest
          end
      end
  end.

Definition keyMissing (key : option string) : bool :=
  match orElse key None with Some _ => false | None => true end.

Definition searchPexels (koreanName englishName : string)
  : Comp (option ImageResult) :=
  if keyMissing (pexelsApiKey svc) then ret None
  else searchPexelsLoop englishName (pexelsQueries englishName).

(** ** Pixabay *)

Definition pixabayScore (englishName : string) (hit : PixabayHit) : Z :=
  let tags := orEmpty (option_map toLowerCase (h_tags hit)) in
  bonus (includes tags "korean" || includes tags "korea") 3
  + bonus (includes tags "food" || includes tags "dish"
           || includes tags "cuisine") 2
  + bonus (includes tags (toLowerCase englishName)) 4
  + bonus (includes tags "traditional" || includes tags "authentic") 1.

Definition pixabayQueries (englishName : string) : list string :=
  [ "korean+" ++ replaceSpaces englishName;
    "korean+food+" ++ replaceSpaces englishName;
    "korean+cuisine";
    "korean+traditional+food" ].

Definition pixabayPick (englishName query : string) (hits : list PixabayHit)
  : option ImageResult :=
  match best (pixabayScore englishName) hits with
  | None => None
  | Some (bestHit, relevanceScore) =>
      Some {| url := orElse (h_largeImageURL bestHit) (h_webformatURL bestHit);
              provider := pixabay;
              accuracy := stockAccuracy relevanceScore;
              title := h_tags bestHit;
              img_description := "Found via Pixabay: " ++ query |}
  end.

Fixpoint searchPixabayLoop (englishName : string) (queries : list string)
  : Comp (option ImageResult) :=
  match queries with
  | [] => ret None
  | query :: rest =>
      reply <- call (EvPixabay query) (pixabay_get svc query) ;;
      match reply with
      | None => searchPixabayLoop englishName rest
      | Some hits =>
          match pixabayPick englishName query hits with
          | Some result => ret (Some result)
          | None => searchPixabayLoop englishName rest
          end
      end
  end.

Definition searchPixabay (koreanName englishName : string)
  : Comp (option ImageResult) :=
  if keyMissing (pixabayApiKey svc) then ret None
  else searchPixabayLoop englishName (pixabayQueries englishName).

(** ** Image resolution waterfall ([searchKoreanFoodImage]) *)

(** [axios.head(url)] accepted iff status 200 and an image content type;
    any failure, and an undefined URL, give [false]. *)
Definition validateImageUrl (target : option string) : Comp bool :=
  match target with
  | None => ret false
  | Some u => call (EvHead u) (http_head svc u)
  end.

(** [`${result.url}|${result.accuracy}`] *)
Definition rendered (target : option string) (acc : Accuracy) : string :=
  interp target ++ "|" ++ accuracyText acc.

Record Attempt : Type := mkAttempt {
  a_url : option string;
  a_accuracy : Accuracy;
  a_source : Provider
}.

(** [if (result) { attemptedUrls.push(...); if (await validate) return ...; }]
    followed by the rest of the function. *)
Definition tryCandidate (result : option ImageResult) (src : Provider)
    (attemptedUrls : list Attempt)
    (next : list Attempt -> Comp (option string)) : Comp (option string) :=
  match result with
  | None => next attemptedUrls
  | Some r =>
      valid <- validateImageUrl (url r) ;;
      if valid then ret (Some (rendered (url r) (accuracy r)))
      else next (attemptedUrls ++ [mkAttempt (url r) (accuracy r) src])%list
  end.

Definition alternativeQueries (koreanName englishName : string) : list string :=
  [ koreanName ++ " 레시피";
    koreanName ++ " 만들기";
    "맛있는 " ++ koreanName;
    "전통 " ++ koreanName;
    englishName ++ " recipe korean" ].

Fixpoint alternativesLoop (koreanName englishName : string)
    (queries : list string) (alternatives : list (option string * Accuracy))
  : Comp (list (option string * Accuracy)) :=
  match queries with
  | [] => ret alternatives
  | query :: rest =>
      result <- searchNaver koreanName englishName (Some query) ;;
      match result with
      | Some r =>
          alternativesLoop koreanName englishName rest
            (alternatives ++ [(url r, accuracy r)])%list
      | None => alternativesLoop koreanName englishName rest alternatives
      end
  end.

Definition getAlternativeNaverUrls (koreanName englishName : string)
  : Comp (list (option string * Accuracy)) :=
  alternativesLoop koreanName englishName
    (firstn 2 (alternativeQueries koreanName englishName)) [].

(** [for (const altUrl of alternativeUrls) if (validate) return ...]:
    [Some s] when the loop returns [s]. *)
Fixpoint firstValid (alternativeUrls : list (option string * Accuracy))
  : Comp (option string) :=
  match alternativeUrls with
  | [] => ret None
  | (u, acc) :: rest =>
      valid <- validateImageUrl u ;;
      if valid then ret (Some (rendered u acc)) else firstValid rest
  end.

Fixpoint retryAttempts (koreanName englishName : string)
    (attemptedUrls : list Attempt) : Comp (option string) :=
  match attemptedUrls with
  | [] => ret None
  | attempt :: rest =>
      match a_source attempt with
      | naver =>
          alternativeUrls <- getAlternativeNaverUrls koreanName englishName ;;
          found <- firstValid alternativeUrls ;;
          match found with
          | Some s => ret (Some s)
          | None => retryAttempts koreanName englishName rest
          end
      | _ => retryAttempts koreanName englishName rest
      end
  end.

Definition searchKoreanFoodImage (koreanName englishName : string)
  : Comp (option string) :=
  tryCatch
    (naverResult <- searchNaver koreanName englishName None ;;
     tryCandidate naverResult naver [] (fun attemptedUrls =>
     pexelsResult <- searchPexels koreanName englishName ;;
     tryCandidate pexelsResult pexels attemptedUrls (fun attemptedUrls =>
     pixabayResult <- searchPixabay koreanName englishName ;;
     tryCandidate pixabayResult pixabay attemptedUrls (fun attemptedUrls =>
     retryAttempts koreanName englishName attemptedUrls))))
    (fun _ => ret None).

(** ** The Unsplash service ([searchKoreanFood], [searchGenericKoreanFood]) *)

Definition getSearchTerms (dishName : string) : list string :=
  let name := toLowerCase dishName in
  if includes name "squid" || includes name "octopus"
  then ["korean squid"; "korean seafood"]
  else if includes name "shrimp" then ["korean shrimp"; "korean prawns"]
  else if includes name "crab" then ["korean crab"; "soy marinated crab"]
  else if includes name "chicken" then ["korean chicken"; "chicken stew"]
  else if includes name "beef" then ["korean beef"; "bulgogi"]
  else if includes name "pork" then ["korean pork"]
  else if includes name "fish" then ["korean fish"]
  else if includes name "tofu" then ["korean tofu"]
  else if includes name "stew" || includes name "soup"
  then ["korean stew"; "korean soup"]
  else if includes name "rice" || includes name "bibimbap"
  then ["korean rice"; "bibimbap"]
  else if includes name "noodle" then ["korean noodles"]
  else if includes name "set" || includes name "meal"
  then ["korean set meal"; "korean banchan"]
  else if includes name "bbq" || includes name "grilled"
  then ["korean bbq"; "korean grill"]
  else ["korean food"; "korean cuisine"].

Definition searchQueries (englishFoodName : string) : list string :=
  flat_map (fun term => [term ++ " dish"; term ++ " restaurant"; "traditional " ++ term])
           (getSearchTerms englishFoodName).

Definition unsplashScore (searchQuery : string) (img : UnsplashImage) : Z :=
  let alt := orEmpty (option_map toLowerCase (i_alt_description img)) in
  let desc := orEmpty (option_map toLowerCase (i_description img)) in
  let searchLower := toLowerCase searchQuery in
  bonus (includes alt "food" || includes desc "food") 3
  + bonus (includes alt "korean" || includes desc "korean") 3
  + bonus (includes alt "dish" || includes alt "meal"
           || includes alt "cuisine") 2
  + bonus (includes alt "restaurant" || includes alt "cooking") 2
  + bonus (includes searchLower "shrimp"
           && (includes alt "shrimp" || includes alt "prawn")) 4
  + bonus (includes searchLower "crab" && includes alt "crab") 4
  + bonus (includes searchLower "squid"
           && (includes alt "squid" || includes alt "octopus")) 4
  + bonus (includes searchLower "chicken" && includes alt "chicken") 4
  + bonus (includes searchLower "beef" && includes alt "beef") 4
  - bonus (includes alt "person" || includes alt "people"
           || includes alt "man" || includes alt "woman") 2
  - bonus (includes alt "building" || includes alt "street"
           || includes alt "city") 2
  - bonus (includes alt "nature" || includes alt "landscape"
           || includes alt "sky") 2.

Definition unsplashAccuracy (relevanceScore : Z) : Accuracy :=
  if relevanceScore <? 2 then low
  else if relevanceScore <? 4 then medium
  else high.

(** The [for] loop over [searchQueries]; a failed request throws, which the
    enclosing [try] turns into [null]. *)
Fixpoint searchUnsplashLoop (queries : list string) : Comp (option string) :=
  match queries with
  | [] => ret None
  | searchQuery :: rest =>
      reply <- call (EvUnsplash searchQuery) (unsplash_get svc searchQuery) ;;
      match reply with
      | None => throw "Request failed"
      | Some images =>
          match best (unsplashScore searchQuery) images with
          | Some (bestImage, relevanceScore) =>
              ret (Some (rendered (Some (i_regular bestImage))
                           (unsplashAccuracy relevanceScore)))
          | None => searchUnsplashLoop rest
          end
      end
  end.

(** [if (s) ...] on a possibly-null string. *)
Definition present (s : option string) : bool :=
  match s with Some t => truthy t | None => false end.

Definition searchKoreanFood (koreanFoodName : string)
    (englishFoodName : option string) : Comp (option string) :=
  koreanResult <-
    searchKoreanFoodImage koreanFoodName
      (interp (orElse englishFoodName (Some koreanFoodName))) ;;
  if present koreanResult then ret koreanResult
  else if negb (truthy (accessKey svc)) then ret None
  else
    tryCatch
      (match orElse englishFoodName None with
       | None => ret None
       | Some english => searchUnsplashLoop (searchQueries english)
       end)
      (fun _ => ret None).

Definition genericQuery : string := "korean food traditional cuisine".

(** [Math.floor(Math.random() * bound)] for a positive [bound]. *)
Definition randomBelow (bound : nat) : Comp nat :=
  fun w =>
    let (r, x) := math_random svc (ext w) in
    (Ok (Nat.modulo r bound), mkWorld x (foods w) (nextId w) (log w)).

Definition searchGenericKoreanFood : Comp (option string) :=
  if negb (truthy (accessKey svc)) then ret None
  else
    tryCatch
      (reply <- call (EvUnsplash genericQuery) (unsplash_get svc genericQuery) ;;
       match reply with
       | None => throw "Request failed"
       | Some [] => ret None
       | Some images =>
           randomIndex <- randomBelow (Nat.min (length images) 5) ;;
           ret (option_map i_regular (nth_error images randomIndex))
       end)
      (fun _ => ret None).

(** ** Dish resolution and the orchestrator ([analyzeKoreanMenu]) *)

(** [let imageUrl = null; let imageAccuracy = 'high';
     if (imageResult) { const [url, accuracy] = imageResult.split('|');
                        imageUrl = url; imageAccuracy = accuracy || 'high'; }] *)
Definition parseImageResult (imageResult : option string)
  : option string * string :=
  match imageResult with
  | None => (None, "high")
  | Some s =>
      if truthy s then
        let pieces := split "|"%char s in
        (hd_error pieces, interp (orElse (nth_error pieces 1) (Some "high")))
      else (None, "high")
  end.

Definition withImageUrl (aiData : InsertKoreanFood) (imageUrl : option string)
  : InsertKoreanFood :=
  {| ins_nameKorean := ins_nameKorean aiData;
     ins_nameEnglish := ins_nameEnglish aiData;
     ins_description := ins_description aiData;
     ins_descriptionEnglish := ins_descriptionEnglish aiData;
     ins_ingredients := ins_ingredients aiData;
     ins_calories := ins_calories aiData;
     ins_category := ins_category aiData;
     ins_spiciness := ins_spiciness aiData;
     ins_allergens := ins_allergens aiData;
     ins_isVegetarian := ins_isVegetarian aiData;
     ins_isVegan := ins_isVegan aiData;
     ins_servingSize := ins_servingSize aiData;
     ins_cookingMethod := ins_cookingMethod aiData;
     ins_region := ins_region aiData;
     ins_imageUrl := imageUrl |}.

(** Steps 3-4: the name is in the table. *)
Definition resolveFromStore (koreanName : string) (foodData : KoreanFood)
  : Comp DetectedDish :=
  imageResult <- searchKoreanFood koreanName (Some (nameEnglish foodData)) ;;
  let (imageUrl, imageAccuracy) := parseImageResult imageResult in
  ret {| d_nameKorean := nameKorean foodData;
         d_nameEnglish := nameEnglish foodData;
         d_description := description foodData;
         d_descriptionEnglish := "Traditional Korean " ++ nameEnglish foodData;
         d_ingredients := ingredients foodData;
         d_calories := calories foodData;
         d_imageUrl := imageUrl;
         d_imageAccuracy := imageAccuracy;
         d_category := category foodData;
         d_spiciness := spiciness foodData;
         d_allergens := allergens foodData;
         d_isVegetarian := isVegetarian foodData;
         d_isVegan := isVegan foodData;
         d_servingSize := servingSize foodData;
         d_cookingMethod := cookingMethod foodData;
         d_region := region foodData;
         confidence := 1.0%float;
         source := database |}.

(** Step 5: the name is not in the table. *)
Definition resolveFromAI (koreanName : string) : Comp DetectedDish :=
  aiData <- getFoodDetailsFromAI koreanName ;;
  imageResult <- searchKoreanFood koreanName (Some (ins_nameEnglish aiData)) ;;
  let (imageUrl, imageAccuracy) := parseImageResult imageResult in
  let aiData := withImageUrl aiData imageUrl in
  savedFood <- createKoreanFood aiData ;;
  ret {| d_nameKorean := nameKorean savedFood;
         d_nameEnglish := nameEnglish savedFood;
         d_description := description savedFood;
         d_descriptionEnglish :=
           if truthy (ins_descriptionEnglish aiData)
           then ins_descriptionEnglish aiData
           else "Traditional Korean " ++ nameEnglish savedFood;
         d_ingredients := ingredients savedFood;
         d_calories := calories savedFood;
         d_imageUrl := imageUrl;
         d_imageAccuracy := imageAccuracy;
         d_category := category savedFood;
         d_spiciness := spiciness savedFood;
         d_allergens := allergens savedFood;
         d_isVegetarian := isVegetarian savedFood;
         d_isVegan := isVegan savedFood;
         d_servingSize := servingSize savedFood;
         d_cookingMethod := cookingMethod savedFood;
         d_region := region savedFood;
         confidence := 0.8%float;
         source := ai |}.

(** The body of the per-name [try] block, up to the object it pushes. *)
Definition resolveDish (koreanName : string) : Comp DetectedDish :=
  foodData <- findKoreanFood koreanName ;;
  match foodData with
  | Some found => resolveFromStore koreanName found
  | None => resolveFromAI koreanName
  end.

(** The rough estimate added for one dish-details request. *)
Definition addDetailsEstimate (usage : TokenUsage) : TokenUsage :=
  {| prompt_tokens := (prompt_tokens usage + 200)%float;
     completion_tokens := (completion_tokens usage + 400)%float;
     total_tokens := (total_tokens usage + 600)%float;
     cost_usd := (cost_usd usage + 0.004)%float;
     cost_aud := (cost_aud usage + 0.006)%float |}.

(** [dishes.push(...)] and, in the generative branch, the usage update. *)
Definition account (dish : DetectedDish) (acc : list DetectedDish * TokenUsage)
  : list DetectedDish * TokenUsage :=
  ((fst acc ++ [dish])%list,
   match source dish with
   | ai => addDetailsEstimate (snd acc)
   | database => snd acc
   end).

(** [for (const koreanName of ocrResult.extractedNames) { try {...} catch {} }] *)
Fixpoint resolveAll (names : list string) (acc : list DetectedDish * TokenUsage)
  : Comp (list DetectedDish * TokenUsage) :=
  match names with
  | [] => ret acc
  | koreanName :: rest =>
      acc' <- tryCatch
                (dish <- resolveDish koreanName ;; ret (account dish acc))
                (fun _ => ret acc) ;;
      resolveAll rest acc'
  end.

Record Analysis : Type := mkAnalysis {
  r_isKoreanMenu : bool;
  dishes : list DetectedDish;
  r_tokenUsage : TokenUsage
}.

Definition foodLimitTag : string := "FOOD_LIMIT_ERROR:".

Definition foodLimitMessage (detected : Z) : string :=
  "FOOD_LIMIT_ERROR: Too many menu items detected (" ++ ofZ detected
  ++ " items found). Please upload a photo with 3 or fewer menu items for analysis.".

Definition analysisFailed : string := "Failed to analyze menu".

(** [ocrResult.totalDetected && ocrResult.totalDetected > 3] *)
Definition overLimit (detected : option Z) : option Z :=
  match detected with
  | Some n => if negb (n =? 0) && (3 <? n) then Some n else None
  | None => None
  end.

Definition analyzeKoreanMenu (base64Image : string) : Comp Analysis :=
  tryCatch
    (ocrResult <- extractKoreanFoodNames base64Image ;;
     match overLimit (totalDetected ocrResult) with
     | Some n => throw (foodLimitMessage n)
     | None =>
         if negb (isKoreanMenu ocrResult) then
           ret {| r_isKoreanMenu := false;
                  dishes := [];
                  r_tokenUsage := tokenUsage ocrResult |}
         else
           result <- resolveAll (extractedNames ocrResult)
                       ([], tokenUsage ocrResult) ;;
           ret {| r_isKoreanMenu := true;
                  dishes := fst result;
                  r_tokenUsage := snd result |}
     end)
    (fun message =>
       if includes message foodLimitTag then throw message
       else throw analysisFailed).

End Pipeline.

(** ** Views used to state the properties *)

(** The descriptive attributes of a dish: everything but the attached
    image, the confidence and the source tag. *)
Definition descriptiveFields (d : DetectedDish) :=
  (d_nameKorean d, d_nameEnglish d, d_description d, d_descriptionEnglish d,
   d_ingredients d, d_calories d, d_category d, d_spiciness d, d_allergens d,
   d_isVegetarian d, d_isVegan d, d_servingSize d, d_cookingMethod d,
   d_region d).

(** The same attributes as a stored row gives them. *)
Definition storedFields (row : KoreanFood) :=
  (nameKorean row, nameEnglish row, description row,
   "Traditional Korean " ++ nameEnglish row,
   ingredients row, calories row, category row, spiciness row, allergens row,
   isVegetarian row, isVegan row, servingSize row, cookingMethod row,
   region row).

(** An image-search result that carries no accuracy after the separator:
    no result at all, no separator, or nothing between the first separator
    and the end of the string or the next separator. *)
Definition lacksAccuracy (imageResult : option string) : Prop :=
  match imageResult with
  | None => True
  | Some s =>
      includes s "|" = false
      \/ exists u rest,
           s = u ++ "|" ++ rest /\ includes u "|" = false
           /\ (rest = "" \/ startsWith rest "|" = true)
  end.

(** The outcome of resolving each name in turn, every resolution starting
    in the world the previous one left, whether it returned or threw. *)
Fixpoint outcomes {Ext} (svc : Services Ext) (names : list string)
    (w : World Ext) : list (Res DetectedDish) :=
  match names with
  | [] => []
  | name :: rest =>
      let (r, w') := resolveDish svc name w in r :: outcomes svc rest w'
  end.

(** The dishes of the resolutions that returned, in order. *)
Fixpoint succeeded (results : list (Res DetectedDish)) : list DetectedDish :=
  match results with
  | [] => []
  | Ok d :: rest => d :: succeeded rest
  | Throw _ :: rest => succeeded rest
  end.

Definition returned {A} (r : Res A) : bool :=
  match r with Ok _ => true | Throw _ => false end.

Definition isCreate (e : Event) : Prop :=
  match e with EvCreate _ => True | _ => False end.

(** Which service an external call reaches. *)
Definition isNaverCall (e : Event) : Prop :=
  match e with EvNaver _ => True | _ => False end.

Definition isNaverOrProbe (e : Event) : Prop :=
  match e with EvNaver _ | EvHead _ => True | _ => False end.

(** An image-search call whose Unsplash queries, if any, are among [queries]. *)
Definition imageCallWithin (queries : list string) (e : Event) : Prop :=
  match e with
  | EvNaver _ | EvHead _ | EvPexels _ | EvPixabay _ => True
  | EvUnsplash q => In q queries
  | _ => False
  end.

(** The Unsplash queries [searchKoreanFood] may issue for a dish. *)
Definition fallbackQueries (englishFoodName : option string) : list string :=
  match orElse englishFoodName None with
  | Some english => searchQueries english
  | None => []
  end.

(** A computation that touches neither the table nor the serial counter,
    and whose external calls all satisfy [P]. *)
Definition frame {Ext} (P : Event -> Prop) {A} (m : M Ext A) : Prop :=
  forall w r w', m w = (r, w') ->
    foods w' = foods w /\ nextId w' = nextId w /\
    exists evs, log w' = (log w ++ evs)%list /\ Forall P evs.

(** ** Concrete environments

    Scripted services over a hidden state that counts the Naver requests
    made so far; they instantiate the statements below. *)

Module Scenario.

Definition services
    (ocr : ApiReply OcrJson)
    (details : string -> ApiReply FoodJson)
    (naverReply : nat -> string -> option (list NaverItem))
    (probe : string -> bool)
    (stock : string -> option (list UnsplashImage))
    (key : string)
    (insertError : option string) : Services nat :=
  {| openai_ocr := fun _ x => (ocr, x);
     openai_details := fun name x => (details name, x);
     db_select_error := fun _ x => (None, x);
     db_insert_error := fun _ x => (insertError, x);
     naver_get := fun q x => (naverReply x q, S x);
     http_head := fun u x => (probe u, x);
     pexels_get := fun _ x => (None, x);
     pixabay_get := fun _ x => (None, x);
     unsplash_get := fun q x => (stock q, x);
     math_random := fun x => (x, x);
     pexelsApiKey := None;
     pixabayApiKey := None;
     accessKey := key |}.

Definition usage : ApiUsage :=
  {| u_prompt_tokens := 1000%float;
     u_completion_tokens := 50%float;
     u_total_tokens := 1050%float |}.

Definition ocrReply (names : list string) (detected : option Z)
  : ApiReply OcrJson :=
  ApiOk (Json {| j_isKoreanMenu := true;
                 j_extractedNames := Some names;
                 j_totalDetected := detected |})
        (Some usage).

Definition hotteok : FoodJson :=
  {| f_nameKorean := "호떡";
     f_nameEnglish := "Hotteok";
     f_description := "Sweet pancake with brown sugar.";
     f_descriptionEnglish := None;
     f_ingredients := Some ["flour"; "brown sugar"; "honey"];
     f_calories := Some 280;
     f_category := Some "Dessert";
     f_spiciness := None;
     f_allergens := Some ["gluten"; "nuts"; "milk"];
     f_isVegetarian := Some true;
     f_isVegan := None;
     f_servingSize := Some "1 piece";
     f_cookingMethod := Some "Pan-fried";
     f_region := Some "Nationwide" |}.

(** The generative model knows one dish and fails on every other name. *)
Definition details (name : string) : ApiReply FoodJson :=
  if String.eqb name "호떡" then ApiOk (Json hotteok) None
  else ApiError "rate limited".

Definition bibimbap : KoreanFood :=
  {| id := 1;
     nameKorean := "비빔밥";
     nameEnglish := "Bibimbap";
     description := "Mixed rice bowl with seasoned vegetables and meat";
     ingredients := ["rice"; "spinach"; "bean sprouts"; "beef"; "egg"];
     calories := 420;
     category := Some "Main Dish";
     spiciness := 2;
     allergens := ["soy"; "gluten"; "egg"; "sesame"];
     isVegetarian := false;
     isVegan := false;
     servingSize := Some "1 bowl (300g)";
     cookingMethod := Some "Mixed";
     region := Some "Seoul";
     imageUrl := None |}.

Definition start (table : list KoreanFood) : World nat :=
  {| ext := O; foods := table; nextId := 2; log := [] |}.

Definition blogItem : NaverItem :=
  {| n_title := Some "비빔밥 맛집";
     n_source := Some "blog";
     n_originalUrl := Some "https://blogfiles.naver.net/bibimbap.jpg";
     n_thumb := None |}.

Definition plainItem : NaverItem :=
  {| n_title := Some "bibimbap";
     n_source := None;
     n_originalUrl := Some "https://example.com/bibimbap.jpg";
     n_thumb := None |}.

Definition peopleItem : NaverItem :=
  {| n_title := Some "식당 사람";
     n_source := None;
     n_originalUrl := Some "https://example.com/crowd.jpg";
     n_thumb := None |}.

Definition shopItem : NaverItem :=
  {| n_title := Some "비빔밥 요리 한국";
     n_source := Some "blog";
     n_originalUrl := Some "https://shopping.phinf.naver.net/bibimbap.jpg";
     n_thumb := None |}.

Definition noNaver : nat -> string -> option (list NaverItem) :=
  fun _ _ => None.

Definition noStock : string -> option (list UnsplashImage) := fun _ => Some [].

(** Naver answers the first request with a blog photo and every later one
    with an unremarkable photo; every probe succeeds. *)
Definition changingNaver (requests : nat) (_ : string)
  : option (list NaverItem) :=
  match requests with
  | O => Some [blogItem]
  | _ => Some [plainItem]
  end.

Definition changing : Services nat :=
  services (ApiError "unused") details changingNaver (fun _ => true)
           noStock "" None.

(** Naver answers every request with the given items; every probe
    succeeds. *)
Definition naverOnly (items : list NaverItem) : Services nat :=
  services (ApiError "unused") details (fun _ _ => Some items)
           (fun _ => true) noStock "" None.

Definition stockPhoto : UnsplashImage :=
  {| i_regular := "https://images.unsplash.com/photo-1";
     i_alt_description := Some "korean food on a table";
     i_description := None |}.

(** Unsplash is configured and has photos for the generic query only; no
    other provider answers. *)
Definition genericOnly : Services nat :=
  services (ApiError "unused") details noNaver (fun _ => true)
           (fun q => if String.eqb q "korean food traditional cuisine"
                     then Some [stockPhoto] else Some [])
           "unsplash-key" None.

(** No image provider answers; the database and both prompts work. *)
Definition plain (ocr : ApiReply OcrJson) : Services nat :=
  services ocr details noNaver (fun _ => false) noStock "" None.

End Scenario.

(** ** Error classifiers ([lib/errorUtils.ts]) *)

(** [/USAGE_LIMIT_ERROR/.test(error.message)] *)
Definition isUsageLimitError (message : string) : bool :=
  includes message "USAGE_LIMIT_ERROR".

(** [/FOOD_LIMIT_ERROR/.test(error.message)] *)
Definition isFoodLimitError (message : string) : bool :=
  includes message "FOOD_LIMIT_ERROR".

(** ** Seeding the table ([seedKoreanFoodDatabase]) *)

(** A seed record: the literal has no [descriptionEnglish] property, which
    the table would drop anyway; the field is left empty. *)
Definition seedRecord (korean english descr : string) (ingr : list string)
    (kcal : Z) (cat : string) (spice : Z) (allerg : list string)
    (vegetarian vegan : bool) (serving method reg : string)
    (image : option string) : InsertKoreanFood :=
  {| ins_nameKorean := korean;
     ins_nameEnglish := english;
     ins_description := descr;
     ins_descriptionEnglish := "";
     ins_ingredients := ingr;
     ins_calories := kcal;
     ins_category := Some cat;
     ins_spiciness := spice;
     ins_allergens := allerg;
     ins_isVegetarian := vegetarian;
     ins_isVegan := vegan;
     ins_servingSize := Some serving;
     ins_cookingMethod := Some method;
     ins_region := Some reg;
     ins_imageUrl := image |}.

Definition koreanFoodSeedData : list InsertKoreanFood :=
  [ seedRecord "비빔밥" "Bibimbap"
      "Mixed rice bowl with seasoned vegetables and meat"
      ["rice"; "spinach"; "bean sprouts"; "carrot"; "mushrooms"; "beef";
       "egg"; "gochujang"; "sesame oil"]
      420 "Main Dish" 2 ["soy"; "gluten"; "egg"; "sesame"] false false
      "1 bowl (300g)" "Mixed" "Seoul" None;
    seedRecord "김치찌개" "Kimchi Jjigae"
      "Spicy fermented cabbage stew with pork and tofu"
      ["aged kimchi"; "pork belly"; "tofu"; "onion"; "garlic"; "gochugaru";
       "fish sauce"; "scallions"]
      280 "Soup/Stew" 4 ["soy"; "fish"] false false
      "1 bowl (250ml)" "Stewed" "Nationwide" None;
    seedRecord "불고기" "Bulgogi"
      "Sweet marinated grilled beef strips"
      ["beef"; "soy sauce"; "pear"; "garlic"; "ginger"; "sesame oil";
       "sugar"; "rice wine"]
      350 "Main Dish" 0 ["soy"; "sesame"] false false
      "150g meat" "Grilled" "Seoul" None;
    seedRecord "된장찌개" "Doenjang Jjigae"
      "Soybean paste stew with vegetables and tofu"
      ["doenjang"; "tofu"; "zucchini"; "onion"; "mushrooms"; "scallions";
       "garlic"; "anchovy broth"]
      180 "Soup/Stew" 1 ["soy"; "fish"] false false
      "1 bowl (250ml)" "Stewed" "Nationwide" None;
    seedRecord "김밥" "Gimbap"
      "Rice rolls wrapped in seasoned seaweed"
      ["rice"; "seaweed"; "pickled radish"; "egg"; "beef"; "spinach";
       "carrot"; "sesame oil"]
      250 "Main Dish" 0 ["soy"; "egg"; "sesame"] false false
      "6-8 pieces" "Rolled" "Nationwide"
      (Some "https://images.unsplash.com/photo-1544025162-d76694265947?w=400&h=300&fit=crop&auto=format");
    seedRecord "냉면" "Naengmyeon"
      "Cold buckwheat noodles in broth."
      ["buckwheat noodles"; "beef broth"; "cucumber"; "pear"; "egg";
       "mustard oil"; "vinegar"]
      320 "Noodles" 1 ["gluten"; "egg"] false false
      "1 bowl" "Boiled" "North Korea"
      (Some "https://images.unsplash.com/photo-1545224144-b38cd309ef69?w=400&h=300&fit=crop&auto=format");
    seedRecord "삼겹살" "Samgyeopsal"
      "Grilled pork belly wrapped in lettuce."
      ["pork belly"; "lettuce"; "garlic"; "ssamjang"; "scallions";
       "perilla leaves"]
      450 "BBQ" 0 ["soy"] false false
      "200g meat" "Grilled" "Nationwide"
      (Some "https://images.unsplash.com/photo-1590031905406-f18a426d772d?w=400&h=300&fit=crop&auto=format");
    seedRecord "잡채" "Japchae"
      "Sweet potato noodles with vegetables."
      ["sweet potato noodles"; "spinach"; "carrot"; "mushrooms"; "beef";
       "soy sauce"; "sesame oil"; "sugar"]
      290 "Side Dish" 0 ["soy"; "sesame"] false false
      "1 portion (150g)" "Stir-fried" "Seoul"
      (Some "https://images.unsplash.com/photo-1581061623-a4f3aa1cb3a7?w=400&h=300&fit=crop&auto=format");
    seedRecord "김치" "Kimchi"
      "Spicy fermented cabbage."
      ["napa cabbage"; "gochugaru"; "garlic"; "ginger"; "fish sauce";
       "scallions"; "salt"]
      15 "Side Dish" 3 ["fish"] false false
      "50g" "Fermented" "Nationwide"
      (Some "https://images.unsplash.com/photo-1585032226651-759b368d7246?w=400&h=300&fit=crop&auto=format");
    seedRecord "호떡" "Hotteok"
      "Sweet pancake with brown sugar."
      ["flour"; "brown sugar"; "honey"; "peanuts"; "cinnamon"; "yeast";
       "milk"]
      280 "Dessert" 0 ["gluten"; "nuts"; "milk"] true false
      "1 piece" "Pan-fried" "Nationwide"
      (Some "https://images.unsplash.com/photo-1610218390945-c5c1eb4e0d72?w=400&h=300&fit=crop&auto=format") ].

Section Seeding.

Context {Ext : Type} (svc : Services Ext).

(** [for (const foodData of data) { existing = await find(name);
      if (!existing) await create(foodData); }] *)
Fixpoint seedLoop (data : list InsertKoreanFood) : M Ext unit :=
  match data with
  | [] => ret tt
  | foodData :: rest =>
      existing <- findKoreanFood svc (ins_nameKorean foodData) ;;
      match existing with
      | None => createKoreanFood svc foodData ;;; seedLoop rest
      | Some _ => seedLoop rest
      end
  end.

(** The loop inside its [try]; the [catch] only logs. *)
Definition seedWith (data : list InsertKoreanFood) : M Ext unit :=
  tryCatch (seedLoop data) (fun _ => ret tt).

Definition seedKoreanFoodDatabase : M Ext unit := seedWith koreanFoodSeedData.

End Seeding.

(** ** Further views used to state the properties *)

(** The database answers every select and insert on [korean_foods]. *)
Definition storeHealthy {Ext} (svc : Services Ext) : Prop :=
  (forall name x, fst (db_select_error svc name x) = None)
  /\ (forall food x, fst (db_insert_error svc food x) = None).

(** The rows of the table that carry a given Korean name. *)
Definition rowsNamed (name : string) (table : list KoreanFood)
  : list KoreanFood :=
  filter (fun row => String.eqb (nameKorean row) name) table.

Definition isAi (d : DetectedDish) : bool :=
  match source d with ai => true | database => false end.

(** Every outcome of the computation satisfies [Q]. *)
Definition always {Ext A} (Q : Res A -> Prop) (m : M Ext A) : Prop :=
  forall w r w', m w = (r, w') -> Q r.

Definition isOk {A} (r : Res A) : Prop :=
  match r with Ok _ => True | Throw _ => False end.

(** The computation makes at most [n] external calls. *)
Definition callsAtMost {Ext A} (n : nat) (m : M Ext A) : Prop :=
  forall w r w', m w = (r, w') ->
    exists evs, log w' = (log w ++ evs)%list /\ (List.length evs <= n)%nat.

Definition isUnsplashCall (e : Event) : Prop :=
  match e with EvUnsplash _ => True | _ => False end.

Definition isDetailsCall (e : Event) : Prop :=
  match e with EvDetails _ => True | _ => False end.

(** A string the waterfall may return: a probed URL and an accuracy. *)
Definition probedBy {Ext} (svc : Services Ext) (s : string) : Prop :=
  exists u acc x,
    s = rendered (Some u) acc /\ fst (http_head svc u x) = true.

(** ** More concrete environments *)

Module Cases.

(** An OCR reply for an image that is not a Korean menu. *)
Definition foreignReply (names : list string) : ApiReply OcrJson :=
  ApiOk (Json {| j_isKoreanMenu := false;
                 j_extractedNames := Some names;
                 j_totalDetected := Some 2 |})
        (Some Scenario.usage).

(** The generative model describes 호떡 at length. *)
Definition detailedHotteok : FoodJson :=
  {| f_nameKorean := "호떡";
     f_nameEnglish := "Hotteok";
     f_description := "Sweet pancake with brown sugar.";
     f_descriptionEnglish := Some "A pan-fried yeast pancake filled with brown sugar, cinnamon and peanuts.";
     f_ingredients := Some ["flour"; "brown sugar"; "honey"];
     f_calories := Some 280;
     f_category := Some "Dessert";
     f_spiciness := None;
     f_allergens := Some ["gluten"; "nuts"; "milk"];
     f_isVegetarian := Some true;
     f_isVegan := None;
     f_servingSize := Some "1 piece";
     f_cookingMethod := Some "Pan-fried";
     f_region := Some "Nationwide" |}.

(** Every provider is configured and answers; probes follow [probe]. *)
Definition everyProvider (probe : string -> bool) : Services nat :=
  {| openai_ocr := fun _ x => (ApiError "unused", x);
     openai_details := fun _ x => (ApiOk (Json detailedHotteok) None, x);
     db_select_error := fun _ x => (None, x);
     db_insert_error := fun _ x => (None, x);
     naver_get := fun _ x => (Some [Scenario.plainItem], S x);
     http_head := fun u x => (probe u, x);
     pexels_get := fun _ x =>
       (Some [{| p_alt := Some "korean food";
                 p_photographer := None;
                 p_src_large := "https://images.pexels.com/photos/1.jpg" |}], x);
     pixabay_get := fun _ x =>
       (Some [{| h_tags := Some "korean, food";
                 h_largeImageURL := None;
                 h_webformatURL := Some "https://cdn.pixabay.com/photo/1.jpg" |}], x);
     unsplash_get := fun _ x => (Some [Scenario.stockPhoto], x);
     math_random := fun x => (7%nat, x);
     pexelsApiKey := Some "pexels-key";
     pixabayApiKey := Some "pixabay-key";
     accessKey := "unsplash-key" |}.

(** The database rejects every insert. *)
Definition readOnly (ocr : ApiReply OcrJson) : Services nat :=
  Scenario.services ocr Scenario.details Scenario.noNaver (fun _ => false)
                    Scenario.noStock "" (Some "insert rejected").

End Cases.

(** The dish attributes that a stored row holds as they are. *)
Definition coreFields (d : DetectedDish) :=
  (d_nameKorean d, d_nameEnglish d, d_description d, d_ingredients d,
   d_calories d, d_category d, d_spiciness d, d_allergens d,
   d_isVegetarian d, d_isVegan d, d_servingSize d, d_cookingMethod d,
   d_region d).

Definition rowFields (row : KoreanFood) :=
  (nameKorean row, nameEnglish row, description row, ingredients row,
   calories row, category row, spiciness row, allergens row,
   isVegetarian row, isVegan row, servingSize row, cookingMethod row,
   region row).

(** The attributes of a generated record, as the model's answer gives them
    once the defaults are applied. *)
Definition answerFields (foodData : FoodJson) :=
  (f_nameKorean foodData, f_nameEnglish foodData, f_description foodData,
   orDefault (f_ingredients foodData) [], orZero (f_calories foodData),
   f_category foodData, orZero (f_spiciness foodData),
   orDefault (f_allergens foodData) [],
   orDefault (f_isVegetarian foodData) false,
   orDefault (f_isVegan foodData) false,
   f_servingSize foodData, f_cookingMethod foodData, f_region foodData).

(** An image-search answer: nothing, or a URL and an accuracy. *)
Definition wellFormed (imageResult : option string) : Prop :=
  match imageResult with
  | None => True
  | Some s => exists u acc, s = rendered (Some u) acc
  end.

(** A waterfall answer: nothing, or a probed URL and an accuracy. *)
Definition probed {Ext} (svc : Services Ext) (imageResult : option string)
  : Prop :=
  match imageResult with
  | None => True
  | Some s => probedBy svc s
  end.

(** The computation returns, with a value satisfying [Q]. *)
Definition returns {A} (Q : A -> Prop) (r : Res A) : Prop :=
  match r with Ok a => Q a | Throw _ => False end.

(** A call a provider accepts only with its key: Pexels, Pixabay and
    Unsplash are contacted only when their key is configured. *)
Definition respectsKeys {Ext} (svc : Services Ext) (e : Event) : Prop :=
  match e with
  | EvPexels _ => keyMissing (pexelsApiKey svc) = false
  | EvPixabay _ => keyMissing (pixabayApiKey svc) = false
  | EvUnsplash _ => truthy (accessKey svc) = true
  | EvNaver _ | EvHead _ => True
  | _ => False
  end.

Definition notNaver (e : Event) : Prop :=
  match e with
  | EvHead _ | EvPexels _ | EvPixabay _ => True
  | _ => False
  end.

(** The attempts that came from Naver. *)
Definition naverAttempts (attemptedUrls : list Attempt) : nat :=
  List.length
    (filter (fun a => match a_source a with naver => true | _ => false end)
            attemptedUrls).

(** ** Users and analyses ([storage.ts]) *)

(** The columns of [users] that the analysis route reads or writes.
    [incrementUserUsage] also refreshes [updated_at], which nothing in the
    route reads. *)
Record User : Type := mkUser {
  user_id : string;
  isPremium : bool;
  freeUsageCount : Z
}.

(** A number once it has been through [JSON.stringify] and [JSON.parse],
    as the [jsonb] column does: [NaN] and the infinities come back as
    [null], negative zero as zero. *)
Definition jsonNumber (x : float) : option float :=
  if PrimFloat.is_finite x
  then Some (if (x =? 0)%float then 0%float else x)
  else None.

(** The [token_usage] object as it is read back from its column. *)
Record JsonUsage : Type := mkJsonUsage {
  js_prompt_tokens : option float;
  js_completion_tokens : option float;
  js_total_tokens : option float;
  js_cost_usd : option float;
  js_cost_aud : option float
}.

Definition jsonUsage (usage : TokenUsage) : JsonUsage :=
  {| js_prompt_tokens := jsonNumber (prompt_tokens usage);
     js_completion_tokens := jsonNumber (completion_tokens usage);
     js_total_tokens := jsonNumber (total_tokens usage);
     js_cost_usd := jsonNumber (cost_usd usage);
     js_cost_aud := jsonNumber (cost_aud usage) |}.

(** The object the route hands to [createMenuAnalysis]. *)
Record InsertMenuAnalysis : Type := mkInsertMenuAnalysis {
  new_userId : option string;
  new_sessionId : option string;
  new_imageUrl : string;
  new_imageHash : string;
  new_extractedFoodNames : list string;
  new_detectedDishes : list DetectedDish;
  new_isKoreanMenu : bool;
  new_tokenUsage : TokenUsage
}.

(** A row of [menu_analyses].  The dishes of an analysis carry integer
    counts and a confidence of 0.95 or 0.8, which the [json] column gives
    back as they are. *)
Record MenuAnalysis : Type := mkMenuAnalysis {
  ma_id : Z;
  ma_userId : option string;
  ma_sessionId : option string;
  ma_imageUrl : string;
  ma_imageHash : option string;
  ma_extractedFoodNames : list string;
  ma_detectedDishes : list DetectedDish;
  ma_isKoreanMenu : bool;
  ma_tokenUsage : JsonUsage;
  ma_createdAt : Z
}.

Definition storedAnalysis (newId now : Z) (analysis : InsertMenuAnalysis)
  : MenuAnalysis :=
  {| ma_id := newId;
     ma_userId := new_userId analysis;
     ma_sessionId := new_sessionId analysis;
     ma_imageUrl := new_imageUrl analysis;
     ma_imageHash := Some (new_imageHash analysis);
     ma_extractedFoodNames := new_extractedFoodNames analysis;
     ma_detectedDishes := new_detectedDishes analysis;
     ma_isKoreanMenu := new_isKoreanMenu analysis;
     ma_tokenUsage := jsonUsage (new_tokenUsage analysis);
     ma_createdAt := now |}.

(** The statements the route sends to the database. *)
Inductive Query : Type :=
| SelectUser (id : string)              (* [getUser] *)
| SelectUsage (userId : string)         (* [getUsageCount], signed in *)
| CountSession (sessionId : string)     (* [getUsageCount], anonymous *)
| UpdateUsage (userId : string)         (* [incrementUserUsage] *)
| SelectByHash (imageHash : string)     (* [getCachedAnalysisByImageHash] *)
| InsertAnalysis (analysis : InsertMenuAnalysis).

(** What the route needs besides the pipeline's services. *)
Record Backend (Ext : Type) : Type := mkBackend {
  (** [Some message]: the statement rejects with that message. *)
  db_error : Query -> Ext -> option string * Ext;
  (** [now()] as [defaultNow()] fills [created_at]. *)
  db_now : Ext -> Z * Ext;
  (** Which of several rows with the same newest [created_at] a
      [LIMIT 1] query yields: the order among them is the database's. *)
  db_pick : Ext -> nat * Ext;
  nanoid : Ext -> string * Ext;
  (** [CryptoJS.SHA256(text).toString()] *)
  sha256 : string -> string;
  (** [process.env.NODE_ENV === 'development'] *)
  development : bool
}.
Arguments db_error {Ext}.
Arguments db_now {Ext}.
Arguments db_pick {Ext}.
Arguments nanoid {Ext}.
Arguments sha256 {Ext}.
Arguments development {Ext}.

(** The state a request runs in: the pipeline's world and the two tables
    of the route. *)
Record Host (Ext : Type) : Type := mkHost {
  world : World Ext;
  users : list User;
  menuAnalyses : list MenuAnalysis;   (* oldest first *)
  nextAnalysisId : Z
}.
Arguments mkHost {Ext}.
Arguments world {Ext}.
Arguments users {Ext}.
Arguments menuAnalyses {Ext}.
Arguments nextAnalysisId {Ext}.

(** An [async] function of the route layer. *)
Definition Task (Ext A : Type) : Type := Host Ext -> Res A * Host Ext.

Definition done {Ext A} (a : A) : Task Ext A := fun h => (Ok a, h).

Definition andThen {Ext A B} (m : Task Ext A) (k : A -> Task Ext B)
  : Task Ext B :=
  fun h =>
    match m h with
    | (Ok a, h') => k a h'
    | (Throw msg, h') => (Throw msg, h')
    end.

Definition fail {Ext A} (msg : string) : Task Ext A :=
  fun h => (Throw msg, h).

(** [try { body } catch (error) { handler(error.message) }] *)
Definition attempt {Ext A} (body : Task Ext A) (handler : string -> Task Ext A)
  : Task Ext A :=
  fun h =>
    match body h with
    | (Ok a, h') => (Ok a, h')
    | (Throw msg, h') => handler msg h'
    end.

(** A pipeline computation run from the route. *)
Definition inWorld {Ext A} (m : M Ext A) : Task Ext A :=
  fun h =>
    let (r, w') := m (world h) in
    (r, mkHost w' (users h) (menuAnalyses h) (nextAnalysisId h)).

Declare Scope task_scope.
Delimit Scope task_scope with task.
Notation "x <- m ;; k" := (andThen m (fun x => k))
  (at level 61, m at next level, right associativity) : task_scope.
Notation "m ;;; k" := (andThen m (fun _ => k))
  (at level 61, right associativity) : task_scope.

(** Rows with the newest [created_at] among [rows]. *)
Definition newest (rows : list MenuAnalysis) : list MenuAnalysis :=
  filter (fun row =>
            forallb (fun other => ma_createdAt other <=? ma_createdAt row) rows)
         rows.

Definition hashed (imageHash : string) (row : MenuAnalysis) : bool :=
  match ma_imageHash row with
  | Some stored => String.eqb stored imageHash
  | None => false
  end.

Definition ofSession (sessionId : string) (row : MenuAnalysis) : bool :=
  match ma_sessionId row with
  | Some stored => String.eqb stored sessionId
  | None => false
  end.

Definition userRow (id : string) (table : list User) : option User :=
  find (fun u => String.eqb (user_id u) id) table.

Definition bumped (userId : string) (u : User) : User :=
  if String.eqb (user_id u) userId
  then {| user_id := user_id u;
          isPremium := isPremium u;
          freeUsageCount := freeUsageCount u + 1 |}
  else u.

(** ** The analysis route ([routes.ts]) *)

(** [message.replace(pattern, replacement)] for a string pattern: the
    first occurrence only. *)
Fixpoint skip (n : nat) (s : string) : string :=
  match n, s with
  | O, _ => s
  | S _, EmptyString => EmptyString
  | S n', String _ s' => skip n' s'
  end.

Fixpoint replaceFirst (pattern replacement s : string) : string :=
  if startsWith s pattern
  then replacement ++ skip (String.length pattern) s
  else match s with
       | EmptyString => EmptyString
       | String c s' => String c (replaceFirst pattern replacement s')
       end.

(** [req.body.imageBase64] *)
Inductive BodyField : Type :=
| Missing
| Text (s : string)
| NotText (isTruthy : bool).   (* any other JSON value *)

(** [req.body]; reading a property of an undefined body throws a
    [TypeError] with the given message. *)
Inductive RequestBody : Type :=
| NoBody (typeError : string)
| Fields (imageBase64 : BodyField).

Record Request : Type := mkRequest {
  isAuthenticated : bool;
  claimsSub : option string;   (* [req.user?.claims?.sub] *)
  sessionID : option string;
  file : option string;        (* [req.file.buffer.toString('base64')] *)
  body : RequestBody
}.

Record AnalysisContext : Type := mkAnalysisContext {
  ctx_userId : option string;
  ctx_sessionId : option string;
  ctx_usageCount : Z
}.

(** A dish as the route sends it for a fresh analysis: every attribute
    but [imageAccuracy]. *)
Record ResponseDish : Type := mkResponseDish {
  rd_nameKorean : string;
  rd_nameEnglish : string;
  rd_description : string;
  rd_descriptionEnglish : string;
  rd_ingredients : list string;
  rd_calories : Z;
  rd_confidence : float;
  rd_imageUrl : option string;
  rd_category : option string;
  rd_spiciness : Z;
  rd_allergens : list string;
  rd_isVegetarian : bool;
  rd_isVegan : bool;
  rd_servingSize : option string;
  rd_cookingMethod : option string;
  rd_region : option string;
  rd_source : Source
}.

Definition responseDish (dish : DetectedDish) : ResponseDish :=
  {| rd_nameKorean := d_nameKorean dish;
     rd_nameEnglish := d_nameEnglish dish;
     rd_description := d_description dish;
     rd_descriptionEnglish := d_descriptionEnglish dish;
     rd_ingredients := d_ingredients dish;
     rd_calories := d_calories dish;
     rd_confidence := confidence dish;
     rd_imageUrl := d_imageUrl dish;
     rd_category := d_category dish;
     rd_spiciness := d_spiciness dish;
     rd_allergens := d_allergens dish;
     rd_isVegetarian := d_isVegetarian dish;
     rd_isVegan := d_isVegan dish;
     rd_servingSize := d_servingSize dish;
     rd_cookingMethod := d_cookingMethod dish;
     rd_region := d_region dish;
     rd_source := source dish |}.

Inductive Remedy : Type := requiresAuth | requiresPayment.

(** The JSON bodies of the route. *)
Inductive Payload : Type :=
| LimitReached (message : string) (usageCount : Z) (remedy : Remedy)
| Plain (message : string)
| InvalidFormat      (* "Invalid request format" and the schema issues *)
| Cached (id : Z) (isKoreanMenu : bool) (dishes : list DetectedDish)
         (extractedFoodNames : list string) (tokenUsage : JsonUsage)
         (cacheDate : Z)
| Fresh (id : Z) (isKoreanMenu : bool) (dishes : list ResponseDish)
        (message : string) (tokenUsage : TokenUsage)
| LimitError (message : string)
| Failure (message : string) (error : option string).

Record Response : Type := mkResponse {
  status : Z;
  payload : Payload
}.

(** [res.json(payload)] answers with status 200. *)
Definition json (p : Payload) : Response := {| status := 200; payload := p |}.

Definition adminUserId : string := "44879184".

Definition anonymousLimitMessage : string :=
  "USAGE_LIMIT_ERROR: Free trial limit reached (3 uploads). Please log in and choose from Day Pass ($0.99), Weekly ($3.49), Monthly ($6.99), or Annual ($59.99) plans.".

Definition accountLimitMessage : string :=
  "USAGE_LIMIT_ERROR: Free limit reached (3 uploads). Choose from Day Pass ($0.99), Weekly ($3.49), Monthly ($6.99), or Annual ($59.99) to continue analyzing Korean menus.".

Definition foundMessage (count : nat) : string :=
  "Found " ++ ofZ (Z.of_nat count) ++ " Korean dishes in the menu".

Definition notKoreanMessage : string :=
  "This doesn't appear to be a Korean menu".

Section Routes.

Context {Ext : Type} (svc : Services Ext) (be : Backend Ext).

Local Open Scope task_scope.

(** Consult an oracle of the back end. *)
Definition ask {A} (oracle : Ext -> A * Ext) : Task Ext A :=
  fun h =>
    let w := world h in
    let (a, x) := oracle (ext w) in
    (Ok a,
     mkHost (mkWorld x (foods w) (nextId w) (log w))
            (users h) (menuAnalyses h) (nextAnalysisId h)).

(** Send a statement; go on when the database accepts it. *)
Definition send {A} (q : Query) (k : Task Ext A) : Task Ext A :=
  err <- ask (db_error be q) ;;
  match err with
  | Some msg => fail msg
  | None => k
  end.

(** [const [user] = await db.select().from(users).where(eq(users.id, id))] *)
Definition getUser (id : string) : Task Ext (option User) :=
  send (SelectUser id) (fun h => (Ok (userRow id (users h)), h)).

Definition incrementUserUsage (userId : string) : Task Ext unit :=
  send (UpdateUsage userId)
       (fun h =>
          (Ok tt,
           mkHost (world h) (map (bumped userId) (users h))
                  (menuAnalyses h) (nextAnalysisId h))).

Definition getUsageCount (userId sessionId : option string) : Task Ext Z :=
  match orElse userId None with
  | Some uid =>
      send (SelectUsage uid)
           (fun h =>
              (Ok (orZero (option_map freeUsageCount (userRow uid (users h)))),
               h))
  | None =>
      match orElse sessionId None with
      | Some sid =>
          send (CountSession sid)
               (fun h =>
                  (Ok (Z.of_nat
                         (List.length (filter (ofSession sid) (menuAnalyses h)))),
                   h))
      | None => done 0
      end
  end.

Definition createMenuAnalysis (analysis : InsertMenuAnalysis)
  : Task Ext MenuAnalysis :=
  send (InsertAnalysis analysis)
       (now <- ask (db_now be) ;;
        fun h =>
          let created := storedAnalysis (nextAnalysisId h) now analysis in
          (Ok created,
           mkHost (world h) (users h) (menuAnalyses h ++ [created])
                  (nextAnalysisId h + 1))).

(** [where(eq(imageHash, hash)).orderBy(desc(createdAt)).limit(1)] *)
Definition getCachedAnalysisByImageHash (imageHash : string)
  : Task Ext (option MenuAnalysis) :=
  send (SelectByHash imageHash)
       (choice <- ask (db_pick be) ;;
        fun h =>
          let candidates := newest (filter (hashed imageHash) (menuAnalyses h)) in
          (Ok (nth_error candidates
                 (Nat.modulo choice (List.length candidates))),
           h)).

(** Who is asking: the signed-in user, or else the session, which gets a
    fresh id when the request has none. *)
Definition identify (req : Request)
  : Task Ext (option string * option string) :=
  if isAuthenticated req && present (claimsSub req)
  then done (claimsSub req, None)
  else
    match orElse (sessionID req) None with
    | Some sid => done (None, Some sid)
    | None => fresh <- ask (nanoid be) ;; done (None, Some fresh)
    end.

Definition isAdmin (userId : option string) : bool :=
  match userId with
  | Some uid => String.eqb uid adminUserId
  | None => false
  end.

(** [user?.isPremium], as a condition *)
Definition premium (user : option User) : bool :=
  match user with
  | Some u => isPremium u
  | None => false
  end.

Definition limitReached (message : string) (usageCount : Z) (remedy : Remedy)
  : Response :=
  {| status := 402; payload := LimitReached message usageCount remedy |}.

Definition checkFailed : Response :=
  {| status := 500; payload := Plain "Failed to check usage limit" |}.

(** The usage middleware: it answers itself, or hands the request on with
    its [analysisContext]. *)
Definition checkUsageLimit (req : Request)
  : Task Ext (Response + AnalysisContext) :=
  attempt
    (ids <- identify req ;;
     let userId : option string := fst ids in
     let sessionId : option string := snd ids in
     usageCount <- getUsageCount userId sessionId ;;
     let context := {| ctx_userId := userId;
                       ctx_sessionId := sessionId;
                       ctx_usageCount := usageCount |} in
     if (3 <=? usageCount) && negb (isAdmin userId)
     then
       match orElse userId None with
       | None =>
           done (inl (limitReached anonymousLimitMessage usageCount
                                   requiresAuth))
       | Some uid =>
           user <- getUser uid ;;
           if negb (premium user)
           then done (inl (limitReached accountLimitMessage usageCount
                                        requiresPayment))
           else done (inr context)
       end
     else done (inr context))
    (fun _ => done (inl checkFailed)).

Definition noImageMessage : string :=
  "No image provided. Please upload an image file or provide base64 data.".

Definition routeFailed : string := "Failed to analyze menu. Please try again.".

(** The image of a request, or the answer to a request without one. *)
Definition imageOf (req : Request) : Task Ext (Response + string) :=
  match file req with
  | Some encoded => done (inr encoded)
  | None =>
      match body req with
      | NoBody typeError => fail typeError
      | Fields (Text s) =>
          if truthy s then done (inr s)
          else done (inl {| status := 400; payload := Plain noImageMessage |})
      | Fields (NotText true) =>
          done (inl {| status := 400; payload := InvalidFormat |})
      | Fields (NotText false) | Fields Missing =>
          done (inl {| status := 400; payload := Plain noImageMessage |})
      end
  end.

(** [if (userId) { await storage.incrementUserUsage(userId) }] *)
Definition countUse (context : AnalysisContext) : Task Ext unit :=
  match orElse (ctx_userId context) None with
  | Some uid => incrementUserUsage uid
  | None => done tt
  end.

Definition cachedResponse (cachedAnalysis : MenuAnalysis) : Response :=
  json (Cached (ma_id cachedAnalysis)
               (ma_isKoreanMenu cachedAnalysis)
               (ma_detectedDishes cachedAnalysis)
               (ma_extractedFoodNames cachedAnalysis)
               (ma_tokenUsage cachedAnalysis)
               (ma_createdAt cachedAnalysis)).

(** The placeholder URL; [substring(0, 100)] counts bytes here, which is
    the source's count on base64 text. *)
Definition previewUrl (imageBase64 : string) : string :=
  "data:image/jpeg;base64," ++ String.substring 0 100 imageBase64 ++ "...".

Definition analysisRecord (context : AnalysisContext)
    (imageBase64 : string) (analysis : Analysis) : InsertMenuAnalysis :=
  {| new_userId := ctx_userId context;
     new_sessionId := if present (ctx_userId context) then None
                      else ctx_sessionId context;
     new_imageUrl := previewUrl imageBase64;
     new_imageHash := sha256 be imageBase64;
     new_extractedFoodNames := map d_nameKorean (dishes analysis);
     new_detectedDishes := dishes analysis;
     new_isKoreanMenu := r_isKoreanMenu analysis;
     new_tokenUsage := r_tokenUsage analysis |}.

Definition freshResponse (created : MenuAnalysis) (analysis : Analysis)
  : Response :=
  json (Fresh (ma_id created)
              (r_isKoreanMenu analysis)
              (map responseDish (dishes analysis))
              (if r_isKoreanMenu analysis
               then foundMessage (List.length (dishes analysis))
               else notKoreanMessage)
              (r_tokenUsage analysis)).

(** The answer of the outer [catch]. *)
Definition failure (message : string) : Response :=
  {| status := 500;
     payload := Failure routeFailed
                  (if development be then Some message else None) |}.

(** The body of the inner [try]: analyse, store, count, answer. *)
Definition analyzeFresh (context : AnalysisContext) (imageBase64 : string)
  : Task Ext Response :=
  analysis <- inWorld (analyzeKoreanMenu svc imageBase64) ;;
  menuAnalysis <-
    createMenuAnalysis (analysisRecord context imageBase64 analysis) ;;
  countUse context ;;;
  done (freshResponse menuAnalysis analysis).

(** The inner [catch]: a limit error is answered, any other is thrown
    again. *)
Definition onAnalysisError (message : string) : Task Ext Response :=
  if truthy message && includes message "FOOD_LIMIT_ERROR:"
  then done {| status := 400;
               payload := LimitError
                            (replaceFirst "FOOD_LIMIT_ERROR: " "" message) |}
  else fail message.

(** The handler of [POST /api/analyze-menu], after the middleware. *)
Definition analyzeMenuHandler (req : Request) (context : AnalysisContext)
  : Task Ext Response :=
  attempt
    (image <- imageOf req ;;
     match image with
     | inl response => done response
     | inr imageBase64 =>
         cachedAnalysis <-
           getCachedAnalysisByImageHash (sha256 be imageBase64) ;;
         match cachedAnalysis with
         | Some found =>
             countUse context ;;;
             done (cachedResponse found)
         | None =>
             attempt (analyzeFresh context imageBase64) onAnalysisError
         end
     end)
    (fun message => done (failure message)).

(** [app.post("/api/analyze-menu", upload.single("image"), checkUsageLimit,
     handler)] *)
Definition analyzeMenu (req : Request) : Task Ext Response :=
  checked <- checkUsageLimit req ;;
  match checked with
  | inl response => done response
  | inr context => analyzeMenuHandler req context
  end.

End Routes.

(** ** Views of the route's state *)

(** The count the middleware works with, read off the tables. *)
Definition usageOf {Ext} (h : Host Ext) (userId sessionId : option string)
  : Z :=
  match orElse userId None with
  | Some uid => orZero (option_map freeUsageCount (userRow uid (users h)))
  | None =>
      match orElse sessionId None with
      | Some sid =>
          Z.of_nat (List.length (filter (ofSession sid) (menuAnalyses h)))
      | None => 0
      end
  end.

(** The database accepts every statement of the route. *)
Definition databaseUp {Ext} (be : Backend Ext) : Prop :=
  forall q x, fst (db_error be q x) = None.

(** What the pipeline keeps: the dish table, its serial and the trace. *)
Definition pipeline {Ext} (h : Host Ext) :=
  (foods (world h), nextId (world h), log (world h)).

(** Everything of a state but the oracles' hidden state. *)
Definition tables {Ext} (h : Host Ext) :=
  (pipeline h, users h, menuAnalyses h, nextAnalysisId h).

(** The signed-in caller of a request, as the middleware determines it. *)
Definition callerOf (req : Request) : option string :=
  if isAuthenticated req && present (claimsSub req) then claimsSub req
  else None.

(** The session the middleware works for: none for a signed-in caller,
    else [req.sessionID || nanoid()]. *)
Definition sessionFor {Ext} (be : Backend Ext) (req : Request) (h : Host Ext)
  : option string :=
  match callerOf req, orElse (sessionID req) None with
  | Some _, _ => None
  | None, Some sid => Some sid
  | None, None => Some (fst (nanoid be (ext (world h))))
  end.

(** The text of the image a request carries, if it carries one. *)
Definition imageText (req : Request) : option string :=
  match file req with
  | Some encoded => Some encoded
  | None =>
      match body req with
      | Fields (Text s) => if truthy s then Some s else None
      | _ => None
      end
  end.

Definition isAnalysis (r : Response) : bool :=
  match payload r with
  | Cached _ _ _ _ _ _ | Fresh _ _ _ _ _ => true
  | _ => false
  end.

(** An answer that is no analysis: status 400, 402 or 500. *)
Definition refusal (response : Response) : Prop :=
  isAnalysis response = false
  /\ (status response = 400 \/ status response = 402 \/ status response = 500).

Definition isFresh (r : Response) : bool :=
  match payload r with Fresh _ _ _ _ _ => true | _ => false end.

(** ** A concrete deployment *)

Module Deployment.

Definition backend (rejects : Query -> bool) : Backend nat :=
  {| db_error := fun q x => (if rejects q then Some "connection lost"
                             else None, x);
     db_now := fun x => (1700000000000, x);
     db_pick := fun x => (O, x);
     nanoid := fun x => ("V1StGXR8_Z5jdHi6B-myT", x);
     sha256 := fun text => "sha256:" ++ text;
     development := false |}.

Definition up : Backend nat := backend (fun _ => false).

Definition start (table : list User) (analyses : list MenuAnalysis)
  : Host nat :=
  {| world := Scenario.start [Scenario.bibimbap];
     users := table;
     menuAnalyses := analyses;
     nextAnalysisId := 1 + Z.of_nat (List.length analyses) |}.

Definition upload (encoded : string) (session : string) : Request :=
  {| isAuthenticated := false;
     claimsSub := None;
     sessionID := Some session;
     file := Some encoded;
     body := Fields Missing |}.

Definition signedIn (encoded : string) (sub : string) : Request :=
  {| isAuthenticated := true;
     claimsSub := Some sub;
     sessionID := Some "session-of-a-user";
     file := None;
     body := Fields (Text encoded) |}.

(** An earlier analysis of a session. *)
Definition earlier (n : Z) (session : string) : MenuAnalysis :=
  {| ma_id := n;
     ma_userId := None;
     ma_sessionId := Some session;
     ma_imageUrl := "data:image/jpeg;base64,AAAA...";
     ma_imageHash := Some ("sha256:" ++ ofZ n);
     ma_extractedFoodNames := [];
     ma_detectedDishes := [];
     ma_isKoreanMenu := false;
     ma_tokenUsage := jsonUsage {| prompt_tokens := 0; completion_tokens := 0;
                                   total_tokens := 0; cost_usd := 0;
                                   cost_aud := 0 |};
     ma_createdAt := 1690000000000 + n |}.

End Deployment.

(** ** Requests made in a row *)

(** The hidden state after the requests for [queries], made in that order
    from state [x]. *)
Fixpoint afterRequests {Ext A} (get : string -> Ext -> A * Ext)
    (queries : list string) (x : Ext) : Ext :=
  match queries with
  | [] => x
  | q :: rest => afterRequests get rest (snd (get q x))
  end.

(** Each of these requests, made in that order from state [x], gets a
    reply that satisfies [P]. *)
Fixpoint eachReply {Ext A} (get : string -> Ext -> A * Ext)
    (P : A -> Prop) (queries : list string) (x : Ext) : Prop :=
  match queries with
  | [] => True
  | q :: rest => P (fst (get q x)) /\ eachReply get P rest (snd (get q x))
  end.

(** A Naver reply that offers no candidate: the request or its decoding
    failed, or no item of the response scores 0 or more. *)
Definition offersNothing (reply : option (list NaverItem)) : Prop :=
  match reply with
  | None => True
  | Some items => forall item, In item items -> naverScore item < 0
  end.

(** An Unsplash reply without photos. *)
Definition noPhotos (reply : option (list UnsplashImage)) : Prop :=
  reply = Some [].

(** The world after the requests for [queries] were made and logged. *)
Definition afterCalls {Ext A} (get : string -> Ext -> A * Ext)
    (event : string -> Event) (queries : list string) (w : World Ext)
  : World Ext :=
  mkWorld (afterRequests get queries (ext w)) (foods w) (nextId w)
          (log w ++ map event queries).

(** ** Further environments *)

Module Replies.

(** The generative model answers every name with its record of 호떡, under
    that name; no image provider answers. *)
Definition canonical : Services nat :=
  Scenario.services (ApiError "unused")
                    (fun _ => ApiOk (Json Scenario.hotteok) None)
                    Scenario.noNaver (fun _ => false) Scenario.noStock ""
                    None.

(** Naver answers the first request with a photo of people only, and
    every later one with an unremarkable photo followed by a blog photo;
    every probe succeeds. *)
Definition laterNaver (requests : nat) (_ : string)
  : option (list NaverItem) :=
  match requests with
  | O => Some [Scenario.peopleItem]
  | _ => Some [Scenario.plainItem; Scenario.blogItem]
  end.

Definition secondResponse : Services nat :=
  Scenario.services (ApiError "unused") Scenario.details laterNaver
                    (fun _ => true) Scenario.noStock "" None.

Definition streetPhoto : UnsplashImage :=
  {| i_regular := "https://images.unsplash.com/photo-2";
     i_alt_description := Some "a street in Seoul";
     i_description := None |}.

(** No Korean source answers; Unsplash is configured and has photos for
    the second query derived from a rice dish, none for any other
    query. *)
Definition derivedStock : Services nat :=
  Scenario.services (ApiError "unused") Scenario.details Scenario.noNaver
                    (fun _ => true)
                    (fun q => if String.eqb q "korean rice restaurant"
                              then Some [streetPhoto; Scenario.stockPhoto]
                              else Some [])
                    "unsplash-key" None.

End Replies.

(** * Properties *)

(** ** Strings *)

Section StringFacts.

Lemma startsWith_app (p rest : string) : startsWith (p ++ rest) p = true.
Proof.
  induction p as [|c p IH]; simpl; [reflexivity|].
  now rewrite Ascii.eqb_refl, IH.
Qed.

Lemma includes_startsWith (s needle : string) :
  startsWith s needle = true -> includes s needle = true.
Proof. destruct s; simpl; intros ->; reflexivity. Qed.

Lemma includes_skip (before s needle : string) :
  includes s needle = true -> includes (before ++ s) needle = true.
Proof.
  intros H. induction before as [|c before IH]; simpl; [exact H|].
  rewrite IH. apply orb_true_r.
Qed.

Lemma includes_middle (before needle rest : string) :
  includes (before ++ needle ++ rest) needle = true.
Proof.
  apply includes_skip, includes_startsWith, startsWith_app.
Qed.

Lemma truthy_rendered (target : option string) (acc : Accuracy) :
  truthy (rendered target acc) = true.
Proof.
  unfold rendered. destruct (interp target); reflexivity.
Qed.

(** A string without the separator is a single piece. *)
Lemma split_none (s : string) :
  includes s "|" = false -> split "|"%char s = [s].
Proof.
  induction s as [|c s IH]; simpl; [reflexivity|].
  intros H. apply orb_false_elim in H as [H1 H2].
  destruct (Ascii.eqb c "|"%char) eqn:E.
  - apply Ascii.eqb_eq in E. subst c. simpl in H1. destruct s; discriminate.
  - now rewrite (IH H2).
Qed.

(** The first separator ends the first piece. *)
Lemma split_first (u rest : string) :
  includes u "|" = false ->
  split "|"%char (u ++ "|" ++ rest) = u :: split "|"%char rest.
Proof.
  induction u as [|c u IH]; simpl; [reflexivity|].
  intros H. apply orb_false_elim in H as [H1 H2].
  destruct (Ascii.eqb c "|"%char) eqn:E.
  - apply Ascii.eqb_eq in E. subst c. simpl in H1. destruct u; discriminate.
  - simpl in IH. now rewrite (IH H2).
Qed.

End StringFacts.

(** ** Reasoning about computations *)

(** Run a computation on a concrete world and offer its value and final
    world as the witnesses of an existential. *)
Ltac run_exists c :=
  let r := eval vm_compute in c in
  match r with
  | (Ok ?a, ?w) => exists a, w
  end.

Section MonadFacts.

Context {Ext : Type}.

Lemma bind_ok {A B} (m : M Ext A) (k : A -> M Ext B) w b w' :
  bind m k w = (Ok b, w') ->
  exists a w1, m w = (Ok a, w1) /\ k a w1 = (Ok b, w').
Proof.
  unfold bind. destruct (m w) as [[a|msg] w1]; intros H.
  - now exists a, w1.
  - discriminate.
Qed.

Lemma bind_run {A B} (m : M Ext A) (k : A -> M Ext B) w a w1 :
  m w = (Ok a, w1) -> bind m k w = k a w1.
Proof. unfold bind. now intros ->. Qed.

Lemma tryCatch_ok {A} (body : M Ext A) handler w a w1 :
  body w = (Ok a, w1) -> tryCatch body handler w = (Ok a, w1).
Proof. unfold tryCatch. now intros ->. Qed.

Lemma frame_ret P {A} (a : A) : frame P (ret (Ext:=Ext) a).
Proof.
  intros w r w' H. inversion H; subst. repeat split.
  exists []. now rewrite app_nil_r.
Qed.

Lemma frame_throw P {A} msg : frame P (throw (Ext:=Ext) (A:=A) msg).
Proof.
  intros w r w' H. inversion H; subst. repeat split.
  exists []. now rewrite app_nil_r.
Qed.

Lemma frame_bind P {A B} (m : M Ext A) (k : A -> M Ext B) :
  frame P m -> (forall a, frame P (k a)) -> frame P (bind m k).
Proof.
  intros Hm Hk w r w'. unfold bind.
  destruct (m w) as [[a|msg] w1] eqn:E; intros H.
  - destruct (Hm _ _ _ E) as (F1 & N1 & evs1 & L1 & P1).
    destruct (Hk a _ _ _ H) as (F2 & N2 & evs2 & L2 & P2).
    repeat split; try congruence.
    exists (evs1 ++ evs2)%list. split.
    + now rewrite L2, L1, app_assoc.
    + now apply Forall_app.
  - inversion H; subst. exact (Hm _ _ _ E).
Qed.

Lemma frame_tryCatch P {A} (body : M Ext A) handler :
  frame P body -> (forall msg, frame P (handler msg)) ->
  frame P (tryCatch body handler).
Proof.
  intros Hm Hk w r w'. unfold tryCatch.
  destruct (body w) as [[a|msg] w1] eqn:E; intros H.
  - inversion H; subst. exact (Hm _ _ _ E).
  - destruct (Hm _ _ _ E) as (F1 & N1 & evs1 & L1 & P1).
    destruct (Hk msg _ _ _ H) as (F2 & N2 & evs2 & L2 & P2).
    repeat split; try congruence.
    exists (evs1 ++ evs2)%list. split.
    + now rewrite L2, L1, app_assoc.
    + now apply Forall_app.
Qed.

Lemma frame_weaken (P Q : Event -> Prop) {A} (m : M Ext A) :
  (forall e, P e -> Q e) -> frame P m -> frame Q m.
Proof.
  intros PQ Hm w r w' H.
  destruct (Hm _ _ _ H) as (F & N & evs & L & Pe).
  repeat split; trivial. exists evs. split; trivial.
  eapply Forall_impl; eauto.
Qed.

End MonadFacts.

Section Frames.

Context {Ext : Type} (svc : Services Ext).

Lemma frame_call (P : Event -> Prop) {A} e (oracle : Ext -> A * Ext) :
  P e -> frame P (call e oracle).
Proof.
  intros Pe w r w'. unfold call.
  destruct (oracle (ext w)) as [a x]. intros H. inversion H; subst; simpl.
  repeat split. exists [e]. split; [reflexivity | now constructor].
Qed.

Lemma frame_lift P {A} (r : Res A) : frame P (lift (Ext:=Ext) r).
Proof.
  intros w r' w' H. inversion H; subst. repeat split.
  exists []. now rewrite app_nil_r.
Qed.

Lemma frame_searchNaverLoop queries :
  frame isNaverCall (searchNaverLoop svc queries).
Proof.
  induction queries as [|q rest IH]; simpl.
  - apply frame_ret.
  - apply frame_bind; [now apply frame_call|].
    intros [items|]; [|exact IH].
    destruct (naverPick q items); [apply frame_ret | exact IH].
Qed.

Lemma frame_searchNaver kn en cq :
  frame isNaverCall (searchNaver svc kn en cq).
Proof. apply frame_searchNaverLoop. Qed.

Lemma frame_validateImageUrl target :
  frame isNaverOrProbe (validateImageUrl svc target).
Proof.
  destruct target; simpl; [now apply frame_call | apply frame_ret].
Qed.

End Frames.

Section ImageFrames.

Context {Ext : Type} (svc : Services Ext).

Lemma naver_within queries e : isNaverCall e -> imageCallWithin queries e.
Proof. destruct e; simpl; tauto. Qed.

Lemma probe_within queries e : isNaverOrProbe e -> imageCallWithin queries e.
Proof. destruct e; simpl; tauto. Qed.

Lemma frame_searchPexels queries kn en :
  frame (imageCallWithin queries) (searchPexels svc kn en).
Proof.
  unfold searchPexels. destruct (keyMissing _); [apply frame_ret|].
  induction (pexelsQueries en) as [|q rest IH]; simpl.
  - apply frame_ret.
  - apply frame_bind; [now apply frame_call|].
    intros [photos|]; [|exact IH].
    destruct (pexelsPick en q photos); [apply frame_ret | exact IH].
Qed.

Lemma frame_searchPixabay queries kn en :
  frame (imageCallWithin queries) (searchPixabay svc kn en).
Proof.
  unfold searchPixabay. destruct (keyMissing _); [apply frame_ret|].
  induction (pixabayQueries en) as [|q rest IH]; simpl.
  - apply frame_ret.
  - apply frame_bind; [now apply frame_call|].
    intros [hits|]; [|exact IH].
    destruct (pixabayPick en q hits); [apply frame_ret | exact IH].
Qed.

Lemma frame_validate queries target :
  frame (imageCallWithin queries) (validateImageUrl svc target).
Proof.
  eapply frame_weaken; [apply probe_within | apply frame_validateImageUrl].
Qed.

Lemma frame_naver queries kn en cq :
  frame (imageCallWithin queries) (searchNaver svc kn en cq).
Proof.
  eapply frame_weaken; [apply naver_within | apply frame_searchNaver].
Qed.

Lemma frame_tryCandidate queries result src attempted next :
  (forall l, frame (imageCallWithin queries) (next l)) ->
  frame (imageCallWithin queries) (tryCandidate svc result src attempted next).
Proof.
  intros Hn. unfold tryCandidate. destruct result as [r|]; [|apply Hn].
  apply frame_bind; [apply frame_validate|].
  intros [|]; [apply frame_ret | apply Hn].
Qed.

Lemma frame_alternativesLoop queries kn en qs alts :
  frame (imageCallWithin queries) (alternativesLoop svc kn en qs alts).
Proof.
  revert alts. induction qs as [|q rest IH]; intros alts; simpl.
  - apply frame_ret.
  - apply frame_bind; [apply frame_naver|].
    intros [r|]; apply IH.
Qed.

Lemma frame_firstValid queries alts :
  frame (imageCallWithin queries) (firstValid svc alts).
Proof.
  induction alts as [|[u acc] rest IH]; simpl.
  - apply frame_ret.
  - apply frame_bind; [apply frame_validate|].
    intros [|]; [apply frame_ret | exact IH].
Qed.

Lemma frame_retryAttempts queries kn en attempted :
  frame (imageCallWithin queries) (retryAttempts svc kn en attempted).
Proof.
  induction attempted as [|a rest IH]; simpl.
  - apply frame_ret.
  - destruct (a_source a); try exact IH.
    apply frame_bind; [apply frame_alternativesLoop|].
    intros alts. apply frame_bind; [apply frame_firstValid|].
    intros [s|]; [apply frame_ret | exact IH].
Qed.

Lemma frame_searchKoreanFoodImage queries kn en :
  frame (imageCallWithin queries) (searchKoreanFoodImage svc kn en).
Proof.
  unfold searchKoreanFoodImage.
  apply frame_tryCatch; [|intros; apply frame_ret].
  apply frame_bind; [apply frame_naver|]. intros r1.
  apply frame_tryCandidate. intros l1.
  apply frame_bind; [apply frame_searchPexels|]. intros r2.
  apply frame_tryCandidate. intros l2.
  apply frame_bind; [apply frame_searchPixabay|]. intros r3.
  apply frame_tryCandidate. intros l3.
  apply frame_retryAttempts.
Qed.

Lemma frame_searchUnsplashLoop queries qs :
  incl qs queries ->
  frame (imageCallWithin queries) (searchUnsplashLoop svc qs).
Proof.
  induction qs as [|q rest IH]; intros Hin; simpl.
  - apply frame_ret.
  - apply frame_bind.
    + apply frame_call. simpl. apply Hin. now left.
    + intros [images|]; [|apply frame_throw].
      destruct (best (unsplashScore q) images) as [[b s]|].
      * apply frame_ret.
      * apply IH. intros x Hx. apply Hin. now right.
Qed.

Lemma frame_searchKoreanFood kn english :
  frame (imageCallWithin (fallbackQueries english))
        (searchKoreanFood svc kn english).
Proof.
  unfold searchKoreanFood.
  apply frame_bind; [apply frame_searchKoreanFoodImage|]. intros r.
  destruct (present r); [apply frame_ret|].
  destruct (negb _); [apply frame_ret|].
  apply frame_tryCatch; [|intros; apply frame_ret].
  unfold fallbackQueries. destruct (orElse english None).
  - apply frame_searchUnsplashLoop, incl_refl.
  - apply frame_ret.
Qed.

Lemma frame_findKoreanFood name :
  frame (fun e => e = EvFind name) (findKoreanFood svc name).
Proof.
  unfold findKoreanFood. apply frame_bind; [now apply frame_call|].
  intros [msg|]; [apply frame_throw|].
  intros w r w' H. inversion H; subst. repeat split.
  exists []. now rewrite app_nil_r.
Qed.

Lemma frame_extract img :
  frame (fun e => e = EvOcr img) (extractKoreanFoodNames svc img).
Proof.
  unfold extractKoreanFoodNames.
  apply frame_tryCatch; [|intros; apply frame_throw].
  apply frame_bind; [now apply frame_call | intros; apply frame_lift].
Qed.

Lemma frame_details name :
  frame (fun e => e = EvDetails name) (getFoodDetailsFromAI svc name).
Proof.
  unfold getFoodDetailsFromAI.
  apply frame_tryCatch; [|intros; apply frame_throw].
  apply frame_bind; [now apply frame_call | intros; apply frame_lift].
Qed.

End ImageFrames.

(** ** OCR extraction *)

Section Extraction.

Context {Ext : Type} (svc : Services Ext).

(** A successful extraction decodes the reply of exactly one completion. *)
Lemma extract_ok img w ocr w' :
  extractKoreanFoodNames svc img w = (Ok ocr, w') ->
  decodeOcr (fst (openai_ocr svc img (ext w))) = Ok ocr /\
  foods w' = foods w /\ nextId w' = nextId w /\
  log w' = (log w ++ [EvOcr img])%list.
Proof.
  unfold extractKoreanFoodNames, tryCatch, bind, call, lift, throw.
  destruct (openai_ocr svc img (ext w)) as [reply x]; simpl.
  destruct (decodeOcr reply) as [r|msg]; intros H; inversion H; subst.
  simpl. auto.
Qed.

Lemma decodeOcr_ok reply ocr :
  decodeOcr reply = Ok ocr ->
  exists result usage,
    reply = ApiOk (Json result) (Some usage) /\
    isKoreanMenu ocr = j_isKoreanMenu result /\
    extractedNames ocr = orDefault (j_extractedNames result) [] /\
    totalDetected ocr = j_totalDetected result /\
    prompt_tokens (tokenUsage ocr) = u_prompt_tokens usage /\
    completion_tokens (tokenUsage ocr) = u_completion_tokens usage /\
    cost_usd (tokenUsage ocr) = totalCostUSD usage /\
    cost_aud (tokenUsage ocr) = totalCostAUD usage.
Proof.
  destruct reply as [msg|[| |result] [usage|]]; simpl; try discriminate.
  intros H. inversion H; subst; simpl. exists result, usage.
  repeat split.
Qed.

End Extraction.

(** C8.  For every successful OCR extraction the provider's reply carried
    a usage object, the reported token counts are the counts of that
    object, the reported [cost_usd] is
    [prompt_tokens * (0.0025 / 1000) + completion_tokens * (0.01 / 1000)]
    and the reported [cost_aud] is [cost_usd * 1.5], in the double
    arithmetic of the source; the two rates and the multiplier are closed
    constants. *)
Theorem C8_cost_model {Ext} (svc : Services Ext) img w ocr w' :
  extractKoreanFoodNames svc img w = (Ok ocr, w') ->
  exists content usage,
    fst (openai_ocr svc img (ext w)) = ApiOk content (Some usage)
    /\ prompt_tokens (tokenUsage ocr) = u_prompt_tokens usage
    /\ completion_tokens (tokenUsage ocr) = u_completion_tokens usage
    /\ total_tokens (tokenUsage ocr) = u_total_tokens usage
    /\ cost_usd (tokenUsage ocr)
       = (u_prompt_tokens usage * (0.0025 / 1000)
          + u_completion_tokens usage * (0.01 / 1000))%float
    /\ cost_aud (tokenUsage ocr)
       = ((u_prompt_tokens usage * (0.0025 / 1000)
           + u_completion_tokens usage * (0.01 / 1000)) * 1.5)%float
    /\ cost_usd (tokenUsage ocr)
       = (prompt_tokens (tokenUsage ocr) * (0.0025 / 1000)
          + completion_tokens (tokenUsage ocr) * (0.01 / 1000))%float
    /\ cost_aud (tokenUsage ocr) = (cost_usd (tokenUsage ocr) * 1.5)%float.
Proof.
  intros H. apply extract_ok in H as (D & _).
  destruct (fst (openai_ocr svc img (ext w))) as [msg|content [usage|]];
    [discriminate| |destruct content; discriminate].
  exists content, usage. split; [reflexivity|].
  destruct content as [| |result]; try discriminate.
  simpl in D. injection D as <-. simpl. repeat split.
Qed.

Lemma C8_cost_model_witness :
  let svc := Scenario.plain (Scenario.ocrReply ["비빔밥"] (Some 1)) in
  let w := Scenario.start [] in
  exists ocr w',
    extractKoreanFoodNames svc "img" w = (Ok ocr, w')
    /\ (prompt_tokens (tokenUsage ocr), completion_tokens (tokenUsage ocr),
        cost_usd (tokenUsage ocr), cost_aud (tokenUsage ocr))
       = (1000, 50, 0.003, 0.0045000000000000005)%float
    /\ exists content usage,
         fst (openai_ocr svc "img" (ext w)) = ApiOk content (Some usage)
         /\ prompt_tokens (tokenUsage ocr) = u_prompt_tokens usage
         /\ completion_tokens (tokenUsage ocr) = u_completion_tokens usage
         /\ total_tokens (tokenUsage ocr) = u_total_tokens usage
         /\ cost_usd (tokenUsage ocr)
            = (u_prompt_tokens usage * (0.0025 / 1000)
               + u_completion_tokens usage * (0.01 / 1000))%float
         /\ cost_aud (tokenUsage ocr)
            = ((u_prompt_tokens usage * (0.0025 / 1000)
                + u_completion_tokens usage * (0.01 / 1000)) * 1.5)%float
         /\ cost_usd (tokenUsage ocr)
            = (prompt_tokens (tokenUsage ocr) * (0.0025 / 1000)
               + completion_tokens (tokenUsage ocr) * (0.01 / 1000))%float
         /\ cost_aud (tokenUsage ocr)
            = (cost_usd (tokenUsage ocr) * 1.5)%float.
Proof.
  intros svc w. run_exists (extractKoreanFoodNames svc "img" w).
  match goal with
  | |- ?A /\ _ => assert (H : A) by (vm_compute; reflexivity)
  end.
  refine (conj H (conj _ (C8_cost_model svc "img" w _ _ H))).
  vm_compute. reflexivity.
Defined.

(** On 1000 prompt tokens and 50 completion tokens. *)
Example cost_of_scenario :
  totalCostUSD Scenario.usage = 0.003%float
  /\ totalCostAUD Scenario.usage = 0.0045000000000000005%float.
Proof. split; vm_compute; reflexivity. Qed.

(** C5 (as amended).  The extraction step hands over the [extractedNames]
    array of the model response as it is, the empty list when the response
    has none: no length bound is enforced. *)
Theorem C5_names_passed_through {Ext} (svc : Services Ext) img w ocr w' :
  extractKoreanFoodNames svc img w = (Ok ocr, w') ->
  exists result usage,
    fst (openai_ocr svc img (ext w)) = ApiOk (Json result) (Some usage)
    /\ extractedNames ocr = orDefault (j_extractedNames result) [].
Proof.
  intros H. apply extract_ok in H as (D & _).
  apply decodeOcr_ok in D as (result & usage & R & _ & N & _).
  now exists result, usage.
Qed.

Lemma C5_names_passed_through_witness :
  let names := ["비빔밥"; "김치찌개"; "불고기"; "냉면"] in
  let svc := Scenario.plain (Scenario.ocrReply names None) in
  exists ocr w',
    extractKoreanFoodNames svc "img" (Scenario.start []) = (Ok ocr, w')
    /\ exists result usage,
         fst (openai_ocr svc "img" O) = ApiOk (Json result) (Some usage)
         /\ extractedNames ocr = orDefault (j_extractedNames result) [].
Proof.
  intros names svc. eexists _, _.
  refine ((fun H => conj H (C5_names_passed_through svc _ _ _ _ H)) _).
  reflexivity.
Defined.

(** C5 (as stated) fails: a response listing four names is returned with
    all four. *)
Lemma C5_counterexample :
  let names := ["비빔밥"; "김치찌개"; "불고기"; "냉면"] in
  let svc := Scenario.plain (Scenario.ocrReply names None) in
  exists ocr w',
    extractKoreanFoodNames svc "img" (Scenario.start []) = (Ok ocr, w')
    /\ extractedNames ocr = names
    /\ ~ (List.length (extractedNames ocr) <= 3)%nat.
Proof.
  intros names svc. eexists _, _. split; [reflexivity|].
  split; [reflexivity|]. simpl. lia.
Qed.

(** ** The item limit *)

Section Limit.

Context {Ext : Type} (svc : Services Ext).

Lemma overLimit_above n : 3 < n -> overLimit (Some n) = Some n.
Proof.
  intros H. unfold overLimit.
  destruct (Z.eqb_spec n 0); [lia|]. destruct (Z.ltb_spec 3 n); [reflexivity|lia].
Qed.

Lemma overLimit_within detected :
  (forall n, detected = Some n -> n <= 3) -> overLimit detected = None.
Proof.
  intros H. destruct detected as [n|]; simpl; [|reflexivity].
  specialize (H n eq_refl). destruct (Z.ltb_spec 3 n); [lia|].
  now rewrite andb_false_r.
Qed.

Lemma foodLimitMessage_tagged n :
  includes (foodLimitMessage n) foodLimitTag = true.
Proof.
  apply includes_startsWith. unfold foodLimitMessage, foodLimitTag.
  change ("FOOD_LIMIT_ERROR: Too many menu items detected (" ++ ofZ n ++
          " items found). Please upload a photo with 3 or fewer menu items for analysis.")
    with ("FOOD_LIMIT_ERROR:" ++ " Too many menu items detected (" ++ ofZ n ++
          " items found). Please upload a photo with 3 or fewer menu items for analysis.").
  apply startsWith_app.
Qed.

Lemma foodLimitMessage_count n : includes (foodLimitMessage n) (ofZ n) = true.
Proof. unfold foodLimitMessage. apply includes_middle. Qed.

Lemma foodLimitMessage_distinct n : foodLimitMessage n <> analysisFailed.
Proof. unfold foodLimitMessage, analysisFailed. simpl. discriminate. Qed.

End Limit.

(** C2.  When the OCR result reports [totalDetected] greater than 3, the
    analysis throws a FOOD_LIMIT_ERROR message, which starts with the
    tagged text in front of the count; the message passes the
    orchestrator's own handler unchanged (it is not the generic failure),
    the single external call made is the OCR one, and the table is
    untouched.  For a count that prints as its digits, the message is the
    source's text around those digits. *)
Theorem C2_too_many_items {Ext} (svc : Services Ext) img w ocr w1 n :
  extractKoreanFoodNames svc img w = (Ok ocr, w1) ->
  totalDetected ocr = Some n ->
  3 < n ->
  exists msg,
    analyzeKoreanMenu svc img w = (Throw msg, w1)
    /\ startsWith msg "FOOD_LIMIT_ERROR: Too many menu items detected ("
       = true
    /\ includes msg foodLimitTag = true
    /\ msg <> analysisFailed
    /\ (n <= maxExactInteger ->
        msg = "FOOD_LIMIT_ERROR: Too many menu items detected (" ++ ofZ n
              ++ " items found). Please upload a photo with 3 or fewer menu items for analysis."
        /\ includes msg (ofZ n) = true)
    /\ log w1 = (log w ++ [EvOcr img])%list
    /\ foods w1 = foods w.
Proof.
  intros E T N. exists (foodLimitMessage n). split.
  - unfold analyzeKoreanMenu, tryCatch, bind. rewrite E, T.
    rewrite (overLimit_above n N). unfold throw.
    now rewrite foodLimitMessage_tagged.
  - apply extract_ok in E as (_ & F & _ & L).
    split; [reflexivity|].
    split; [apply foodLimitMessage_tagged|].
    split; [apply foodLimitMessage_distinct|].
    split; [|now split].
    intros _. split; [reflexivity | apply foodLimitMessage_count].
Qed.

Lemma C2_too_many_items_witness :
  let names := ["비빔밥"; "김치찌개"; "불고기"] in
  let svc := Scenario.plain (Scenario.ocrReply names (Some 5)) in
  let w := Scenario.start [Scenario.bibimbap] in
  exists ocr w1,
    extractKoreanFoodNames svc "img" w = (Ok ocr, w1)
    /\ totalDetected ocr = Some 5
    /\ analyzeKoreanMenu svc "img" w
       = (Throw "FOOD_LIMIT_ERROR: Too many menu items detected (5 items found). Please upload a photo with 3 or fewer menu items for analysis.",
          mkWorld O [Scenario.bibimbap] 2 [EvOcr "img"])
    /\ exists msg,
         analyzeKoreanMenu svc "img" w = (Throw msg, w1)
         /\ startsWith msg "FOOD_LIMIT_ERROR: Too many menu items detected ("
            = true
         /\ includes msg foodLimitTag = true
         /\ msg <> analysisFailed
         /\ (5 <= maxExactInteger ->
             msg = "FOOD_LIMIT_ERROR: Too many menu items detected ("
                   ++ ofZ 5
                   ++ " items found). Please upload a photo with 3 or fewer menu items for analysis."
             /\ includes msg (ofZ 5) = true)
         /\ log w1 = (log w ++ [EvOcr "img"])%list
         /\ foods w1 = foods w.
Proof.
  intros names svc w. run_exists (extractKoreanFoodNames svc "img" w).
  match goal with
  | |- ?A /\ _ => assert (H : A) by (vm_compute; reflexivity)
  end.
  assert (Hn : 3 < 5) by lia.
  refine (conj H (conj eq_refl (conj _
            (C2_too_many_items svc "img" w _ _ 5 H eq_refl Hn)))).
  vm_compute. reflexivity.
Defined.

(** ** Dish resolution *)

Section Resolution.

Context {Ext : Type} (svc : Services Ext).

Lemma findKoreanFood_ok name w found w1 :
  findKoreanFood svc name w = (Ok found, w1) ->
  found = selectByName name (foods w)
  /\ foods w1 = foods w /\ nextId w1 = nextId w
  /\ log w1 = (log w ++ [EvFind name])%list.
Proof.
  unfold findKoreanFood, bind, call, throw.
  destruct (db_select_error svc name (ext w)) as [[msg|] x]; simpl;
    intros H; inversion H; subst; simpl; auto.
Qed.

Lemma createKoreanFood_ok food w saved w' :
  createKoreanFood svc food w = (Ok saved, w') ->
  saved = rowOf (nextId w) food
  /\ foods w' = (foods w ++ [saved])%list
  /\ log w' = (log w ++ [EvCreate food])%list.
Proof.
  unfold createKoreanFood, bind, call, throw.
  destruct (db_insert_error svc food (ext w)) as [[msg|] x]; simpl;
    intros H; inversion H; subst; simpl; auto.
Qed.

(** A name missing from the table is found after a row with that name is
    appended. *)
Lemma selectByName_appended name table food newId :
  selectByName name table = None ->
  ins_nameKorean food = name ->
  selectByName name (table ++ [rowOf newId food]) = Some (rowOf newId food).
Proof.
  unfold selectByName. intros Hnone Hname.
  induction table as [|row rest IH]; simpl in *.
  - rewrite Hname, String.eqb_refl. reflexivity.
  - destruct (String.eqb (nameKorean row) name); [discriminate|]. now apply IH.
Qed.

Lemma resolveFromStore_ok name row w d w' :
  resolveFromStore svc name row w = (Ok d, w') ->
  exists imageResult,
    searchKoreanFood svc name (Some (nameEnglish row)) w = (Ok imageResult, w')
    /\ (d_imageUrl d, d_imageAccuracy d) = parseImageResult imageResult
    /\ descriptiveFields d = storedFields row
    /\ confidence d = 1.0%float /\ source d = database.
Proof.
  unfold resolveFromStore. intros H.
  apply bind_ok in H as (imageResult & w1 & S1 & H).
  destruct (parseImageResult imageResult) as [u a] eqn:P.
  inversion H; subst. exists imageResult. rewrite P. auto.
Qed.

Lemma resolveFromAI_ok name w d w' :
  resolveFromAI svc name w = (Ok d, w') ->
  exists aiData w1 imageResult w2 saved,
    getFoodDetailsFromAI svc name w = (Ok aiData, w1)
    /\ searchKoreanFood svc name (Some (ins_nameEnglish aiData)) w1
       = (Ok imageResult, w2)
    /\ createKoreanFood svc
         (withImageUrl aiData (fst (parseImageResult imageResult))) w2
       = (Ok saved, w')
    /\ (d_imageUrl d, d_imageAccuracy d) = parseImageResult imageResult
    /\ d_nameKorean d = nameKorean saved
    /\ d_nameEnglish d = nameEnglish saved
    /\ d_description d = description saved
    /\ d_calories d = calories saved
    /\ confidence d = 0.8%float /\ source d = ai.
Proof.
  unfold resolveFromAI. intros H.
  apply bind_ok in H as (aiData & w1 & A & H).
  apply bind_ok in H as (imageResult & w2 & S2 & H).
  destruct (parseImageResult imageResult) as [u a] eqn:P.
  apply bind_ok in H as (saved & w3 & C & H).
  unfold ret in H. injection H as Hd Hw. subst w3 d.
  exists aiData, w1, imageResult, w2, saved. simpl.
  rewrite P. simpl. repeat (split; trivial).
Qed.

Lemma resolveDish_cases name w d w' :
  resolveDish svc name w = (Ok d, w') ->
  exists w1,
    findKoreanFood svc name w = (Ok (selectByName name (foods w)), w1)
    /\ match selectByName name (foods w) with
       | Some row => resolveFromStore svc name row w1 = (Ok d, w')
       | None => resolveFromAI svc name w1 = (Ok d, w')
       end.
Proof.
  unfold resolveDish. intros H.
  apply bind_ok in H as (found & w1 & F & H).
  pose proof (findKoreanFood_ok _ _ _ _ F) as (-> & _).
  exists w1. split; [exact F|].
  destruct (selectByName name (foods w)); exact H.
Qed.

End Resolution.

Section Generation.

Context {Ext : Type} (svc : Services Ext).

Lemma findKoreanFood_ext name w found w1 :
  findKoreanFood svc name w = (Ok found, w1) ->
  ext w1 = snd (db_select_error svc name (ext w)).
Proof.
  unfold findKoreanFood, bind, call, throw.
  destruct (db_select_error svc name (ext w)) as [[msg|] x]; simpl;
    intros H; inversion H; subst; reflexivity.
Qed.

(** A record the generative step returns is the decoding of the reply to
    its one request. *)
Lemma details_decoded name w aiData w1 :
  getFoodDetailsFromAI svc name w = (Ok aiData, w1) ->
  decodeFood (fst (openai_details svc name (ext w))) = Ok aiData
  /\ foods w1 = foods w /\ nextId w1 = nextId w
  /\ log w1 = (log w ++ [EvDetails name])%list.
Proof.
  unfold getFoodDetailsFromAI, tryCatch, bind, call, lift, throw.
  destruct (openai_details svc name (ext w)) as [reply x]. simpl.
  destruct (decodeFood reply) as [food|msg]; intros H; inversion H; subst.
  simpl. auto.
Qed.

Lemma selectByName_other name table row :
  selectByName name table = None ->
  nameKorean row <> name ->
  selectByName name (table ++ [row]) = None.
Proof.
  unfold selectByName. intros Hnone Hname.
  induction table as [|r rest IH]; simpl in *.
  - destruct (String.eqb_spec (nameKorean row) name); [contradiction|reflexivity].
  - destruct (String.eqb (nameKorean r) name); [discriminate|]. now apply IH.
Qed.

(** The generative branch, step by step. *)
Lemma resolveFromAI_steps name w d w' :
  resolveFromAI svc name w = (Ok d, w') ->
  exists aiData evs,
    decodeFood (fst (openai_details svc name (ext w))) = Ok aiData
    /\ foods w'
       = (foods w
          ++ [rowOf (nextId w) (withImageUrl aiData (d_imageUrl d))])%list
    /\ log w'
       = (log w ++ evs ++ [EvCreate (withImageUrl aiData (d_imageUrl d))])%list
    /\ coreFields d
       = rowFields (rowOf (nextId w) (withImageUrl aiData (d_imageUrl d)))
    /\ confidence d = 0.8%float /\ source d = ai.
Proof.
  unfold resolveFromAI. intros H.
  apply bind_ok in H as (aiData & w1 & A & H).
  apply bind_ok in H as (imageResult & w2 & S2 & H).
  destruct (parseImageResult imageResult) as [u a] eqn:P.
  apply bind_ok in H as (saved & w3 & C & H).
  unfold ret in H. injection H as Hd Hw. subst w3.
  apply details_decoded in A as (D & F1 & N1 & L1).
  apply frame_searchKoreanFood in S2 as (F2 & N2 & evs2 & L2 & _).
  apply createKoreanFood_ok in C as (Sv & F3 & L3).
  assert (Hid : nextId w2 = nextId w) by congruence.
  rewrite Hid in Sv. subst saved d. simpl.
  exists aiData, ([EvDetails name] ++ evs2)%list.
  split; [exact D|]. split; [rewrite F3; congruence|].
  split; [rewrite L3, L2, L1; now rewrite <- !app_assoc|].
  repeat split.
Qed.

End Generation.

(** C1 (as amended).  A returned dish has confidence 1.0 and source
    [database] when the name is in the table.  When it is not, the dish has
    confidence 0.8 and source [ai], and by the time it is returned exactly
    one row has been appended to the table, the insert being the last
    external call of the resolution: the row holds the generative model's
    answer for that name with the defaults applied and the image found for
    it, and it is the row the dish shows.  The row is filed under the
    Korean name the model returned: the resolved name has a record from
    then on exactly when the model returned that name. *)
Theorem C1_confidence_and_source {Ext} (svc : Services Ext) name w d w' :
  resolveDish svc name w = (Ok d, w') ->
  match selectByName name (foods w) with
  | Some _ => confidence d = 1.0%float /\ source d = database
  | None =>
      confidence d = 0.8%float /\ source d = ai
      /\ exists foodData usage food evs,
           fst (openai_details svc name
                  (snd (db_select_error svc name (ext w))))
           = ApiOk (Json foodData) usage
           /\ let row := rowOf (nextId w) food in
              foods w' = (foods w ++ [row])%list
              /\ log w' = (log w ++ evs ++ [EvCreate food])%list
              /\ rowFields row = answerFields foodData
              /\ imageUrl row = d_imageUrl d
              /\ coreFields d = rowFields row
              /\ (f_nameKorean foodData = name ->
                  selectByName name (foods w') = Some row)
              /\ (f_nameKorean foodData <> name ->
                  selectByName name (foods w') = None)
  end.
Proof.
  intros H. apply resolveDish_cases in H as (w1 & F & H).
  pose proof (findKoreanFood_ext svc _ _ _ _ F) as X.
  apply findKoreanFood_ok in F as (_ & F1 & N1 & L1).
  destruct (selectByName name (foods w)) as [row|] eqn:Sel.
  - apply resolveFromStore_ok in H as (r & _ & _ & _ & C & S). now split.
  - apply resolveFromAI_steps in H as (aiData & evs & D & Fd & L & Core & Cf & Sr).
    split; [exact Cf|]. split; [exact Sr|].
    rewrite X in D.
    destruct (fst (openai_details svc name
                     (snd (db_select_error svc name (ext w)))))
      as [msg|[| |foodData] usage]; simpl in D; try discriminate.
    injection D as <-.
    exists foodData, usage. eexists. exists ([EvFind name] ++ evs)%list.
    split; [reflexivity|]. cbv zeta.
    rewrite N1, F1 in Fd. rewrite N1 in Core. rewrite L1 in L.
    split; [exact Fd|]. split; [rewrite L; now rewrite <- !app_assoc|].
    split; [reflexivity|]. split; [reflexivity|].
    split; [exact Core|]. split.
    + intros Hname. rewrite Fd. now apply selectByName_appended.
    + intros Hname. rewrite Fd. now apply selectByName_other.
Qed.

Lemma C1_confidence_and_source_witness :
  let svc := Scenario.plain (Scenario.ocrReply [] None) in
  let w := Scenario.start [Scenario.bibimbap] in
  exists d w',
    resolveDish svc "호떡" w = (Ok d, w')
    /\ map nameKorean (foods w') = ["비빔밥"; "호떡"]
    /\ confidence d = 0.8%float /\ source d = ai
    /\ exists foodData usage food evs,
         fst (openai_details svc "호떡"
                (snd (db_select_error svc "호떡" (ext w))))
         = ApiOk (Json foodData) usage
         /\ let row := rowOf (nextId w) food in
            foods w' = (foods w ++ [row])%list
            /\ log w' = (log w ++ evs ++ [EvCreate food])%list
            /\ rowFields row = answerFields foodData
            /\ imageUrl row = d_imageUrl d
            /\ coreFields d = rowFields row
            /\ (f_nameKorean foodData = "호떡" ->
                selectByName "호떡" (foods w') = Some row)
            /\ (f_nameKorean foodData <> "호떡" ->
                selectByName "호떡" (foods w') = None).
Proof.
  intros svc w. run_exists (resolveDish svc "호떡" w).
  match goal with
  | |- ?A /\ _ => assert (H : A) by (vm_compute; reflexivity)
  end.
  exact (conj H (conj eq_refl
           (C1_confidence_and_source svc "호떡" w _ _ H))).
Defined.

(** C1 (as stated) fails: the model files 씨앗호떡 under the name 호떡, so
    the dish is returned with confidence 0.8 and source [ai] while the
    table holds no record for the resolved name; resolving the name again
    asks the model again and adds a second row. *)
Lemma C1_counterexample :
  let svc := Replies.canonical in
  let w := Scenario.start [Scenario.bibimbap] in
  exists d w' d2 w'',
    selectByName "씨앗호떡" (foods w) = None
    /\ resolveDish svc "씨앗호떡" w = (Ok d, w')
    /\ confidence d = 0.8%float /\ source d = ai
    /\ map nameKorean (foods w') = ["비빔밥"; "호떡"]
    /\ selectByName "씨앗호떡" (foods w') = None
    /\ resolveDish svc "씨앗호떡" w' = (Ok d2, w'')
    /\ source d2 = ai
    /\ map nameKorean (foods w'') = ["비빔밥"; "호떡"; "호떡"].
Proof.
  intros svc w.
  let c := eval vm_compute in (resolveDish svc "씨앗호떡" w) in
  match c with
  | (Ok ?d, ?w') =>
      let c' := eval vm_compute in (resolveDish svc "씨앗호떡" w') in
      match c' with
      | (Ok ?d2, ?w'') => exists d, w', d2, w''
      end
  end.
  repeat split; vm_compute; reflexivity.
Qed.

(** The two scenarios of the specification: a stored name, a new name. *)
Example resolve_stored_name :
  let svc := Scenario.plain (Scenario.ocrReply [] None) in
  exists d w',
    resolveDish svc "비빔밥" (Scenario.start [Scenario.bibimbap]) = (Ok d, w')
    /\ confidence d = 1.0%float /\ source d = database /\ d_calories d = 420
    /\ foods w' = [Scenario.bibimbap]
    /\ log w' = [EvFind "비빔밥"; EvNaver "비빔밥"; EvNaver "비빔밥 음식";
                 EvNaver "비빔밥 요리"; EvNaver "한국 Bibimbap";
                 EvNaver "Bibimbap 한국음식"].
Proof.
  intros svc. eexists _, _. split; [vm_compute; reflexivity|]. repeat split.
Qed.

Example resolve_new_name :
  let svc := Scenario.plain (Scenario.ocrReply [] None) in
  exists d w',
    resolveDish svc "호떡" (Scenario.start [Scenario.bibimbap]) = (Ok d, w')
    /\ confidence d = 0.8%float /\ source d = ai /\ d_imageUrl d = None
    /\ option_map id (selectByName "호떡" (foods w')) = Some 2.
Proof.
  intros svc. eexists _, _. split; [vm_compute; reflexivity|]. repeat split.
Qed.

(** ** Resolving a stored name again *)

Section Idempotence.

Context {Ext : Type} (svc : Services Ext).

(** Resolving a stored name leaves the table alone, whatever the outcome,
    and issues no insert. *)
Lemma frame_resolveFromStore name row :
  frame (fun e => ~ isCreate e) (resolveFromStore svc name row).
Proof.
  unfold resolveFromStore. apply frame_bind.
  - eapply frame_weaken; [|apply frame_searchKoreanFood].
    intros e He. destruct e; simpl in *; tauto.
  - intros x. destruct (parseImageResult x). apply frame_ret.
Qed.

(** Resolving a stored name leaves the table alone, whatever the outcome,
    and issues no insert. *)
Lemma resolve_stored_no_write name row w r w' :
  selectByName name (foods w) = Some row ->
  resolveDish svc name w = (r, w') ->
  foods w' = foods w /\ nextId w' = nextId w /\
  exists evs, log w' = (log w ++ evs)%list /\ Forall (fun e => ~ isCreate e) evs.
Proof.
  intros Hrow. unfold resolveDish, bind.
  destruct (findKoreanFood svc name w) as [[found|msg] w1] eqn:F.
  - pose proof (findKoreanFood_ok _ _ _ _ _ F) as (Hf & F1 & N1 & L1).
    rewrite Hrow in Hf. subst found. intros H.
    apply frame_resolveFromStore in H as (F2 & N2 & evs & L2 & P2).
    repeat split; try congruence.
    exists ([EvFind name] ++ evs)%list. split.
    + now rewrite L2, L1, <- app_assoc.
    + constructor; [simpl; tauto | exact P2].
  - intros H. inversion H; subst.
    apply frame_findKoreanFood in F as (F1 & N1 & evs & L1 & P1).
    repeat split; trivial. exists evs. split; trivial.
    eapply Forall_impl; [|exact P1]. intros e ->. simpl. tauto.
Qed.

End Idempotence.

(** C9 (as amended).  When the name is in the table, resolving it writes
    nothing (the table is the same afterwards and no insert is issued), and
    two successive resolutions return dishes with the same descriptive
    fields, confidence and source: those of the stored row.  The attached
    image, that is its URL and the accuracy tier that comes with it, is
    resolved anew each time. *)
Theorem C9_stored_name_idempotent {Ext} (svc : Services Ext)
    name row w d1 w1 d2 w2 :
  selectByName name (foods w) = Some row ->
  resolveDish svc name w = (Ok d1, w1) ->
  resolveDish svc name w1 = (Ok d2, w2) ->
  foods w1 = foods w /\ foods w2 = foods w
  /\ (exists evs, log w2 = (log w ++ evs)%list
                  /\ Forall (fun e => ~ isCreate e) evs)
  /\ descriptiveFields d1 = storedFields row
  /\ descriptiveFields d2 = descriptiveFields d1
  /\ confidence d2 = confidence d1
  /\ source d2 = source d1.
Proof.
  intros Hrow R1 R2.
  pose proof (resolve_stored_no_write svc _ _ _ _ _ Hrow R1)
    as (F1 & N1 & evs1 & L1 & P1).
  assert (Hrow1 : selectByName name (foods w1) = Some row) by now rewrite F1.
  pose proof (resolve_stored_no_write svc _ _ _ _ _ Hrow1 R2)
    as (F2 & N2 & evs2 & L2 & P2).
  apply resolveDish_cases in R1 as (x1 & _ & R1). rewrite Hrow in R1.
  apply resolveDish_cases in R2 as (x2 & _ & R2). rewrite Hrow1 in R2.
  apply resolveFromStore_ok in R1 as (r1 & _ & _ & D1 & C1 & S1).
  apply resolveFromStore_ok in R2 as (r2 & _ & _ & D2 & C2 & S2).
  repeat split; try congruence.
  exists (evs1 ++ evs2)%list. split.
  - now rewrite L2, L1, app_assoc.
  - now apply Forall_app.
Qed.

Lemma C9_stored_name_idempotent_witness :
  let w := Scenario.start [Scenario.bibimbap] in
  exists d1 w1 d2 w2,
    resolveDish Scenario.changing "비빔밥" w = (Ok d1, w1)
    /\ resolveDish Scenario.changing "비빔밥" w1 = (Ok d2, w2)
    /\ foods w1 = foods w /\ foods w2 = foods w
    /\ (exists evs, log w2 = (log w ++ evs)%list
                    /\ Forall (fun e => ~ isCreate e) evs)
    /\ descriptiveFields d1 = storedFields Scenario.bibimbap
    /\ descriptiveFields d2 = descriptiveFields d1
    /\ confidence d2 = confidence d1
    /\ source d2 = source d1.
Proof.
  intros w. eexists ?[d1], ?[w1], ?[d2], ?[w2].
  refine ((fun (H1 : resolveDish Scenario.changing "비빔밥" w = (Ok ?d1, ?w1))
               (H2 : resolveDish Scenario.changing "비빔밥" ?w1 = (Ok ?d2, ?w2)) =>
             conj H1 (conj H2
               (C9_stored_name_idempotent Scenario.changing "비빔밥"
                  Scenario.bibimbap w _ _ _ _ eq_refl H1 H2))) _ _).
  - vm_compute. reflexivity.
  - vm_compute. reflexivity.
Defined.

(** C9 (as stated) fails: between two resolutions of a stored name the
    accuracy tier of the dish differs too, not only its image URL. *)
Lemma C9_counterexample :
  let w := Scenario.start [Scenario.bibimbap] in
  exists d1 w1 d2 w2,
    selectByName "비빔밥" (foods w) = Some Scenario.bibimbap
    /\ resolveDish Scenario.changing "비빔밥" w = (Ok d1, w1)
    /\ resolveDish Scenario.changing "비빔밥" w1 = (Ok d2, w2)
    /\ d_imageUrl d1 = Some "https://blogfiles.naver.net/bibimbap.jpg"
    /\ d_imageUrl d2 = Some "https://example.com/bibimbap.jpg"
    /\ d_imageAccuracy d1 = "high"
    /\ d_imageAccuracy d2 = "low"
    /\ d_imageAccuracy d1 <> d_imageAccuracy d2.
Proof.
  intros w. eexists _, _, _, _.
  split; [reflexivity|].
  split; [vm_compute; reflexivity|].
  split; [vm_compute; reflexivity|].
  repeat split. discriminate.
Qed.

(** ** The accuracy default *)

Section AccuracyDefault.

Lemma parse_no_result : parseImageResult None = (None, "high").
Proof. reflexivity. Qed.

Lemma startsWith_bar rest :
  startsWith rest "|" = true -> exists t, rest = String "|"%char t.
Proof.
  destruct rest as [|c t]; [discriminate|].
  change (startsWith (String c t) "|") with (Ascii.eqb "|"%char c && true).
  destruct (Ascii.eqb_spec "|"%char c); [|discriminate].
  subst c. now exists t.
Qed.

Lemma parse_lacking imageResult :
  lacksAccuracy imageResult -> snd (parseImageResult imageResult) = "high".
Proof.
  destruct imageResult as [s|]; [|reflexivity].
  intros [H | (u & rest & -> & Hu & Hrest)]; unfold parseImageResult.
  - destruct (truthy s); [|reflexivity]. now rewrite (split_none s H).
  - destruct (truthy _); [|reflexivity]. rewrite (split_first u rest Hu).
    destruct Hrest as [-> | Hbar]; [reflexivity|].
    apply startsWith_bar in Hbar as (t & ->). reflexivity.
Qed.

End AccuracyDefault.

(** C10.  A dish returned by the orchestrator carries the image attributes
    parsed from what the image search answered during its resolution; when
    that answer is [null], or a string with nothing for an accuracy after
    the separator, [imageAccuracy] is ['high'], and with a [null] answer
    [imageUrl] is [null] as well. *)
Theorem C10_default_accuracy {Ext} (svc : Services Ext) name w d w' :
  resolveDish svc name w = (Ok d, w') ->
  exists english w1 imageResult w2,
    searchKoreanFood svc name (Some english) w1 = (Ok imageResult, w2)
    /\ (d_imageUrl d, d_imageAccuracy d) = parseImageResult imageResult
    /\ (lacksAccuracy imageResult -> d_imageAccuracy d = "high")
    /\ (imageResult = None -> d_imageUrl d = None /\ d_imageAccuracy d = "high").
Proof.
  intros H. apply resolveDish_cases in H as (w1 & _ & H).
  assert (G : forall imageResult,
             (d_imageUrl d, d_imageAccuracy d) = parseImageResult imageResult ->
             (lacksAccuracy imageResult -> d_imageAccuracy d = "high")
             /\ (imageResult = None ->
                 d_imageUrl d = None /\ d_imageAccuracy d = "high")).
  { intros r P. split.
    - intros L. apply parse_lacking in L. rewrite <- P in L. exact L.
    - intros ->. rewrite parse_no_result in P. now inversion P. }
  destruct (selectByName name (foods w)) as [row|].
  - apply resolveFromStore_ok in H as (r & S & P & _).
    exists (nameEnglish row), w1, r, w'. split; [exact S|]. split; [exact P|].
    now apply G.
  - apply resolveFromAI_ok in H as (aiData & w2 & r & w3 & saved & _ & S & _ & P & _).
    exists (ins_nameEnglish aiData), w2, r, w3. split; [exact S|].
    split; [exact P|]. now apply G.
Qed.

Lemma C10_default_accuracy_witness :
  let svc := Scenario.plain (Scenario.ocrReply [] None) in
  let w := Scenario.start [Scenario.bibimbap] in
  exists d w',
    resolveDish svc "비빔밥" w = (Ok d, w')
    /\ exists english w1 imageResult w2,
         searchKoreanFood svc "비빔밥" (Some english) w1 = (Ok imageResult, w2)
         /\ (d_imageUrl d, d_imageAccuracy d) = parseImageResult imageResult
         /\ (lacksAccuracy imageResult -> d_imageAccuracy d = "high")
         /\ (imageResult = None ->
             d_imageUrl d = None /\ d_imageAccuracy d = "high").
Proof.
  intros svc w. eexists _, _.
  refine ((fun H => conj H (C10_default_accuracy svc "비빔밥" w _ _ H)) _).
  vm_compute. reflexivity.
Defined.

(** The parsing on its three kinds of input. *)
Example parse_examples :
  parseImageResult None = (None, "high")
  /\ parseImageResult (Some "https://example.com/a.jpg")
     = (Some "https://example.com/a.jpg", "high")
  /\ parseImageResult (Some "https://example.com/a.jpg|")
     = (Some "https://example.com/a.jpg", "high")
  /\ parseImageResult (Some "https://example.com/a.jpg|low")
     = (Some "https://example.com/a.jpg", "low").
Proof. repeat split. Qed.

(** ** Partial-failure tolerance *)

Section Tolerance.

Context {Ext : Type} (svc : Services Ext).

Lemma succeeded_length results :
  List.length (succeeded results)
  = List.length (filter returned results).
Proof.
  induction results as [|[d|msg] rest IH]; simpl; congruence.
Qed.

Lemma outcomes_length names w :
  List.length (outcomes svc names w) = List.length names.
Proof.
  revert w. induction names as [|name rest IH]; intros w; simpl; [reflexivity|].
  destruct (resolveDish svc name w) as [r w1]. simpl. now rewrite IH.
Qed.

(** The loop never throws; it pushes exactly the dishes of the resolutions
    that returned. *)
Lemma resolveAll_collects names : forall acc w,
  exists usage w',
    resolveAll svc names acc w
    = (Ok ((fst acc ++ succeeded (outcomes svc names w))%list, usage), w').
Proof.
  induction names as [|name rest IH]; intros acc w; simpl.
  - exists (snd acc), w. unfold ret. rewrite app_nil_r. now destruct acc.
  - unfold bind at 1. unfold tryCatch, bind.
    destruct (resolveDish svc name w) as [[d|msg] w1]; simpl.
    + destruct (IH (account d acc) w1) as (usage & w' & E).
      exists usage, w'. rewrite E. simpl. now rewrite <- app_assoc.
    + destruct (IH acc w1) as (usage & w' & E).
      exists usage, w'. exact E.
Qed.

End Tolerance.

(** C3.  After a successful extraction of a Korean menu with at most 3
    detected items, the analysis returns: every extracted name is resolved
    in turn, a name whose resolution throws is skipped and the loop goes on
    from the world that resolution left, and the dish list consists of the
    dishes of the resolutions that returned, so its length is their
    number. *)
Theorem C3_partial_failure {Ext} (svc : Services Ext) img w ocr w1 :
  extractKoreanFoodNames svc img w = (Ok ocr, w1) ->
  (forall n, totalDetected ocr = Some n -> n <= 3) ->
  isKoreanMenu ocr = true ->
  let results := outcomes svc (extractedNames ocr) w1 in
  exists analysis w2,
    analyzeKoreanMenu svc img w = (Ok analysis, w2)
    /\ r_isKoreanMenu analysis = true
    /\ dishes analysis = succeeded results
    /\ List.length results = List.length (extractedNames ocr)
    /\ List.length (dishes analysis) = List.length (filter returned results).
Proof.
  intros E T K results.
  destruct (resolveAll_collects svc (extractedNames ocr) ([], tokenUsage ocr) w1)
    as (usage & w2 & R).
  exists {| r_isKoreanMenu := true;
            dishes := succeeded results;
            r_tokenUsage := usage |}, w2.
  split.
  - unfold analyzeKoreanMenu, tryCatch. unfold bind at 1. rewrite E.
    rewrite (overLimit_within _ T), K. simpl. unfold bind. now rewrite R.
  - simpl. repeat split.
    + apply outcomes_length.
    + apply succeeded_length.
Qed.

Lemma C3_partial_failure_witness :
  let names := ["비빔밥"; "김치찌개"; "호떡"] in
  let svc := Scenario.plain (Scenario.ocrReply names (Some 3)) in
  let w := Scenario.start [Scenario.bibimbap] in
  exists ocr w1,
    extractKoreanFoodNames svc "img" w = (Ok ocr, w1)
    /\ exists analysis w2,
         analyzeKoreanMenu svc "img" w = (Ok analysis, w2)
         /\ r_isKoreanMenu analysis = true
         /\ dishes analysis = succeeded (outcomes svc (extractedNames ocr) w1)
         /\ List.length (outcomes svc (extractedNames ocr) w1)
            = List.length (extractedNames ocr)
         /\ List.length (dishes analysis)
            = List.length (filter returned (outcomes svc (extractedNames ocr) w1)).
Proof.
  intros names svc w. run_exists (extractKoreanFoodNames svc "img" w).
  match goal with
  | |- ?A /\ _ => assert (H : A) by (vm_compute; reflexivity)
  end.
  refine (conj H (C3_partial_failure svc "img" w _ _ H _ eq_refl)).
  simpl. intros n Hn. injection Hn as <-. lia.
Defined.

(** Three names, the second of which the generative model fails on: two
    dishes come back, in extraction order. *)
Example analysis_skips_failed_name :
  let names := ["비빔밥"; "김치찌개"; "호떡"] in
  let svc := Scenario.plain (Scenario.ocrReply names (Some 3)) in
  exists analysis w',
    analyzeKoreanMenu svc "img" (Scenario.start [Scenario.bibimbap])
    = (Ok analysis, w')
    /\ map d_nameKorean (dishes analysis) = ["비빔밥"; "호떡"]
    /\ map source (dishes analysis) = [database; ai]
    /\ map returned (outcomes svc names
                       (mkWorld O [Scenario.bibimbap] 2 [EvOcr "img"]))
       = [true; false; true]
    /\ map nameKorean (foods w') = ["비빔밥"; "호떡"].
Proof.
  intros names svc. eexists _, _. split; [vm_compute; reflexivity|].
  repeat split.
Qed.

(** ** The image waterfall *)

Section Waterfall.

Context {Ext : Type} (svc : Services Ext).


End Waterfall.



(** Two candidates, the second from a blog: it outranks the first, passes
    the probe, and one Naver request and one probe are all that happens. *)
Example waterfall_stops_at_naver :
  let svc := Scenario.naverOnly [Scenario.plainItem; Scenario.blogItem] in
  searchKoreanFood svc "비빔밥" (Some "Bibimbap") (Scenario.start [])
  = (Ok (Some "https://blogfiles.naver.net/bibimbap.jpg|high"),
     mkWorld 1%nat [] 2
       [EvNaver "비빔밥"; EvHead "https://blogfiles.naver.net/bibimbap.jpg"]).
Proof. vm_compute. reflexivity. Qed.

(** ** Selection by the Naver adapter *)

Section Selection.

Lemma hd_insertByScore {A} (x : A * Z) sorted :
  hd_error (insertByScore x sorted)
  = match hd_error sorted with
    | None => Some x
    | Some y => if snd x <? snd y then Some y else Some x
    end.
Proof.
  destruct sorted as [|y rest]; simpl; [reflexivity|].
  now destruct (snd x <? snd y).
Qed.

(** [best] is a candidate of the response with the highest score. *)
Lemma best_highest {A} (score : A -> Z) items b s :
  best score items = Some (b, s) ->
  s = score b /\ In b items /\ forall item, In item items -> score item <= s.
Proof.
  unfold best, sortByScore. revert b s.
  induction items as [|x rest IH]; intros b s; simpl; [discriminate|].
  rewrite hd_insertByScore.
  destruct (hd_error (fold_right insertByScore [] (map _ rest)))
    as [[b0 s0]|] eqn:E; simpl.
  - destruct (IH b0 s0 eq_refl) as (Hs & Hin & Hmax).
    destruct (Z.ltb_spec (score x) s0) as [Hlt|Hge];
      intros Heq; injection Heq as <- <-.
    + split; [exact Hs|]. split; [now right|].
      intros item [<-|Hi]; [lia | auto].
    + split; [reflexivity|]. split; [now left|].
      intros item [<-|Hi]; [lia|]. specialize (Hmax item Hi). lia.
  - intros Heq. injection Heq as <- <-.
    split; [reflexivity|]. split; [now left|].
    destruct rest as [|y rest].
    + intros item [<-|[]]. lia.
    + simpl in E. rewrite hd_insertByScore in E.
      destruct (hd_error _) as [z|]; [destruct (_ <? _)|]; discriminate.
Qed.

Lemma naverAccuracy_blog imageUrl relevanceScore :
  blogDomain imageUrl = true -> naverAccuracy imageUrl relevanceScore = high.
Proof. unfold naverAccuracy. now intros ->. Qed.

Context {Ext : Type} (svc : Services Ext).

(** The requests the loop has made are the ones it has logged. *)
Lemma afterCalls_nil {A} (get : string -> Ext -> A * Ext) event w :
  afterCalls get event [] w = w.
Proof. destruct w. unfold afterCalls. simpl. now rewrite app_nil_r. Qed.

Lemma afterCalls_cons {A} (get : string -> Ext -> A * Ext) event q rest w :
  afterCalls get event (q :: rest) w
  = afterCalls get event rest
      (mkWorld (snd (get q (ext w))) (foods w) (nextId w)
               (log w ++ [event q])).
Proof. unfold afterCalls. simpl. now rewrite <- app_assoc. Qed.

Lemma afterCalls_app {A} (get : string -> Ext -> A * Ext) event
    before rest w :
  afterCalls get event (before ++ rest) w
  = afterCalls get event rest (afterCalls get event before w).
Proof.
  revert w. induction before as [|q before IH]; intros w; simpl.
  - now rewrite afterCalls_nil.
  - rewrite !afterCalls_cons. apply IH.
Qed.

Lemma naverPick_nothing query items :
  offersNothing (Some items) -> naverPick query items = None.
Proof.
  unfold offersNothing, naverPick. intros Hneg.
  destruct (best naverScore items) as [[b s]|] eqn:B; [|reflexivity].
  apply best_highest in B as (-> & Hin & _). specialize (Hneg b Hin).
  destruct (Z.leb_spec 0 (naverScore b)); [lia|reflexivity].
Qed.

Lemma naverPick_best query items bestItem score :
  best naverScore items = Some (bestItem, score) ->
  0 <= score ->
  blockedDomain (orElse (n_originalUrl bestItem) (n_thumb bestItem)) = false ->
  naverPick query items
  = Some {| url := orElse (n_originalUrl bestItem) (n_thumb bestItem);
            provider := naver;
            accuracy :=
              naverAccuracy (orElse (n_originalUrl bestItem) (n_thumb bestItem))
                            score;
            title := n_title bestItem;
            img_description := "Found via Naver search: " ++ query |}.
Proof.
  unfold naverPick. intros -> Hpos ->.
  destruct (Z.leb_spec 0 score); [reflexivity|lia].
Qed.

Lemma naverPick_inv query items r :
  naverPick query items = Some r ->
  exists bestItem score,
    best naverScore items = Some (bestItem, score)
    /\ 0 <= score
    /\ blockedDomain (orElse (n_originalUrl bestItem) (n_thumb bestItem))
       = false
    /\ r = {| url := orElse (n_originalUrl bestItem) (n_thumb bestItem);
              provider := naver;
              accuracy :=
                naverAccuracy
                  (orElse (n_originalUrl bestItem) (n_thumb bestItem)) score;
              title := n_title bestItem;
              img_description := "Found via Naver search: " ++ query |}.
Proof.
  unfold naverPick.
  destruct (best naverScore items) as [[b s]|]; [|discriminate].
  destruct (Z.leb_spec 0 s) as [Hpos|Hneg]; [|discriminate].
  destruct (blockedDomain _) eqn:Bl; [discriminate|].
  intros Heq. injection Heq as <-. now exists b, s.
Qed.

(** Replies that offer nothing are passed over, one request each. *)
Lemma searchNaverLoop_skips before rest w :
  eachReply (naver_get svc) offersNothing before (ext w) ->
  searchNaverLoop svc (before ++ rest) w
  = searchNaverLoop svc rest (afterCalls (naver_get svc) EvNaver before w).
Proof.
  revert w. induction before as [|q before IH]; intros w; simpl.
  - intros _. now rewrite afterCalls_nil.
  - intros [Hq Hrest]. rewrite afterCalls_cons.
    unfold bind at 1. unfold call.
    destruct (naver_get svc q (ext w)) as [reply x]. simpl in *.
    destruct reply as [items|]; [|now apply IH].
    rewrite (naverPick_nothing q items Hq). now apply IH.
Qed.

Lemma searchNaverLoop_picks query rest items r w :
  fst (naver_get svc query (ext w)) = Some items ->
  naverPick query items = Some r ->
  searchNaverLoop svc (query :: rest) w
  = (Ok (Some r), afterCalls (naver_get svc) EvNaver [query] w).
Proof.
  intros G P. simpl. unfold bind at 1. unfold call, afterCalls. simpl.
  destruct (naver_get svc query (ext w)) as [reply x]. simpl in *.
  subst reply. now rewrite P.
Qed.

(** A returned candidate was picked from the reply to the last request the
    loop made. *)
Lemma searchNaverLoop_last queries w r w' :
  searchNaverLoop svc queries w = (Ok (Some r), w') ->
  exists before query rest items,
    queries = (before ++ query :: rest)%list
    /\ fst (naver_get svc query
              (afterRequests (naver_get svc) before (ext w))) = Some items
    /\ naverPick query items = Some r
    /\ w' = afterCalls (naver_get svc) EvNaver (before ++ [query]) w.
Proof.
  revert w. induction queries as [|q rest IH]; intros w; simpl.
  - intros H. inversion H.
  - unfold bind at 1. unfold call.
    destruct (naver_get svc q (ext w)) as [reply x] eqn:G.
    assert (Rest : searchNaverLoop svc rest
                     (mkWorld x (foods w) (nextId w) (log w ++ [EvNaver q]))
                   = (Ok (Some r), w') ->
              exists before query rest0 items,
                q :: rest = (before ++ query :: rest0)%list
                /\ fst (naver_get svc query
                          (afterRequests (naver_get svc) before (ext w)))
                   = Some items
                /\ naverPick query items = Some r
                /\ w' = afterCalls (naver_get svc) EvNaver
                          (before ++ [query]) w).
    { intros H.
      destruct (IH _ H) as (before & query & rest0 & items & -> & Hg & Hp & ->).
      exists (q :: before), query, rest0, items. simpl. rewrite G. simpl.
      repeat split; auto.
      rewrite afterCalls_cons. now rewrite G. }
    destruct reply as [items|]; [|exact Rest].
    destruct (naverPick q items) as [result|] eqn:P; [|exact Rest].
    intros H. inversion H; subst.
    exists [], q, rest, items. simpl. rewrite G.
    repeat split; auto.
    unfold afterCalls. simpl. now rewrite G.
Qed.

End Selection.

(** C6 (as amended).  The Naver adapter asks its queries in order.  When
    every earlier reply offered nothing (a failed request, or no candidate
    scoring 0 or more) and the response to a query contains candidates, the
    top-scoring candidate of that response, provided it scores at least 0
    and its URL is not on a blocked commerce or shopping domain, is the
    candidate the adapter returns, with the accuracy tier derived from its
    URL and score, right after that request.  Whatever the replies, a
    candidate the adapter returns is never from a blocked domain, whatever
    its score; it comes from the reply to the last request made, scores at
    least 0 and no candidate of that response outside the blocked domains
    scores higher; and its accuracy tier is [high] whenever its URL is from
    an authentic Korean blog domain, whatever its score. *)
Theorem C6_naver_selection {Ext} (svc : Services Ext) kn en cq w :
  (forall before query rest items bestItem score,
      naverQueries kn en cq = (before ++ query :: rest)%list ->
      eachReply (naver_get svc) offersNothing before (ext w) ->
      fst (naver_get svc query
             (afterRequests (naver_get svc) before (ext w))) = Some items ->
      best naverScore items = Some (bestItem, score) ->
      0 <= score ->
      blockedDomain (orElse (n_originalUrl bestItem) (n_thumb bestItem))
      = false ->
      exists r,
        searchNaver svc kn en cq w
        = (Ok (Some r),
           afterCalls (naver_get svc) EvNaver (before ++ [query]) w)
        /\ url r = orElse (n_originalUrl bestItem) (n_thumb bestItem)
        /\ title r = n_title bestItem
        /\ provider r = naver
        /\ accuracy r = naverAccuracy (url r) score
        /\ In bestItem items
        /\ score = naverScore bestItem
        /\ forall item, In item items -> naverScore item <= score)
  /\ (forall r w',
        searchNaver svc kn en cq w = (Ok (Some r), w') ->
        blockedDomain (url r) = false
        /\ (blogDomain (url r) = true -> accuracy r = high)
        /\ exists before query rest items bestItem,
             naverQueries kn en cq = (before ++ query :: rest)%list
             /\ w' = afterCalls (naver_get svc) EvNaver (before ++ [query]) w
             /\ fst (naver_get svc query
                       (afterRequests (naver_get svc) before (ext w)))
                = Some items
             /\ In bestItem items
             /\ url r = orElse (n_originalUrl bestItem) (n_thumb bestItem)
             /\ title r = n_title bestItem
             /\ accuracy r = naverAccuracy (url r) (naverScore bestItem)
             /\ 0 <= naverScore bestItem
             /\ forall item,
                  In item items ->
                  blockedDomain (orElse (n_originalUrl item) (n_thumb item))
                  = false ->
                  naverScore item <= naverScore bestItem).
Proof.
  split.
  - intros before query rest items bestItem score Q Skip G B Pos Bl.
    pose proof (naverPick_best query items bestItem score B Pos Bl) as P.
    apply best_highest in B as (Hs & Hin & Hmax).
    eexists. split.
    + unfold searchNaver. rewrite Q.
      rewrite (searchNaverLoop_skips svc before (query :: rest) w Skip).
      rewrite (searchNaverLoop_picks svc query rest items _
                 (afterCalls (naver_get svc) EvNaver before w) G P).
      now rewrite afterCalls_app.
    + simpl. auto 10.
  - intros r w' H. unfold searchNaver in H.
    apply searchNaverLoop_last in H
      as (before & query & rest & items & Q & G & P & W).
    apply naverPick_inv in P as (b & s & B & Pos & Bl & ->).
    apply best_highest in B as (-> & Hin & Hmax). simpl.
    split; [exact Bl|]. split; [apply naverAccuracy_blog|].
    exists before, query, rest, items, b. auto 12.
Qed.

Lemma C6_naver_selection_witness :
  let svc := Replies.secondResponse in
  let w := Scenario.start [] in
  exists r w',
    searchNaver svc "비빔밥" "Bibimbap" None w = (Ok (Some r), w')
    /\ url r = Some "https://blogfiles.naver.net/bibimbap.jpg"
    /\ title r = Some "비빔밥 맛집"
    /\ accuracy r = naverAccuracy (url r) 15
    /\ log w' = [EvNaver "비빔밥"; EvNaver "비빔밥 음식"]
    /\ blockedDomain (url r) = false
    /\ (blogDomain (url r) = true -> accuracy r = high).
Proof.
  intros svc w.
  assert (Q : naverQueries "비빔밥" "Bibimbap" None
              = (["비빔밥"]
                 ++ "비빔밥 음식"
                 :: ["비빔밥 요리"; "한국 Bibimbap"; "Bibimbap 한국음식"])%list)
    by (vm_compute; reflexivity).
  assert (Skip : eachReply (naver_get svc) offersNothing ["비빔밥"] (ext w)).
  { simpl. split; [|exact I].
    intros item [<-|[]]. vm_compute. reflexivity. }
  assert (G : fst (naver_get svc "비빔밥 음식"
                     (afterRequests (naver_get svc) ["비빔밥"] (ext w)))
              = Some [Scenario.plainItem; Scenario.blogItem])
    by (vm_compute; reflexivity).
  assert (B : best naverScore [Scenario.plainItem; Scenario.blogItem]
              = Some (Scenario.blogItem, 15))
    by (vm_compute; reflexivity).
  assert (Pos : 0 <= 15) by lia.
  assert (Bl : blockedDomain (orElse (n_originalUrl Scenario.blogItem)
                                     (n_thumb Scenario.blogItem)) = false)
    by (vm_compute; reflexivity).
  destruct (proj1 (C6_naver_selection svc "비빔밥" "Bibimbap" None w)
              _ _ _ _ _ _ Q Skip G B Pos Bl)
    as (r & Run & U & T & _ & A & _).
  destruct (proj2 (C6_naver_selection svc "비빔밥" "Bibimbap" None w)
              _ _ Run) as (NotBlocked & Blog & _).
  exists r, (afterCalls (naver_get svc) EvNaver
               (["비빔밥"] ++ ["비빔밥 음식"]) w).
  split; [exact Run|]. split; [exact U|]. split; [exact T|].
  split; [exact A|]. split; [reflexivity|]. split; [exact NotBlocked|exact Blog].
Defined.

(** The blog photo wins over the plain one listed before it. *)
Example naver_prefers_blog :
  naverPick "비빔밥" [Scenario.plainItem; Scenario.blogItem]
  = Some {| url := Some "https://blogfiles.naver.net/bibimbap.jpg";
            provider := naver;
            accuracy := high;
            title := Some "비빔밥 맛집";
            img_description := "Found via Naver search: 비빔밥" |}.
Proof. vm_compute. reflexivity. Qed.

(** C6 (as stated) fails: a response whose only candidate is on an ordinary
    domain but scores below 0 yields no selection from that response. *)
Lemma C6_counterexample :
  let svc := Scenario.naverOnly [Scenario.peopleItem] in
  naverScore Scenario.peopleItem = -2
  /\ blockedDomain (n_originalUrl Scenario.peopleItem) = false
  /\ naverPick "비빔밥" [Scenario.peopleItem] = None
  /\ fst (searchNaver svc "비빔밥" "Bibimbap" None (Scenario.start []))
     = Ok None.
Proof. intros svc. repeat split; vm_compute; reflexivity. Qed.

(** A response whose top candidate is on a blocked domain is dropped as a
    whole: the [continue] leaves for the next query, not the next item. *)
Example naver_blocked_top_candidate :
  naverScore Scenario.shopItem = 7
  /\ naverScore Scenario.plainItem = 0
  /\ blockedDomain (n_originalUrl Scenario.shopItem) = true
  /\ blockedDomain (n_originalUrl Scenario.plainItem) = false
  /\ naverPick "비빔밥" [Scenario.shopItem; Scenario.plainItem] = None.
Proof. repeat split; vm_compute; reflexivity. Qed.

(** ** The fallback after a failed waterfall *)

Section Fallback.

(** None of the queries derived from a dish name is the generic one. *)
Lemma generic_not_derived english : ~ In genericQuery (searchQueries english).
Proof.
  unfold searchQueries, getSearchTerms.
  repeat match goal with
         | |- context [if ?c then _ else _] => destruct c
         end;
    simpl; intros H;
    repeat (destruct H as [H|H]; [discriminate H|]); exact H.
Qed.

Lemma generic_not_fallback english : ~ In genericQuery (fallbackQueries english).
Proof.
  unfold fallbackQueries. destruct (orElse english None).
  - apply generic_not_derived.
  - intros [].
Qed.

Lemma within_not_generic english evs :
  Forall (imageCallWithin (fallbackQueries english)) evs ->
  ~ In (EvUnsplash genericQuery) evs.
Proof.
  intros F Hin. rewrite Forall_forall in F. specialize (F _ Hin).
  simpl in F. exact (generic_not_fallback english F).
Qed.

Context {Ext : Type} (svc : Services Ext).

Lemma best_nonempty {A} (score : A -> Z) items :
  items <> [] -> exists b s, best score items = Some (b, s).
Proof.
  destruct items as [|x rest]; [congruence|]. intros _.
  unfold best, sortByScore. simpl. rewrite hd_insertByScore.
  destruct (hd_error _) as [[b s]|]; [destruct (_ <? _)|]; eauto.
Qed.

(** Responses without photos are passed over, one request each. *)
Lemma searchUnsplashLoop_skips before rest w :
  eachReply (unsplash_get svc) noPhotos before (ext w) ->
  searchUnsplashLoop svc (before ++ rest) w
  = searchUnsplashLoop svc rest
      (afterCalls (unsplash_get svc) EvUnsplash before w).
Proof.
  revert w. induction before as [|q before IH]; intros w; simpl.
  - intros _. now rewrite afterCalls_nil.
  - intros [Hq Hrest]. rewrite afterCalls_cons.
    unfold bind at 1. unfold call.
    destruct (unsplash_get svc q (ext w)) as [reply x]. simpl in *.
    unfold noPhotos in Hq. subst reply. simpl. now apply IH.
Qed.

Lemma searchUnsplashLoop_picks query rest images photo score w :
  fst (unsplash_get svc query (ext w)) = Some images ->
  best (unsplashScore query) images = Some (photo, score) ->
  searchUnsplashLoop svc (query :: rest) w
  = (Ok (Some (rendered (Some (i_regular photo)) (unsplashAccuracy score))),
     afterCalls (unsplash_get svc) EvUnsplash [query] w).
Proof.
  intros G B. simpl. unfold bind at 1. unfold call, afterCalls. simpl.
  destruct (unsplash_get svc query (ext w)) as [reply x]. simpl in *.
  subst reply. now rewrite B.
Qed.

Lemma searchUnsplashLoop_fails query rest w :
  fst (unsplash_get svc query (ext w)) = None ->
  searchUnsplashLoop svc (query :: rest) w
  = (Throw "Request failed",
     afterCalls (unsplash_get svc) EvUnsplash [query] w).
Proof.
  intros G. simpl. unfold bind at 1. unfold call, afterCalls. simpl.
  destruct (unsplash_get svc query (ext w)) as [reply x]. simpl in *.
  now subst reply.
Qed.

(** With no candidate from the waterfall, a configured key and an English
    name, the outcome is that of the loop over the derived queries. *)
Lemma searchKoreanFood_fallback kn english en w w1 :
  searchKoreanFoodImage svc kn (interp (orElse english (Some kn))) w
    = (Ok None, w1) ->
  truthy (accessKey svc) = true ->
  orElse english None = Some en ->
  searchKoreanFood svc kn english w
  = tryCatch (searchUnsplashLoop svc (searchQueries en))
             (fun _ => ret None) w1.
Proof.
  intros I K E. unfold searchKoreanFood. rewrite (bind_run _ _ _ _ _ I).
  simpl. now rewrite K, E.
Qed.

End Fallback.

(** C7 (as amended).  When the waterfall returns none, [searchKoreanFood]
    falls back, provided an Unsplash access key is configured and an
    English name is given, to the queries derived from the English name
    (["<term> dish"], ["<term> restaurant"], ["traditional <term>"]), asked
    of Unsplash in order: it returns the top-scoring image of the first
    response that is not empty, with the accuracy tier of its score, right
    after that request; it returns none when every response is empty, and
    none as soon as a request fails.  The calls it makes are image-provider
    calls whose Unsplash queries are among the derived ones: the generic
    "korean food traditional cuisine" query is not issued. *)
Theorem C7_fallback_is_dish_specific {Ext} (svc : Services Ext)
    kn english en w w1 :
  searchKoreanFoodImage svc kn (interp (orElse english (Some kn))) w
    = (Ok None, w1) ->
  truthy (accessKey svc) = true ->
  orElse english None = Some en ->
  (forall before query rest images,
      searchQueries en = (before ++ query :: rest)%list ->
      eachReply (unsplash_get svc) noPhotos before (ext w1) ->
      fst (unsplash_get svc query
             (afterRequests (unsplash_get svc) before (ext w1)))
      = Some images ->
      images <> [] ->
      exists photo score,
        best (unsplashScore query) images = Some (photo, score)
        /\ In photo images
        /\ score = unsplashScore query photo
        /\ (forall other,
              In other images -> unsplashScore query other <= score)
        /\ searchKoreanFood svc kn english w
           = (Ok (Some (rendered (Some (i_regular photo))
                                 (unsplashAccuracy score))),
              afterCalls (unsplash_get svc) EvUnsplash
                         (before ++ [query]) w1))
  /\ (eachReply (unsplash_get svc) noPhotos (searchQueries en) (ext w1) ->
      searchKoreanFood svc kn english w
      = (Ok None,
         afterCalls (unsplash_get svc) EvUnsplash (searchQueries en) w1))
  /\ (forall before query rest,
        searchQueries en = (before ++ query :: rest)%list ->
        eachReply (unsplash_get svc) noPhotos before (ext w1) ->
        fst (unsplash_get svc query
               (afterRequests (unsplash_get svc) before (ext w1)))
        = None ->
        searchKoreanFood svc kn english w
        = (Ok None,
           afterCalls (unsplash_get svc) EvUnsplash (before ++ [query]) w1))
  /\ forall r w',
       searchKoreanFood svc kn english w = (r, w') ->
       exists evs,
         log w' = (log w ++ evs)%list
         /\ Forall (imageCallWithin (searchQueries en)) evs
         /\ ~ In (EvUnsplash genericQuery) evs.
Proof.
  intros I K E.
  pose proof (searchKoreanFood_fallback svc kn english en w w1 I K E) as Eq.
  split; [|split; [|split]].
  - intros before query rest images Q Skip G Ne.
    destruct (best_nonempty (unsplashScore query) images Ne)
      as (photo & score & B).
    exists photo, score. split; [exact B|].
    pose proof B as B'. apply best_highest in B' as (Hs & Hin & Hmax).
    repeat (split; [assumption|]).
    rewrite Eq, Q. unfold tryCatch.
    rewrite (searchUnsplashLoop_skips svc before (query :: rest) w1 Skip).
    rewrite (searchUnsplashLoop_picks svc query rest images photo score
               (afterCalls (unsplash_get svc) EvUnsplash before w1) G B).
    now rewrite afterCalls_app.
  - intros Skip. rewrite Eq. unfold tryCatch.
    rewrite <- (app_nil_r (searchQueries en)) at 1.
    rewrite (searchUnsplashLoop_skips svc (searchQueries en) [] w1 Skip).
    reflexivity.
  - intros before query rest Q Skip G.
    rewrite Eq, Q. unfold tryCatch.
    rewrite (searchUnsplashLoop_skips svc before (query :: rest) w1 Skip).
    rewrite (searchUnsplashLoop_fails svc query rest
               (afterCalls (unsplash_get svc) EvUnsplash before w1) G).
    unfold ret. now rewrite afterCalls_app.
  - intros r w' H.
    apply frame_searchKoreanFood in H as (_ & _ & evs & L & P).
    exists evs. split; [exact L|]. split.
    + unfold fallbackQueries in P. now rewrite E in P.
    + eapply within_not_generic; eassumption.
Qed.

Lemma C7_fallback_is_dish_specific_witness :
  let svc := Replies.derivedStock in
  let w := Scenario.start [] in
  exists w1 w',
    searchKoreanFoodImage svc "비빔밥" "Bibimbap" w = (Ok None, w1)
    /\ searchKoreanFood svc "비빔밥" (Some "Bibimbap") w
       = (Ok (Some "https://images.unsplash.com/photo-1|high"), w')
    /\ log w'
       = (log w1
          ++ [EvUnsplash "korean rice dish";
              EvUnsplash "korean rice restaurant"])%list
    /\ exists evs,
         log w' = (log w ++ evs)%list
         /\ Forall (imageCallWithin (searchQueries "Bibimbap")) evs
         /\ ~ In (EvUnsplash genericQuery) evs.
Proof.
  intros svc w.
  let c := eval vm_compute in
             (searchKoreanFoodImage svc "비빔밥" "Bibimbap" w) in
  match c with
  | (Ok None, ?v) => pose (w1 := v)
  end.
  assert (Run1 : searchKoreanFoodImage svc "비빔밥" "Bibimbap" w
                 = (Ok None, w1)) by (vm_compute; reflexivity).
  assert (I : searchKoreanFoodImage svc "비빔밥"
                (interp (orElse (Some "Bibimbap") (Some "비빔밥"))) w
              = (Ok None, w1)) by (vm_compute; reflexivity).
  assert (K : truthy (accessKey svc) = true) by reflexivity.
  assert (E : orElse (Some "Bibimbap") None = Some "Bibimbap")
    by reflexivity.
  assert (Q : searchQueries "Bibimbap"
              = (["korean rice dish"]
                 ++ "korean rice restaurant"
                 :: ["traditional korean rice"; "bibimbap dish";
                     "bibimbap restaurant"; "traditional bibimbap"])%list)
    by (vm_compute; reflexivity).
  assert (Skip : eachReply (unsplash_get svc) noPhotos
                   ["korean rice dish"] (ext w1))
    by (simpl; split; [reflexivity|exact Logic.I]).
  assert (G : fst (unsplash_get svc "korean rice restaurant"
                     (afterRequests (unsplash_get svc)
                        ["korean rice dish"] (ext w1)))
              = Some [Replies.streetPhoto; Scenario.stockPhoto])
    by (vm_compute; reflexivity).
  assert (Ne : [Replies.streetPhoto; Scenario.stockPhoto] <> [])
    by discriminate.
  assert (B0 : best (unsplashScore "korean rice restaurant")
                 [Replies.streetPhoto; Scenario.stockPhoto]
               = Some (Scenario.stockPhoto, 6))
    by (vm_compute; reflexivity).
  pose proof (C7_fallback_is_dish_specific svc "비빔밥" (Some "Bibimbap")
                "Bibimbap" w w1 I K E) as (Picks & _ & _ & Calls).
  destruct (Picks _ _ _ _ Q Skip G Ne) as (photo & score & B & _ & _ & _ & Run).
  rewrite B0 in B. injection B as <- <-.
  exists w1, (afterCalls (unsplash_get svc) EvUnsplash
                (["korean rice dish"] ++ ["korean rice restaurant"]) w1).
  split; [exact Run1|]. split; [exact Run|]. split; [reflexivity|].
  exact (Calls _ _ Run).
Defined.

(** The derived queries follow the lower-cased English name, the Kelvin
    sign included. *)
Example queries_of_a_name_with_kelvin_sign :
  searchQueries
    (String "C" (String "h" (String "i" (String "c"
       (String (ascii_of_nat 226) (String (ascii_of_nat 132)
          (String (ascii_of_nat 170) "en Stew")))))))
  = ["korean chicken dish"; "korean chicken restaurant";
     "traditional korean chicken"; "chicken stew dish";
     "chicken stew restaurant"; "traditional chicken stew"].
Proof. vm_compute. reflexivity. Qed.

(** C7 (as stated) fails: the waterfall returns none, Unsplash would answer
    the generic query, and yet [searchKoreanFood] returns none without ever
    issuing it. *)
Lemma C7_counterexample :
  let svc := Scenario.genericOnly in
  let w := Scenario.start [] in
  exists w1 w',
    searchKoreanFoodImage svc "비빔밥" "Bibimbap" w = (Ok None, w1)
    /\ searchKoreanFood svc "비빔밥" (Some "Bibimbap") w = (Ok None, w')
    /\ log w'
       = [EvNaver "비빔밥"; EvNaver "비빔밥 음식"; EvNaver "비빔밥 요리";
          EvNaver "한국 Bibimbap"; EvNaver "Bibimbap 한국음식";
          EvUnsplash "korean rice dish"; EvUnsplash "korean rice restaurant";
          EvUnsplash "traditional korean rice"; EvUnsplash "bibimbap dish";
          EvUnsplash "bibimbap restaurant"; EvUnsplash "traditional bibimbap"]
    /\ ~ In (EvUnsplash genericQuery) (log w')
    /\ fst (searchGenericKoreanFood svc w')
       = Ok (Some "https://images.unsplash.com/photo-1").
Proof.
  intros svc w. eexists _, _.
  split; [vm_compute; reflexivity|].
  split; [vm_compute; reflexivity|].
  split; [reflexivity|].
  split; [|vm_compute; reflexivity].
  simpl. intros H.
  repeat (destruct H as [H|H]; [discriminate H|]). exact H.
Qed.

(** * Further properties of the pipeline *)

(** ** What a failed extraction or analysis looks like *)

Section Outcomes.

Context {Ext : Type} (svc : Services Ext).

Lemma overLimit_some detected n :
  overLimit detected = Some n -> detected = Some n /\ 3 < n.
Proof.
  destruct detected as [m|]; simpl; [|discriminate].
  destruct (Z.eqb_spec m 0) as [_|_]; simpl; [discriminate|].
  destruct (Z.ltb_spec 3 m) as [Hlt|_]; [|discriminate].
  intros Heq. injection Heq as <-. now split.
Qed.

Lemma foodLimitMessage_classified n :
  isFoodLimitError (foodLimitMessage n) = true.
Proof.
  apply includes_startsWith. unfold foodLimitMessage.
  change ("FOOD_LIMIT_ERROR: Too many menu items detected (" ++ ofZ n ++
          " items found). Please upload a photo with 3 or fewer menu items for analysis.")
    with ("FOOD_LIMIT_ERROR" ++ ": Too many menu items detected (" ++ ofZ n ++
          " items found). Please upload a photo with 3 or fewer menu items for analysis.").
  apply startsWith_app.
Qed.

Lemma extract_cases img w r w' :
  extractKoreanFoodNames svc img w = (r, w') ->
  foods w' = foods w /\ nextId w' = nextId w
  /\ log w' = (log w ++ [EvOcr img])%list
  /\ match r with
     | Ok ocr => decodeOcr (fst (openai_ocr svc img (ext w))) = Ok ocr
     | Throw msg =>
         msg = "Failed to extract food names from menu image"
         /\ exists cause, decodeOcr (fst (openai_ocr svc img (ext w))) = Throw cause
     end.
Proof.
  unfold extractKoreanFoodNames, tryCatch, bind, call, lift, throw.
  destruct (openai_ocr svc img (ext w)) as [reply x]; simpl.
  destruct (decodeOcr reply) as [ocr|cause]; intros Heq;
    injection Heq as <- <-; simpl; repeat split; eauto.
Qed.

Lemma analyze_after_extract img w ocr w1 :
  extractKoreanFoodNames svc img w = (Ok ocr, w1) ->
  overLimit (totalDetected ocr) = None ->
  analyzeKoreanMenu svc img w
  = if negb (isKoreanMenu ocr)
    then (Ok {| r_isKoreanMenu := false; dishes := [];
                r_tokenUsage := tokenUsage ocr |}, w1)
    else match resolveAll svc (extractedNames ocr) ([], tokenUsage ocr) w1 with
         | (Ok result, w2) =>
             (Ok {| r_isKoreanMenu := true; dishes := fst result;
                    r_tokenUsage := snd result |}, w2)
         | (Throw msg, w2) =>
             (if includes msg foodLimitTag then Throw msg
              else Throw analysisFailed, w2)
         end.
Proof.
  intros E O. unfold analyzeKoreanMenu, tryCatch. unfold bind at 1.
  rewrite E, O. destruct (negb (isKoreanMenu ocr)); [reflexivity|].
  unfold bind, ret, throw.
  destruct (resolveAll svc (extractedNames ocr) ([], tokenUsage ocr) w1)
    as [[result|msg] w2]; [reflexivity|].
  now destruct (includes msg foodLimitTag).
Qed.

End Outcomes.

(** X1.  Whatever makes the extraction fail (a rejected request, an empty
    content, unparseable JSON, a missing usage object), the caller sees one
    and the same message; exactly one OCR request was made and the table is
    as before. *)
Theorem extraction_failure_is_uniform {Ext} (svc : Services Ext)
    img w msg w' :
  extractKoreanFoodNames svc img w = (Throw msg, w') ->
  msg = "Failed to extract food names from menu image"
  /\ foods w' = foods w
  /\ log w' = (log w ++ [EvOcr img])%list
  /\ forall result usage,
       fst (openai_ocr svc img (ext w)) <> ApiOk (Json result) (Some usage).
Proof.
  intros E. apply extract_cases in E as (F & _ & L & M & cause & D).
  repeat split; trivial.
  intros result usage R. rewrite R in D. discriminate.
Qed.

Lemma extraction_failure_is_uniform_witness :
  let svc := Scenario.plain (ApiOk BadJson (Some Scenario.usage)) in
  let w := Scenario.start [Scenario.bibimbap] in
  exists msg w',
    extractKoreanFoodNames svc "img" w = (Throw msg, w')
    /\ msg = "Failed to extract food names from menu image"
    /\ foods w' = foods w
    /\ log w' = (log w ++ [EvOcr "img"])%list
    /\ forall result usage,
         fst (openai_ocr svc "img" (ext w)) <> ApiOk (Json result) (Some usage).
Proof.
  intros svc w.
  exists "Failed to extract food names from menu image",
         (mkWorld O [Scenario.bibimbap] 2 [EvOcr "img"]).
  assert (H : extractKoreanFoodNames svc "img" w
              = (Throw "Failed to extract food names from menu image",
                 mkWorld O [Scenario.bibimbap] 2 [EvOcr "img"]))
    by (vm_compute; reflexivity).
  exact (conj H (extraction_failure_is_uniform svc "img" w _ _ H)).
Defined.

(** X2.  When the analysis throws, the only external call was the OCR
    request and the table was not written.  The message is either the
    generic one, which the limit classifier rejects, and then no
    successful extraction reported more than 3 items; or the extraction
    succeeded and reported more than 3 items, and the message is a limit
    message, which the classifier accepts: it starts with the tagged text
    in front of the count and, for a count that prints as its digits, it is
    the limit message for that count. *)
Theorem analysis_failure_kinds {Ext} (svc : Services Ext) img w msg w' :
  analyzeKoreanMenu svc img w = (Throw msg, w') ->
  foods w' = foods w
  /\ log w' = (log w ++ [EvOcr img])%list
  /\ ((msg = analysisFailed /\ isFoodLimitError msg = false
       /\ forall ocr n w1,
            extractKoreanFoodNames svc img w = (Ok ocr, w1) ->
            totalDetected ocr = Some n -> n <= 3)
      \/ (exists ocr n,
            extractKoreanFoodNames svc img w = (Ok ocr, w')
            /\ totalDetected ocr = Some n /\ 3 < n
            /\ startsWith msg
                 "FOOD_LIMIT_ERROR: Too many menu items detected (" = true
            /\ (n <= maxExactInteger -> msg = foodLimitMessage n)
            /\ isFoodLimitError msg = true)).
Proof.
  intros A.
  destruct (extractKoreanFoodNames svc img w) as [[ocr|cause] w1] eqn:E.
  - destruct (overLimit (totalDetected ocr)) as [n|] eqn:O.
    + apply overLimit_some in O as (T & N).
      pose proof (extract_cases svc _ _ _ _ E) as (F & _ & L & _).
      assert (A' : analyzeKoreanMenu svc img w = (Throw (foodLimitMessage n), w1)).
      { unfold analyzeKoreanMenu, tryCatch, bind. rewrite E, T.
        rewrite (overLimit_above n N). unfold throw.
        now rewrite foodLimitMessage_tagged. }
      rewrite A' in A. injection A as <- <-.
      repeat split; trivial. right. exists ocr, n.
      split; [reflexivity|]. split; [exact T|]. split; [exact N|].
      split; [reflexivity|]. split; [reflexivity|].
      apply foodLimitMessage_classified.
    + rewrite (analyze_after_extract svc _ _ _ _ E O) in A.
      destruct (negb (isKoreanMenu ocr)); [discriminate|].
      destruct (resolveAll_collects svc (extractedNames ocr)
                  ([], tokenUsage ocr) w1) as (usage & w2 & R).
      rewrite R in A. discriminate.
  - pose proof (extract_cases svc _ _ _ _ E) as (F & _ & L & M & _).
    assert (A' : analyzeKoreanMenu svc img w = (Throw analysisFailed, w1)).
    { unfold analyzeKoreanMenu, tryCatch, bind. rewrite E. subst cause.
      reflexivity. }
    rewrite A' in A. injection A as <- <-.
    repeat split; trivial. left.
    split; [reflexivity|]. split; [reflexivity|].
    intros ocr n w2 Heq. discriminate Heq.
Qed.

Lemma analysis_failure_kinds_witness :
  let svc := Scenario.plain (Scenario.ocrReply ["비빔밥"] (Some 5)) in
  let w := Scenario.start [Scenario.bibimbap] in
  exists msg w',
    analyzeKoreanMenu svc "img" w = (Throw msg, w')
    /\ msg = "FOOD_LIMIT_ERROR: Too many menu items detected (5 items found). Please upload a photo with 3 or fewer menu items for analysis."
    /\ foods w' = foods w
    /\ log w' = (log w ++ [EvOcr "img"])%list
    /\ isFoodLimitError msg = true.
Proof.
  intros svc w.
  let c := eval vm_compute in (analyzeKoreanMenu svc "img" w) in
  match c with
  | (Throw ?m, ?v) => exists m, v
  end.
  match goal with
  | |- ?A /\ _ => assert (H : A) by (vm_compute; reflexivity)
  end.
  pose proof (analysis_failure_kinds svc "img" w _ _ H) as (F & L & _).
  exact (conj H (conj eq_refl (conj F (conj L eq_refl)))).
Defined.

(** X3.  When the model says the image is not a Korean menu (and does not
    report more than 3 items), the analysis returns an empty dish list with
    the OCR usage, whatever names were extracted: no name is resolved, the
    table is not read, and the OCR request is the only external call. *)
Theorem not_a_korean_menu {Ext} (svc : Services Ext) img w ocr w1 :
  extractKoreanFoodNames svc img w = (Ok ocr, w1) ->
  (forall n, totalDetected ocr = Some n -> n <= 3) ->
  isKoreanMenu ocr = false ->
  analyzeKoreanMenu svc img w
  = (Ok {| r_isKoreanMenu := false; dishes := [];
           r_tokenUsage := tokenUsage ocr |}, w1)
  /\ foods w1 = foods w
  /\ log w1 = (log w ++ [EvOcr img])%list.
Proof.
  intros E T K.
  rewrite (analyze_after_extract svc _ _ _ _ E (overLimit_within _ T)), K.
  apply extract_cases in E as (F & _ & L & _). auto.
Qed.

Lemma not_a_korean_menu_witness :
  let svc := Scenario.plain (Cases.foreignReply ["Pad Thai"; "Tom Yum"]) in
  let w := Scenario.start [Scenario.bibimbap] in
  exists ocr w1,
    extractKoreanFoodNames svc "img" w = (Ok ocr, w1)
    /\ extractedNames ocr = ["Pad Thai"; "Tom Yum"]
    /\ analyzeKoreanMenu svc "img" w
       = (Ok {| r_isKoreanMenu := false; dishes := [];
                r_tokenUsage := tokenUsage ocr |}, w1)
    /\ foods w1 = foods w
    /\ log w1 = (log w ++ [EvOcr "img"])%list.
Proof.
  intros svc w. run_exists (extractKoreanFoodNames svc "img" w).
  match goal with
  | |- ?A /\ _ => assert (H : A) by (vm_compute; reflexivity)
  end.
  refine (conj H (conj eq_refl (not_a_korean_menu svc "img" w _ _ H _ eq_refl))).
  simpl. intros n Hn. injection Hn as <-. lia.
Defined.

(** ** Usage accounting and table growth along an analysis *)

Section Accounting.

Context {Ext : Type} (svc : Services Ext).

Lemma createKoreanFood_cases food w r w' :
  createKoreanFood svc food w = (r, w') ->
  (exists msg, r = Throw msg /\ foods w' = foods w /\ nextId w' = nextId w)
  \/ (r = Ok (rowOf (nextId w) food)
      /\ foods w' = (foods w ++ [rowOf (nextId w) food])%list
      /\ nextId w' = nextId w + 1).
Proof.
  unfold createKoreanFood, bind, call, throw.
  destruct (db_insert_error svc food (ext w)) as [[msg|] x]; simpl;
    intros Heq; injection Heq as <- <-; simpl.
  - left. now exists msg.
  - right. auto.
Qed.

(** One resolution either leaves the table alone, or returns a generated
    dish and appends its row under the next serial. *)
Lemma resolveDish_store name w r w1 :
  resolveDish svc name w = (r, w1) ->
  (foods w1 = foods w /\ nextId w1 = nextId w
   /\ forall d, r = Ok d -> isAi d = false)
  \/ (exists d food,
        r = Ok d /\ isAi d = true
        /\ foods w1 = (foods w ++ [rowOf (nextId w) food])%list
        /\ nextId w1 = nextId w + 1
        /\ ins_nameKorean food = d_nameKorean d).
Proof.
  unfold resolveDish. unfold bind at 1.
  destruct (findKoreanFood svc name w) as [[found|msg] wa] eqn:Fd.
  2:{ intros Heq. injection Heq as <- <-.
      apply frame_findKoreanFood in Fd as (F & N & _).
      left. repeat split; trivial; discriminate. }
  apply frame_findKoreanFood in Fd as (Fa & Na & _).
  destruct found as [row|].
  - intros R. left.
    destruct r as [d|msg].
    + pose proof (resolveFromStore_ok svc _ _ _ _ _ R) as (_ & _ & _ & _ & _ & Sd).
      apply frame_resolveFromStore in R as (F & N & _).
      repeat split; try congruence.
      intros d' Hd. injection Hd as <-. unfold isAi. now rewrite Sd.
    + apply frame_resolveFromStore in R as (F & N & _).
      repeat split; try congruence; discriminate.
  - unfold resolveFromAI. unfold bind at 1.
    destruct (getFoodDetailsFromAI svc name wa) as [[aiData|msg] wb] eqn:A.
    2:{ intros Heq. injection Heq as <- <-.
        apply frame_details in A as (F & N & _).
        left. repeat split; try congruence; discriminate. }
    apply frame_details in A as (Fb & Nb & _).
    unfold bind at 1.
    destruct (searchKoreanFood svc name (Some (ins_nameEnglish aiData)) wb)
      as [[imageResult|msg] wc] eqn:I.
    2:{ intros Heq. injection Heq as <- <-.
        apply frame_searchKoreanFood in I as (F & N & _).
        left. repeat split; try congruence; discriminate. }
    apply frame_searchKoreanFood in I as (Fc & Nc & _).
    destruct (parseImageResult imageResult) as [u a].
    unfold bind.
    destruct (createKoreanFood svc (withImageUrl aiData u) wc)
      as [[saved|msg] wd] eqn:C.
    + apply createKoreanFood_cases in C as [(m & Hm & _)|(Hs & Fd' & Nd)];
        [discriminate|].
      injection Hs as ->.
      unfold ret. intros Heq. injection Heq as <- <-.
      right. eexists _, (withImageUrl aiData u).
      split; [reflexivity|]. split; [reflexivity|].
      assert (Hid : nextId wc = nextId w) by congruence.
      rewrite Hid in *. repeat split; try congruence.
    + apply createKoreanFood_cases in C as [(m & _ & Fd' & Nd)|(Hs & _)];
        [|discriminate].
      intros Heq. injection Heq as <- <-.
      left. repeat split; try congruence; discriminate.
Qed.

(** The loop's accumulators, usage and table, in terms of the dishes it
    pushed. *)
Lemma resolveAll_accounts names : forall acc w result w',
  resolveAll svc names acc w = (Ok result, w') ->
  exists pushed added,
    fst result = (fst acc ++ pushed)%list
    /\ snd result
       = Nat.iter (List.length (filter isAi pushed)) addDetailsEstimate (snd acc)
    /\ foods w' = (foods w ++ added)%list
    /\ map nameKorean added = map d_nameKorean (filter isAi pushed).
Proof.
  induction names as [|name rest IH]; intros acc w result w'; simpl.
  - intros Heq. injection Heq as <- <-. exists [], [].
    rewrite !app_nil_r. simpl. repeat split.
  - unfold bind at 1. unfold tryCatch, bind.
    destruct (resolveDish svc name w) as [[d|msg] w1] eqn:R; simpl.
    + intros A. destruct (IH _ _ _ _ A) as (pushed & added & P & U & F & Nm).
      apply resolveDish_store in R
        as [(F1 & N1 & Hdb)|(d' & food & Hd & Hai & F1 & N1 & Hname)].
      * specialize (Hdb d eq_refl).
        exists (d :: pushed), added. simpl in P |- *. rewrite Hdb.
        split; [now rewrite P, <- app_assoc|].
        split; [unfold account in U; simpl in U; unfold isAi in Hdb;
                destruct (source d); [exact U | discriminate]|].
        rewrite <- F1. auto.
      * injection Hd as <-.
        exists (d :: pushed), (rowOf (nextId w) food :: added).
        simpl in P |- *. rewrite Hai.
        split; [now rewrite P, <- app_assoc|].
        split.
        { unfold account in U; simpl in U. unfold isAi in Hai.
          destruct (source d); [discriminate|].
          rewrite U. rewrite <- Nat.iter_succ_r. reflexivity. }
        split; [rewrite F, F1, <- app_assoc; reflexivity|].
        simpl. now rewrite Hname, Nm.
    + intros A. destruct (IH _ _ _ _ A) as (pushed & added & P & U & F & Nm).
      apply resolveDish_store in R
        as [(F1 & N1 & _)|(d' & food & Hd & _)]; [|discriminate].
      exists pushed, added. rewrite <- F1. auto 10.
Qed.

End Accounting.

Section AnalysisShape.

Context {Ext : Type} (svc : Services Ext).

(** How an analysis ends, by the outcome of its extraction. *)
Lemma analyze_inv img w r w' :
  analyzeKoreanMenu svc img w = (r, w') ->
  (exists msg, r = Throw msg /\ foods w' = foods w /\ nextId w' = nextId w)
  \/ (exists ocr w1,
        extractKoreanFoodNames svc img w = (Ok ocr, w1)
        /\ foods w1 = foods w /\ nextId w1 = nextId w
        /\ ((isKoreanMenu ocr = false /\ w' = w1
             /\ r = Ok {| r_isKoreanMenu := false; dishes := [];
                          r_tokenUsage := tokenUsage ocr |})
            \/ (isKoreanMenu ocr = true
                /\ exists result,
                     resolveAll svc (extractedNames ocr)
                       ([], tokenUsage ocr) w1 = (Ok result, w')
                     /\ r = Ok {| r_isKoreanMenu := true;
                                  dishes := fst result;
                                  r_tokenUsage := snd result |}))).
Proof.
  intros A.
  destruct (extractKoreanFoodNames svc img w) as [[ocr|cause] w1] eqn:E.
  - pose proof (extract_cases svc _ _ _ _ E) as (F & N & _).
    destruct (overLimit (totalDetected ocr)) as [n|] eqn:O.
    + left. apply overLimit_some in O as (T & Hn).
      unfold analyzeKoreanMenu, tryCatch, bind in A. rewrite E, T in A.
      rewrite (overLimit_above n Hn) in A. unfold throw in A.
      rewrite foodLimitMessage_tagged in A. injection A as <- <-.
      eexists. split; [reflexivity|]. now split.
    + right. exists ocr, w1. split; [reflexivity|]. split; [exact F|].
      split; [exact N|].
      rewrite (analyze_after_extract svc _ _ _ _ E O) in A.
      destruct (isKoreanMenu ocr); simpl in A.
      * right. split; [reflexivity|].
        destruct (resolveAll_collects svc (extractedNames ocr)
                    ([], tokenUsage ocr) w1) as (usage & w2 & R).
        rewrite R in A. injection A as <- <-. eexists. split; [exact R|].
        reflexivity.
      * left. injection A as <- <-. auto.
  - left. pose proof (extract_cases svc _ _ _ _ E) as (F & N & _).
    unfold analyzeKoreanMenu, tryCatch, bind in A. rewrite E in A.
    destruct (includes cause foodLimitTag); unfold throw in A;
      injection A as <- <-; eexists; (split; [reflexivity|]); now split.
Qed.

End AnalysisShape.

(** X4.  The usage an analysis reports is the OCR usage plus the fixed
    estimate (200 prompt, 400 completion, 600 total tokens, 0.004 USD,
    0.006 AUD) once for every dish it returns with source [ai], added one
    after the other in double arithmetic; dishes served from the table add
    nothing. *)
Theorem analysis_usage_accounting {Ext} (svc : Services Ext) img w a w' :
  analyzeKoreanMenu svc img w = (Ok a, w') ->
  exists ocr w1,
    extractKoreanFoodNames svc img w = (Ok ocr, w1)
    /\ r_tokenUsage a
       = Nat.iter (List.length (filter isAi (dishes a)))
                  addDetailsEstimate (tokenUsage ocr).
Proof.
  intros A. apply analyze_inv in A as [(msg & Hm & _)|(ocr & w1 & E & _ & _ & A)];
    [discriminate|].
  exists ocr, w1. split; [exact E|].
  destruct A as [(_ & _ & Hr)|(_ & result & R & Hr)]; injection Hr as ->.
  - reflexivity.
  - apply resolveAll_accounts in R as (pushed & added & P & U & _).
    simpl in *. now rewrite P.
Qed.

Lemma analysis_usage_accounting_witness :
  let names := ["비빔밥"; "김치찌개"; "호떡"] in
  let svc := Scenario.plain (Scenario.ocrReply names (Some 3)) in
  let w := Scenario.start [Scenario.bibimbap] in
  exists a w',
    analyzeKoreanMenu svc "img" w = (Ok a, w')
    /\ map source (dishes a) = [database; ai]
    /\ prompt_tokens (r_tokenUsage a) = 1200%float
    /\ cost_usd (r_tokenUsage a) = 0.007%float
    /\ exists ocr w1,
         extractKoreanFoodNames svc "img" w = (Ok ocr, w1)
         /\ r_tokenUsage a
            = Nat.iter (List.length (filter isAi (dishes a)))
                       addDetailsEstimate (tokenUsage ocr).
Proof.
  intros names svc w. run_exists (analyzeKoreanMenu svc "img" w).
  match goal with
  | |- ?A /\ _ => assert (H : A) by (vm_compute; reflexivity)
  end.
  refine (conj H (conj eq_refl (conj _ (conj _
            (analysis_usage_accounting svc "img" w _ _ H)))));
    vm_compute; reflexivity.
Defined.

(** X5.  An analysis only ever appends to the table: the rows it found are
    still there, in place, and the rows it added correspond, in order, to
    the dishes it returns with source [ai].  An analysis that throws added
    nothing. *)
Theorem analysis_only_appends {Ext} (svc : Services Ext) img w r w' :
  analyzeKoreanMenu svc img w = (r, w') ->
  exists added,
    foods w' = (foods w ++ added)%list
    /\ match r with
       | Ok a => map nameKorean added
                 = map d_nameKorean (filter isAi (dishes a))
       | Throw _ => added = []
       end.
Proof.
  intros A.
  apply analyze_inv in A
    as [(msg & -> & F & _)|(ocr & w1 & E & F1 & N1 & A)].
  - exists []. rewrite app_nil_r. auto.
  - destruct A as [(_ & -> & ->)|(_ & result & R & ->)].
    + exists []. rewrite app_nil_r. auto.
    + apply resolveAll_accounts in R as (pushed & added & P & _ & F & Nm).
      exists added. simpl in *. rewrite F, F1, P. auto.
Qed.

Lemma analysis_only_appends_witness :
  let names := ["호떡"; "비빔밥"; "호떡"] in
  let svc := Scenario.plain (Scenario.ocrReply names (Some 3)) in
  let w := Scenario.start [Scenario.bibimbap] in
  exists a w',
    analyzeKoreanMenu svc "img" w = (Ok a, w')
    /\ map source (dishes a) = [ai; database; database]
    /\ map nameKorean (foods w') = ["비빔밥"; "호떡"]
    /\ exists added,
         foods w' = (foods w ++ added)%list
         /\ map nameKorean added = map d_nameKorean (filter isAi (dishes a)).
Proof.
  intros names svc w. run_exists (analyzeKoreanMenu svc "img" w).
  match goal with
  | |- ?A /\ _ => assert (H : A) by (vm_compute; reflexivity)
  end.
  exact (conj H (conj eq_refl (conj eq_refl
           (analysis_only_appends svc "img" w _ _ H)))).
Defined.

(** ** Image search never throws, and what it returns *)

Section Always.

Context {Ext : Type}.

Lemma always_ret {A} (Q : Res A -> Prop) a :
  Q (Ok a) -> always Q (ret (Ext:=Ext) a).
Proof. intros Ha w r w' Heq. injection Heq as <- _. exact Ha. Qed.

Lemma always_bind {A B} (Qa : Res A -> Prop) (Q : Res B -> Prop)
    (m : M Ext A) (k : A -> M Ext B) :
  always Qa m ->
  (forall a, Qa (Ok a) -> always Q (k a)) ->
  (forall msg, Qa (Throw msg) -> Q (Throw msg)) ->
  always Q (bind m k).
Proof.
  intros Hm Hk Ht w r w'. unfold bind.
  destruct (m w) as [[a|msg] w1] eqn:E; intros Heq.
  - exact (Hk a (Hm _ _ _ E) _ _ _ Heq).
  - injection Heq as <- _. exact (Ht msg (Hm _ _ _ E)).
Qed.

Lemma always_tryCatch {A} (Qb Q : Res A -> Prop) (body : M Ext A) handler :
  always Qb body ->
  (forall a, Qb (Ok a) -> Q (Ok a)) ->
  (forall msg, always Q (handler msg)) ->
  always Q (tryCatch body handler).
Proof.
  intros Hb Ho Hh w r w'. unfold tryCatch.
  destruct (body w) as [[a|msg] w1] eqn:E; intros Heq.
  - injection Heq as <- _. exact (Ho a (Hb _ _ _ E)).
  - exact (Hh msg _ _ _ Heq).
Qed.

Lemma always_call {A} (Q : Res A -> Prop) e (oracle : Ext -> A * Ext) :
  (forall x, Q (Ok (fst (oracle x)))) -> always Q (call e oracle).
Proof.
  intros Hq w r w'. unfold call. specialize (Hq (ext w)).
  destruct (oracle (ext w)) as [a x]. intros Heq. injection Heq as <- _.
  exact Hq.
Qed.

Lemma always_weaken {A} (P Q : Res A -> Prop) (m : M Ext A) :
  (forall r, P r -> Q r) -> always P m -> always Q m.
Proof. intros PQ Hm w r w' Heq. exact (PQ _ (Hm _ _ _ Heq)). Qed.

Lemma always_any {A} (m : M Ext A) : always (fun _ => True) m.
Proof. intros w r w' _. exact I. Qed.

End Always.

Section ImageShape.

Context {Ext : Type} (svc : Services Ext).

Lemma searchNaverLoop_returns queries :
  always isOk (searchNaverLoop svc queries).
Proof.
  induction queries as [|q rest IH]; simpl.
  - now apply always_ret.
  - apply always_bind with (Qa := isOk).
    + apply always_call. intros x. exact I.
    + intros [items|] _; [|exact IH].
      destruct (naverPick q items); [now apply always_ret | exact IH].
    + intros msg [].
Qed.

Lemma searchPexels_returns kn en : always isOk (searchPexels svc kn en).
Proof.
  unfold searchPexels. destruct (keyMissing _); [now apply always_ret|].
  induction (pexelsQueries en) as [|q rest IH]; simpl.
  - now apply always_ret.
  - apply always_bind with (Qa := isOk).
    + apply always_call. intros x. exact I.
    + intros [photos|] _; [|exact IH].
      destruct (pexelsPick en q photos); [now apply always_ret | exact IH].
    + intros msg [].
Qed.

Lemma searchPixabay_returns kn en : always isOk (searchPixabay svc kn en).
Proof.
  unfold searchPixabay. destruct (keyMissing _); [now apply always_ret|].
  induction (pixabayQueries en) as [|q rest IH]; simpl.
  - now apply always_ret.
  - apply always_bind with (Qa := isOk).
    + apply always_call. intros x. exact I.
    + intros [hits|] _; [|exact IH].
      destruct (pixabayPick en q hits); [now apply always_ret | exact IH].
    + intros msg [].
Qed.

(** A probe answers [true] only for a defined URL the oracle accepted. *)
Lemma validateImageUrl_sound target :
  always (returns (fun valid =>
            valid = true ->
            exists u x, target = Some u /\ fst (http_head svc u x) = true))
         (validateImageUrl svc target).
Proof.
  destruct target as [u|]; simpl.
  - apply always_call. intros x Hv. now exists u, x.
  - apply always_ret. simpl. discriminate.
Qed.

Lemma alternativesLoop_returns kn en qs alts :
  always isOk (alternativesLoop svc kn en qs alts).
Proof.
  revert alts. induction qs as [|q rest IH]; intros alts; simpl.
  - now apply always_ret.
  - apply always_bind with (Qa := isOk).
    + apply searchNaverLoop_returns.
    + intros [r|] _; apply IH.
    + intros msg [].
Qed.

Lemma firstValid_probed alts :
  always (returns (probed svc)) (firstValid svc alts).
Proof.
  induction alts as [|[u acc] rest IH]; simpl.
  - now apply always_ret.
  - eapply always_bind; [apply validateImageUrl_sound| |intros msg []].
    intros [|] Hv; [|exact IH].
    apply always_ret. simpl in *.
    destruct (Hv eq_refl) as (u' & x & -> & Hx). now exists u', acc, x.
Qed.

Lemma retryAttempts_probed kn en attempted :
  always (returns (probed svc)) (retryAttempts svc kn en attempted).
Proof.
  induction attempted as [|a rest IH]; simpl.
  - now apply always_ret.
  - destruct (a_source a); try exact IH.
    apply always_bind with (Qa := isOk).
    + apply alternativesLoop_returns.
    + intros alts _.
      eapply always_bind; [apply firstValid_probed| |intros msg []].
      intros [s|] Hs; [now apply always_ret | exact IH].
    + intros msg [].
Qed.

Lemma tryCandidate_probed result src attempted next :
  (forall l, always (returns (probed svc)) (next l)) ->
  always (returns (probed svc)) (tryCandidate svc result src attempted next).
Proof.
  intros Hn. unfold tryCandidate. destruct result as [r|]; [|apply Hn].
  eapply always_bind; [apply validateImageUrl_sound| |intros msg []].
  intros [|] Hv; [|apply Hn].
  apply always_ret. simpl in *.
  destruct (Hv eq_refl) as (u & x & Hu & Hx). rewrite Hu.
  now exists u, (accuracy r), x.
Qed.

Lemma searchKoreanFoodImage_probed kn en :
  always (returns (probed svc)) (searchKoreanFoodImage svc kn en).
Proof.
  unfold searchKoreanFoodImage.
  apply always_tryCatch with (Qb := fun r => forall a, r = Ok a -> probed svc a).
  - apply always_bind with (Qa := isOk);
      [apply searchNaverLoop_returns| |intros msg []].
    intros r1 _.
    eapply always_weaken;
      [|apply tryCandidate_probed].
    + intros [o|msg] Hr a Ha; [injection Ha as <-; exact Hr | discriminate].
    + intros l1.
      apply always_bind with (Qa := isOk);
        [apply searchPexels_returns| |intros msg []].
      intros r2 _. apply tryCandidate_probed. intros l2.
      apply always_bind with (Qa := isOk);
        [apply searchPixabay_returns| |intros msg []].
      intros r3 _. apply tryCandidate_probed. intros l3.
      apply retryAttempts_probed.
  - intros a Ha. exact (Ha a eq_refl).
  - intros msg. now apply always_ret.
Qed.

Lemma probed_wellFormed o : probed svc o -> wellFormed o.
Proof.
  destruct o as [s|]; simpl; [|trivial].
  intros (u & acc & x & Hs & _). now exists u, acc.
Qed.

Lemma searchKoreanFood_wellFormed kn english :
  always (returns wellFormed) (searchKoreanFood svc kn english).
Proof.
  unfold searchKoreanFood.
  eapply always_bind; [apply searchKoreanFoodImage_probed| |intros msg []].
  intros o Ho. simpl in Ho.
  destruct (present o); [apply always_ret; now apply probed_wellFormed|].
  destruct (negb _); [now apply always_ret|].
  apply always_tryCatch with (Qb := fun r => forall a, r = Ok a -> wellFormed a).
  - destruct (orElse english None) as [en|];
      [|apply always_ret; intros a Ha; injection Ha as <-; exact I].
    induction (searchQueries en) as [|q rest IH]; simpl.
    + apply always_ret. intros a Ha. injection Ha as <-. exact I.
    + apply always_bind with (Qa := isOk);
        [apply always_call; intros x; exact I| |intros msg []].
      intros [images|] _.
      * destruct (best (unsplashScore q) images) as [[b s]|]; [|exact IH].
        apply always_ret. intros a Ha. injection Ha as <-. simpl.
        now exists (i_regular b), (unsplashAccuracy s).
      * intros w r w' Heq. injection Heq as <- _. discriminate.
  - intros a Ha. exact (Ha a eq_refl).
  - intros msg. now apply always_ret.
Qed.

End ImageShape.

(** X6.  The waterfall never throws, and a URL it returns has passed the
    HEAD probe: its answer is none, or the text of a probed URL and an
    accuracy.  In particular, when no probe succeeds it answers none. *)
Theorem waterfall_returns_probed_urls {Ext} (svc : Services Ext)
    kn en w r w' :
  searchKoreanFoodImage svc kn en w = (r, w') ->
  exists answer,
    r = Ok answer
    /\ match answer with
       | None => True
       | Some s =>
           exists u acc x,
             s = rendered (Some u) acc /\ fst (http_head svc u x) = true
       end
    /\ ((forall u x, fst (http_head svc u x) = false) -> answer = None).
Proof.
  intros Heq. pose proof (searchKoreanFoodImage_probed svc kn en _ _ _ Heq) as P.
  destruct r as [answer|msg]; [|destruct P].
  exists answer. split; [reflexivity|]. split; [exact P|].
  intros Hno. destruct answer as [s|]; [|reflexivity].
  destruct P as (u & acc & x & _ & Hx). rewrite Hno in Hx. discriminate.
Qed.

Lemma waterfall_returns_probed_urls_witness :
  let svc := Cases.everyProvider
               (fun u => String.eqb u "https://cdn.pixabay.com/photo/1.jpg") in
  let w := Scenario.start [] in
  exists r w',
    searchKoreanFoodImage svc "비빔밥" "Bibimbap" w = (r, w')
    /\ r = Ok (Some "https://cdn.pixabay.com/photo/1.jpg|high")
    /\ exists answer,
         r = Ok answer
         /\ match answer with
            | None => True
            | Some s =>
                exists u acc x,
                  s = rendered (Some u) acc /\ fst (http_head svc u x) = true
            end
         /\ ((forall u x, fst (http_head svc u x) = false) -> answer = None).
Proof.
  intros svc w.
  let c := eval vm_compute in (searchKoreanFoodImage svc "비빔밥" "Bibimbap" w) in
  match c with
  | (?r, ?w') => exists r, w'
  end.
  match goal with
  | |- ?A /\ _ => assert (H : A) by (vm_compute; reflexivity)
  end.
  exact (conj H (conj eq_refl
           (waterfall_returns_probed_urls svc "비빔밥" "Bibimbap" w _ _ H))).
Defined.

Section StoredDish.

Context {Ext : Type} (svc : Services Ext).

Lemma findKoreanFood_healthy name w :
  fst (db_select_error svc name (ext w)) = None ->
  exists w1,
    findKoreanFood svc name w = (Ok (selectByName name (foods w)), w1)
    /\ foods w1 = foods w.
Proof.
  unfold findKoreanFood, bind, call.
  destruct (db_select_error svc name (ext w)) as [err x]. simpl.
  intros ->. eexists. split; reflexivity.
Qed.

(** The round trip of an image answer through its text, for a URL without
    the separator. *)
Lemma parse_rendered u acc :
  includes u "|" = false ->
  parseImageResult (Some (rendered (Some u) acc)) = (Some u, accuracyText acc).
Proof.
  intros Hu. unfold parseImageResult. rewrite truthy_rendered.
  unfold rendered, interp. rewrite (split_first u _ Hu).
  destruct acc; reflexivity.
Qed.

End StoredDish.

(** X7.  A failing image search never costs a stored dish: when the name is
    in the table and the database answers the select, the resolution
    returns a dish with the stored descriptive fields, and the table is as
    before. *)
Theorem stored_dish_always_resolves {Ext} (svc : Services Ext) name row w :
  selectByName name (foods w) = Some row ->
  fst (db_select_error svc name (ext w)) = None ->
  exists d w',
    resolveDish svc name w = (Ok d, w')
    /\ descriptiveFields d = storedFields row
    /\ source d = database
    /\ foods w' = foods w.
Proof.
  intros Hrow Hdb.
  destruct (findKoreanFood_healthy svc name w Hdb) as (w1 & Fd & F1).
  destruct (resolveDish svc name w) as [r w'] eqn:R.
  pose proof (resolve_stored_no_write svc _ _ _ _ _ Hrow R) as (F & _).
  unfold resolveDish in R. rewrite (bind_run _ _ _ _ _ Fd), Hrow in R.
  unfold resolveFromStore in R. unfold bind in R.
  destruct (searchKoreanFood svc name (Some (nameEnglish row)) w1)
    as [[answer|msg] w2] eqn:S.
  - destruct (parseImageResult answer) as [u a]. unfold ret in R.
    injection R as <- <-. eexists _, _. split; [reflexivity|].
    repeat split. exact F.
  - destruct (searchKoreanFood_wellFormed svc _ _ _ _ _ S).
Qed.

Lemma stored_dish_always_resolves_witness :
  let svc := Cases.everyProvider (fun _ => false) in
  let w := Scenario.start [Scenario.bibimbap] in
  exists d w',
    resolveDish svc "비빔밥" w = (Ok d, w')
    /\ descriptiveFields d = storedFields Scenario.bibimbap
    /\ source d = database
    /\ foods w' = foods w.
Proof.
  intros svc w.
  exact (stored_dish_always_resolves svc "비빔밥" Scenario.bibimbap w
           eq_refl eq_refl).
Defined.

(** X8.  The image attributes of a dish are those of the image search's
    answer: with no answer, no URL and accuracy ['high']; with an answer
    for a URL that does not contain the separator ['|'], that URL and the
    answer's accuracy tier, one of ['high'], ['medium'], ['low']. *)
Theorem dish_image_round_trip {Ext} (svc : Services Ext) name w d w' :
  resolveDish svc name w = (Ok d, w') ->
  exists english w1 answer w2,
    searchKoreanFood svc name (Some english) w1 = (Ok answer, w2)
    /\ match answer with
       | None => d_imageUrl d = None /\ d_imageAccuracy d = "high"
       | Some s =>
           exists u acc,
             s = rendered (Some u) acc
             /\ (includes u "|" = false ->
                 d_imageUrl d = Some u
                 /\ d_imageAccuracy d = accuracyText acc)
       end.
Proof.
  intros R. apply resolveDish_cases in R as (w1 & _ & R).
  assert (G : forall answer,
             wellFormed answer ->
             (d_imageUrl d, d_imageAccuracy d) = parseImageResult answer ->
             match answer with
             | None => d_imageUrl d = None /\ d_imageAccuracy d = "high"
             | Some s =>
                 exists u acc,
                   s = rendered (Some u) acc
                   /\ (includes u "|" = false ->
                       d_imageUrl d = Some u
                       /\ d_imageAccuracy d = accuracyText acc)
             end).
  { intros [s|] Wf P.
    - destruct Wf as (u & acc & ->). exists u, acc. split; [reflexivity|].
      intros Hu. rewrite (parse_rendered u acc Hu) in P.
      injection P as -> ->. now split.
    - rewrite parse_no_result in P. injection P as -> ->. now split. }
  destruct (selectByName name (foods w)) as [row|].
  - apply resolveFromStore_ok in R as (answer & S & P & _).
    exists (nameEnglish row), w1, answer, w'. split; [exact S|].
    apply G; [|exact P]. exact (searchKoreanFood_wellFormed svc _ _ _ _ _ S).
  - apply resolveFromAI_ok in R
      as (aiData & w2 & answer & w3 & saved & _ & S & _ & P & _).
    exists (ins_nameEnglish aiData), w2, answer, w3. split; [exact S|].
    apply G; [|exact P]. exact (searchKoreanFood_wellFormed svc _ _ _ _ _ S).
Qed.

Lemma dish_image_round_trip_witness :
  let svc := Scenario.naverOnly [Scenario.plainItem] in
  let w := Scenario.start [Scenario.bibimbap] in
  exists d w',
    resolveDish svc "비빔밥" w = (Ok d, w')
    /\ d_imageUrl d = Some "https://example.com/bibimbap.jpg"
    /\ d_imageAccuracy d = "low"
    /\ exists english w1 answer w2,
         searchKoreanFood svc "비빔밥" (Some english) w1 = (Ok answer, w2)
         /\ match answer with
            | None => d_imageUrl d = None /\ d_imageAccuracy d = "high"
            | Some s =>
                exists u acc,
                  s = rendered (Some u) acc
                  /\ (includes u "|" = false ->
                      d_imageUrl d = Some u
                      /\ d_imageAccuracy d = accuracyText acc)
            end.
Proof.
  intros svc w. run_exists (resolveDish svc "비빔밥" w).
  match goal with
  | |- ?A /\ _ => assert (H : A) by (vm_compute; reflexivity)
  end.
  exact (conj H (conj eq_refl (conj eq_refl
           (dish_image_round_trip svc "비빔밥" w _ _ H)))).
Defined.

(** A URL that contains the separator does not survive the round trip: the
    dish gets the part before the first ['|'] as its URL and the part after
    it as its accuracy. *)
Example image_url_with_separator :
  parseImageResult (Some (rendered (Some "https://example.com/a|b.jpg") low))
  = (Some "https://example.com/a", "b.jpg").
Proof. reflexivity. Qed.

(** ** Generated dishes *)

Section Generated.

Context {Ext : Type} (svc : Services Ext).

Lemma getFoodDetailsFromAI_ok name w aiData w1 :
  getFoodDetailsFromAI svc name w = (Ok aiData, w1) ->
  exists foodData usage,
    fst (openai_details svc name (ext w)) = ApiOk (Json foodData) usage
    /\ decodeFood (ApiOk (Json foodData) usage) = Ok aiData
    /\ foods w1 = foods w /\ nextId w1 = nextId w.
Proof.
  unfold getFoodDetailsFromAI, tryCatch, bind, call, lift, throw.
  destruct (openai_details svc name (ext w)) as [reply x]. simpl.
  destruct reply as [msg|[| |foodData] usage]; simpl; try discriminate.
  intros Heq. injection Heq as <- <-. exists foodData, usage. auto.
Qed.

Lemma description_default_truthy given english :
  truthy (interp (orElse given (Some ("Traditional Korean " ++ english))))
  = true.
Proof. destruct given as [[|c s]|]; reflexivity. Qed.

(** A generated dish, field by field. *)
Lemma resolveFromAI_answer name w d w' :
  resolveFromAI svc name w = (Ok d, w') ->
  exists foodData usage food,
    fst (openai_details svc name (ext w)) = ApiOk (Json foodData) usage
    /\ coreFields d = answerFields foodData
    /\ d_descriptionEnglish d
       = interp (orElse (f_descriptionEnglish foodData)
                   (Some ("Traditional Korean " ++ f_nameEnglish foodData)))
    /\ foods w' = (foods w ++ [rowOf (nextId w) food])%list
    /\ rowFields (rowOf (nextId w) food) = coreFields d
    /\ imageUrl (rowOf (nextId w) food) = d_imageUrl d.
Proof.
  unfold resolveFromAI. intros R.
  apply bind_ok in R as (aiData & w1 & A & R).
  apply bind_ok in R as (answer & w2 & S & R).
  destruct (parseImageResult answer) as [u a].
  apply bind_ok in R as (saved & w3 & C & R).
  unfold ret in R. injection R as <- <-.
  apply getFoodDetailsFromAI_ok in A as (foodData & usage & Hr & D & F1 & N1).
  apply frame_searchKoreanFood in S as (F2 & N2 & _).
  apply createKoreanFood_ok in C as (-> & F3 & _).
  simpl in D. injection D as <-.
  assert (Hid : nextId w2 = nextId w) by congruence.
  exists foodData, usage,
    (withImageUrl
       {| ins_nameKorean := f_nameKorean foodData;
          ins_nameEnglish := f_nameEnglish foodData;
          ins_description := f_description foodData;
          ins_descriptionEnglish :=
            interp (orElse (f_descriptionEnglish foodData)
                      (Some ("Traditional Korean " ++ f_nameEnglish foodData)));
          ins_ingredients := orDefault (f_ingredients foodData) [];
          ins_calories := orZero (f_calories foodData);
          ins_category := f_category foodData;
          ins_spiciness := orZero (f_spiciness foodData);
          ins_allergens := orDefault (f_allergens foodData) [];
          ins_isVegetarian := orDefault (f_isVegetarian foodData) false;
          ins_isVegan := orDefault (f_isVegan foodData) false;
          ins_servingSize := f_servingSize foodData;
          ins_cookingMethod := f_cookingMethod foodData;
          ins_region := f_region foodData;
          ins_imageUrl := None |} u).
  split; [exact Hr|]. split; [reflexivity|]. split.
  - destruct (f_descriptionEnglish foodData) as [[|c s]|]; reflexivity.
  - rewrite F3, Hid, F2, F1. split; [reflexivity|]. split; reflexivity.
Qed.

End Generated.

(** X9.  A generated dish shows the model's answer with the defaults
    applied (no ingredients or allergens: empty lists; no calories or
    spiciness: 0; no vegetarian or vegan flag: false), and its English
    description is never empty: the model's when it gave a non-empty one,
    otherwise "Traditional Korean " followed by the English name. *)
Theorem generated_dish_fields {Ext} (svc : Services Ext) name w d w' :
  selectByName name (foods w) = None ->
  resolveDish svc name w = (Ok d, w') ->
  exists foodData usage x,
    fst (openai_details svc name x) = ApiOk (Json foodData) usage
    /\ coreFields d = answerFields foodData
    /\ d_descriptionEnglish d
       = interp (orElse (f_descriptionEnglish foodData)
                   (Some ("Traditional Korean " ++ f_nameEnglish foodData)))
    /\ truthy (d_descriptionEnglish d) = true.
Proof.
  intros Hnone R. apply resolveDish_cases in R as (w1 & _ & R).
  rewrite Hnone in R.
  apply resolveFromAI_answer in R as (foodData & usage & food & Hr & Hc & Hd & _).
  exists foodData, usage, (ext w1). split; [exact Hr|]. split; [exact Hc|].
  split; [exact Hd|]. rewrite Hd. apply description_default_truthy.
Qed.

Lemma generated_dish_fields_witness :
  let svc := Scenario.plain (Scenario.ocrReply [] None) in
  let w := Scenario.start [Scenario.bibimbap] in
  exists d w',
    resolveDish svc "호떡" w = (Ok d, w')
    /\ d_descriptionEnglish d = "Traditional Korean Hotteok"
    /\ d_spiciness d = 0
    /\ d_isVegan d = false
    /\ exists foodData usage x,
         fst (openai_details svc "호떡" x) = ApiOk (Json foodData) usage
         /\ coreFields d = answerFields foodData
         /\ d_descriptionEnglish d
            = interp (orElse (f_descriptionEnglish foodData)
                        (Some ("Traditional Korean " ++ f_nameEnglish foodData)))
         /\ truthy (d_descriptionEnglish d) = true.
Proof.
  intros svc w. run_exists (resolveDish svc "호떡" w).
  match goal with
  | |- ?A /\ _ => assert (H : A) by (vm_compute; reflexivity)
  end.
  exact (conj H (conj eq_refl (conj eq_refl (conj eq_refl
           (generated_dish_fields svc "호떡" w _ _ eq_refl H))))).
Defined.

Section Warming.

Context {Ext : Type} (svc : Services Ext).

Lemma stored_core d row :
  descriptiveFields d = storedFields row ->
  coreFields d = rowFields row
  /\ d_descriptionEnglish d = "Traditional Korean " ++ nameEnglish row.
Proof.
  unfold descriptiveFields, storedFields, coreFields, rowFields.
  intros Heq. injection Heq as -> -> -> -> -> -> -> -> -> -> -> -> -> ->.
  split; reflexivity.
Qed.

(** The external calls of resolving a stored name: the select, then image
    calls. *)
Lemma resolve_stored_calls name row w r w' :
  selectByName name (foods w) = Some row ->
  resolveDish svc name w = (r, w') ->
  exists evs,
    log w' = (log w ++ EvFind name :: evs)%list
    /\ Forall (imageCallWithin (fallbackQueries (Some (nameEnglish row)))) evs.
Proof.
  intros Hrow. unfold resolveDish, bind.
  destruct (findKoreanFood svc name w) as [[found|msg] w1] eqn:Fd.
  - pose proof (findKoreanFood_ok _ _ _ _ _ Fd) as (Hf & _ & _ & L1).
    rewrite Hrow in Hf. subst found. unfold resolveFromStore. intros R.
    assert (Fr : frame (imageCallWithin (fallbackQueries (Some (nameEnglish row))))
                   (resolveFromStore svc name row)).
    { unfold resolveFromStore. apply frame_bind;
        [apply frame_searchKoreanFood|].
      intros x. destruct (parseImageResult x). apply frame_ret. }
    apply Fr in R as (_ & _ & evs & L2 & P2).
    exists evs. split; [|exact P2]. rewrite L2, L1. now rewrite <- app_assoc.
  - intros Heq. injection Heq as <- <-.
    unfold findKoreanFood, bind, call, throw in Fd.
    destruct (db_select_error svc name (ext w)) as [[m|] x]; simpl in Fd;
      [|discriminate].
    injection Fd as _ <-. simpl.
    exists []. split; [reflexivity|constructor].
Qed.

End Warming.

(** X10.  Cache warming.  After a name missing from the table has been
    resolved through the generative model, and the generated record
    carries that name, resolving the name again is served from the table:
    source [database], confidence 1.0, the same stored attributes, no
    request to the generative model and no insert.  Only the English
    description changes, to "Traditional Korean " followed by the English
    name, the table having no column for it. *)
Theorem generated_dish_is_stored {Ext} (svc : Services Ext)
    name w d1 w1 d2 w2 :
  selectByName name (foods w) = None ->
  resolveDish svc name w = (Ok d1, w1) ->
  d_nameKorean d1 = name ->
  resolveDish svc name w1 = (Ok d2, w2) ->
  source d2 = database /\ confidence d2 = 1.0%float
  /\ coreFields d2 = coreFields d1
  /\ d_descriptionEnglish d2 = "Traditional Korean " ++ d_nameEnglish d1
  /\ foods w2 = foods w1
  /\ exists evs,
       log w2 = (log w1 ++ evs)%list
       /\ Forall (fun e => ~ isDetailsCall e /\ ~ isCreate e) evs.
Proof.
  intros Hnone R1 Hname R2.
  apply resolveDish_cases in R1 as (wa & Fd & R1). rewrite Hnone in R1.
  apply findKoreanFood_ok in Fd as (_ & Fa & Na & _).
  apply resolveFromAI_answer in R1
    as (foodData & usage & food & _ & _ & _ & F1 & Hrow & _).
  rewrite Fa, Na in F1. rewrite Na in Hrow.
  set (row := rowOf (nextId w) food) in *.
  assert (Hsel : selectByName name (foods w1) = Some row).
  { rewrite F1. apply selectByName_appended; [exact Hnone|].
    pose proof (f_equal (fun t => let '(a, _, _, _, _, _, _, _, _, _, _, _, _)
                                     := t in a) Hrow) as Hk.
    unfold row in Hk. simpl in Hk. exact (eq_trans Hk Hname). }
  pose proof (resolve_stored_no_write svc _ _ _ _ _ Hsel R2) as (F2 & _).
  pose proof (resolve_stored_calls svc _ _ _ _ _ Hsel R2) as (evs & L2 & P2).
  apply resolveDish_cases in R2 as (wb & _ & R2). rewrite Hsel in R2.
  apply resolveFromStore_ok in R2 as (answer & _ & _ & D2 & C2 & S2).
  split; [exact S2|]. split; [exact C2|].
  apply stored_core in D2 as (Hc & Hd).
  split; [exact (eq_trans Hc Hrow)|].
  split.
  { rewrite Hd. f_equal.
    pose proof (f_equal (fun t => let '(_, b, _, _, _, _, _, _, _, _, _, _, _)
                                     := t in b) Hrow) as Hen.
    exact Hen. }
  split; [exact F2|].
  exists (EvFind name :: evs). split; [exact L2|].
  constructor; [simpl; tauto|].
  eapply Forall_impl; [|exact P2]. intros e He. destruct e; simpl in *; tauto.
Qed.

Lemma generated_dish_is_stored_witness :
  let svc := Cases.everyProvider (fun _ => false) in
  let w := Scenario.start [Scenario.bibimbap] in
  exists d1 w1 d2 w2,
    resolveDish svc "호떡" w = (Ok d1, w1)
    /\ resolveDish svc "호떡" w1 = (Ok d2, w2)
    /\ source d1 = ai
    /\ d_descriptionEnglish d1
       = "A pan-fried yeast pancake filled with brown sugar, cinnamon and peanuts."
    /\ d_descriptionEnglish d2 = "Traditional Korean Hotteok"
    /\ source d2 = database /\ confidence d2 = 1.0%float
    /\ coreFields d2 = coreFields d1
    /\ foods w2 = foods w1.
Proof.
  intros svc w.
  let c := eval vm_compute in (resolveDish svc "호떡" w) in
  match c with
  | (Ok ?d1, ?w1) =>
      let c' := eval vm_compute in (resolveDish svc "호떡" w1) in
      match c' with
      | (Ok ?d2, ?w2) => exists d1, w1, d2, w2
      end
  end.
  match goal with
  | |- ?A /\ ?B /\ _ =>
      assert (H1 : A) by (vm_compute; reflexivity);
      assert (H2 : B) by (vm_compute; reflexivity)
  end.
  pose proof (generated_dish_is_stored svc "호떡" w _ _ _ _
                eq_refl H1 eq_refl H2) as (S & C & K & _ & F & _).
  exact (conj H1 (conj H2 (conj eq_refl (conj eq_refl (conj eq_refl
           (conj S (conj C (conj K F)))))))).
Defined.

(** ** Which providers a lookup contacts *)

Section Contacts.

Context {Ext : Type} (svc : Services Ext).

Variable P : Event -> Prop.
Hypothesis naver_or_probe : forall e, isNaverOrProbe e -> P e.

Lemma frame_naver_any kn en cq : frame P (searchNaver svc kn en cq).
Proof.
  eapply frame_weaken; [|apply frame_searchNaver].
  intros e He. apply naver_or_probe. destruct e; simpl in *; tauto.
Qed.

Lemma frame_validate_any target : frame P (validateImageUrl svc target).
Proof.
  eapply frame_weaken; [exact naver_or_probe|apply frame_validateImageUrl].
Qed.

Lemma frame_tryCandidate_any result src attempted next :
  (forall l, frame P (next l)) ->
  frame P (tryCandidate svc result src attempted next).
Proof.
  intros Hn. unfold tryCandidate. destruct result as [r|]; [|apply Hn].
  apply frame_bind; [apply frame_validate_any|].
  intros [|]; [apply frame_ret | apply Hn].
Qed.

Lemma frame_retryAttempts_any kn en attempted :
  frame P (retryAttempts svc kn en attempted).
Proof.
  induction attempted as [|a rest IH]; simpl.
  - apply frame_ret.
  - destruct (a_source a); try exact IH.
    apply frame_bind.
    + unfold getAlternativeNaverUrls.
      generalize (@nil (option string * Accuracy)).
      induction (firstn 2 (alternativeQueries kn en)) as [|q qs IHq];
        intros alts; simpl.
      * apply frame_ret.
      * apply frame_bind; [apply frame_naver_any|].
        intros [r|]; apply IHq.
    + intros alts. apply frame_bind.
      * induction alts as [|[u acc] more IHa]; simpl.
        -- apply frame_ret.
        -- apply frame_bind; [apply frame_validate_any|].
           intros [|]; [apply frame_ret | exact IHa].
      * intros [s|]; [apply frame_ret | exact IH].
Qed.

Lemma frame_waterfall_any kn en :
  frame P (searchPexels svc kn en) ->
  frame P (searchPixabay svc kn en) ->
  frame P (searchKoreanFoodImage svc kn en).
Proof.
  intros Hpex Hpix. unfold searchKoreanFoodImage.
  apply frame_tryCatch; [|intros; apply frame_ret].
  apply frame_bind; [apply frame_naver_any|]. intros r1.
  apply frame_tryCandidate_any. intros l1.
  apply frame_bind; [exact Hpex|]. intros r2.
  apply frame_tryCandidate_any. intros l2.
  apply frame_bind; [exact Hpix|]. intros r3.
  apply frame_tryCandidate_any. intros l3.
  apply frame_retryAttempts_any.
Qed.

End Contacts.

Section Keys.

Context {Ext : Type} (svc : Services Ext).

Lemma frame_searchPexels_keyed kn en :
  frame (respectsKeys svc) (searchPexels svc kn en).
Proof.
  unfold searchPexels. destruct (keyMissing (pexelsApiKey svc)) eqn:K;
    [apply frame_ret|].
  induction (pexelsQueries en) as [|q rest IH]; simpl.
  - apply frame_ret.
  - apply frame_bind; [apply frame_call; exact K|].
    intros [photos|]; [|exact IH].
    destruct (pexelsPick en q photos); [apply frame_ret | exact IH].
Qed.

Lemma frame_searchPixabay_keyed kn en :
  frame (respectsKeys svc) (searchPixabay svc kn en).
Proof.
  unfold searchPixabay. destruct (keyMissing (pixabayApiKey svc)) eqn:K;
    [apply frame_ret|].
  induction (pixabayQueries en) as [|q rest IH]; simpl.
  - apply frame_ret.
  - apply frame_bind; [apply frame_call; exact K|].
    intros [hits|]; [|exact IH].
    destruct (pixabayPick en q hits); [apply frame_ret | exact IH].
Qed.

Lemma frame_searchKoreanFood_keyed kn english :
  frame (respectsKeys svc) (searchKoreanFood svc kn english).
Proof.
  unfold searchKoreanFood.
  apply frame_bind.
  - apply frame_waterfall_any.
    + intros e He. destruct e; simpl in *; tauto.
    + apply frame_searchPexels_keyed.
    + apply frame_searchPixabay_keyed.
  - intros r. destruct (present r); [apply frame_ret|].
    destruct (truthy (accessKey svc)) eqn:K; simpl; [|apply frame_ret].
    apply frame_tryCatch; [|intros; apply frame_ret].
    destruct (orElse english None) as [en|]; [|apply frame_ret].
    induction (searchQueries en) as [|q rest IH]; simpl.
    + apply frame_ret.
    + apply frame_bind; [apply frame_call; exact K|].
      intros [images|]; [|apply frame_throw].
      destruct (best (unsplashScore q) images) as [[b s]|];
        [apply frame_ret | exact IH].
Qed.

End Keys.

(** X11.  A provider whose key is not configured is never contacted: in
    every image lookup the Pexels, Pixabay and Unsplash requests occur only
    under their respective key; and without an English name no Unsplash
    request is made at all. *)
Theorem providers_need_their_keys {Ext} (svc : Services Ext)
    kn english w r w' :
  searchKoreanFood svc kn english w = (r, w') ->
  exists evs,
    log w' = (log w ++ evs)%list
    /\ Forall (respectsKeys svc) evs
    /\ (orElse english None = None -> Forall (fun e => ~ isUnsplashCall e) evs).
Proof.
  intros Heq.
  pose proof (frame_searchKoreanFood_keyed svc _ _ _ _ _ Heq)
    as (_ & _ & evs & L & K).
  pose proof (frame_searchKoreanFood svc _ _ _ _ _ Heq)
    as (_ & _ & evs' & L' & Q).
  assert (evs' = evs) by (rewrite L in L'; now apply app_inv_head in L').
  subst evs'. exists evs. split; [exact L|]. split; [exact K|].
  intros Hen. unfold fallbackQueries in Q. rewrite Hen in Q.
  eapply Forall_impl; [|exact Q]. intros e He. destruct e; simpl in *; tauto.
Qed.

Lemma providers_need_their_keys_witness :
  let svc := Scenario.genericOnly in
  let w := Scenario.start [] in
  exists r w',
    searchKoreanFood svc "비빔밥" None w = (r, w')
    /\ log w' = [EvNaver "비빔밥"; EvNaver "비빔밥 음식"; EvNaver "비빔밥 요리";
                 EvNaver "한국 비빔밥"; EvNaver "비빔밥 한국음식"]
    /\ exists evs,
         log w' = (log w ++ evs)%list
         /\ Forall (respectsKeys svc) evs
         /\ (orElse None None = None
             -> Forall (fun e => ~ isUnsplashCall e) evs).
Proof.
  intros svc w.
  let c := eval vm_compute in (searchKoreanFood svc "비빔밥" None w) in
  match c with
  | (?r, ?w') => exists r, w'
  end.
  match goal with
  | |- ?A /\ _ => assert (H : A) by (vm_compute; reflexivity)
  end.
  exact (conj H (conj eq_refl
           (providers_need_their_keys svc "비빔밥" None w _ _ H))).
Defined.

Section NoRetry.

Context {Ext : Type} (svc : Services Ext).

Lemma retryAttempts_idle kn en attempted :
  naverAttempts attempted = O ->
  retryAttempts svc kn en attempted = ret None.
Proof.
  unfold naverAttempts.
  induction attempted as [|a rest IH]; simpl; [reflexivity|].
  destruct (a_source a); simpl; try exact IH. discriminate.
Qed.

Lemma frame_searchPexels_quiet kn en :
  frame notNaver (searchPexels svc kn en).
Proof.
  unfold searchPexels. destruct (keyMissing _); [apply frame_ret|].
  induction (pexelsQueries en) as [|q rest IH]; simpl.
  - apply frame_ret.
  - apply frame_bind; [now apply frame_call|].
    intros [photos|]; [|exact IH].
    destruct (pexelsPick en q photos); [apply frame_ret | exact IH].
Qed.

Lemma frame_searchPixabay_quiet kn en :
  frame notNaver (searchPixabay svc kn en).
Proof.
  unfold searchPixabay. destruct (keyMissing _); [apply frame_ret|].
  induction (pixabayQueries en) as [|q rest IH]; simpl.
  - apply frame_ret.
  - apply frame_bind; [now apply frame_call|].
    intros [hits|]; [|exact IH].
    destruct (pixabayPick en q hits); [apply frame_ret | exact IH].
Qed.

Lemma naverAttempts_snoc attempted u acc src :
  naverAttempts (attempted ++ [mkAttempt u acc src])
  = (naverAttempts attempted
     + match src with naver => 1 | _ => 0 end)%nat.
Proof.
  unfold naverAttempts. rewrite filter_app, length_app. simpl.
  destruct src; reflexivity.
Qed.

Lemma frame_tryCandidate_quiet result src attempted next :
  src <> naver ->
  naverAttempts attempted = O ->
  (forall l, naverAttempts l = O -> frame notNaver (next l)) ->
  frame notNaver (tryCandidate svc result src attempted next).
Proof.
  intros Hsrc Hat Hn. unfold tryCandidate.
  destruct result as [r|]; [|now apply Hn].
  apply frame_bind.
  - destruct (url r) as [u|]; simpl; [now apply frame_call | apply frame_ret].
  - intros [|]; [apply frame_ret|]. apply Hn.
    rewrite naverAttempts_snoc, Hat. destruct src; try reflexivity.
    now elim Hsrc.
Qed.

End NoRetry.

(** X12.  The alternate Naver queries (recipe, how to make) are retries of
    a Naver candidate that failed its probe.  When the first Naver search
    returns no candidate at all, the rest of the lookup never goes back to
    Naver: it only contacts Pexels and Pixabay and probes their
    candidates. *)
Theorem no_candidate_no_retry {Ext} (svc : Services Ext) kn en w w1 r w' :
  searchNaver svc kn en None w = (Ok None, w1) ->
  searchKoreanFoodImage svc kn en w = (r, w') ->
  exists evs,
    log w' = (log w1 ++ evs)%list /\ Forall notNaver evs.
Proof.
  intros N. unfold searchKoreanFoodImage, tryCatch.
  rewrite (bind_run _ _ _ _ _ N). unfold tryCandidate at 1.
  set (rest := bind (searchPexels svc kn en) _).
  assert (Fr : frame notNaver rest).
  { unfold rest. apply frame_bind; [apply frame_searchPexels_quiet|].
    intros r2. apply frame_tryCandidate_quiet;
      [discriminate | reflexivity |].
    intros l2 H2. apply frame_bind; [apply frame_searchPixabay_quiet|].
    intros r3. apply frame_tryCandidate_quiet;
      [discriminate | exact H2 |].
    intros l3 H3. rewrite (retryAttempts_idle svc kn en l3 H3).
    apply frame_ret. }
  destruct (rest w1) as [[a|msg] w2] eqn:R; intros Heq.
  - injection Heq as _ <-. apply Fr in R as (_ & _ & evs & L & Q).
    now exists evs.
  - unfold ret in Heq. injection Heq as _ <-.
    apply Fr in R as (_ & _ & evs & L & Q). now exists evs.
Qed.

Lemma no_candidate_no_retry_witness :
  let svc := Scenario.naverOnly [Scenario.peopleItem] in
  let w := Scenario.start [] in
  exists w1 r w',
    searchNaver svc "비빔밥" "Bibimbap" None w = (Ok None, w1)
    /\ searchKoreanFoodImage svc "비빔밥" "Bibimbap" w = (r, w')
    /\ exists evs, log w' = (log w1 ++ evs)%list /\ Forall notNaver evs.
Proof.
  intros svc w.
  let c := eval vm_compute in (searchNaver svc "비빔밥" "Bibimbap" None w) in
  match c with
  | (Ok None, ?w1) =>
      let c' := eval vm_compute in
                  (searchKoreanFoodImage svc "비빔밥" "Bibimbap" w) in
      match c' with
      | (?r, ?w') => exists w1, r, w'
      end
  end.
  match goal with
  | |- ?A /\ ?B /\ _ =>
      assert (H1 : A) by (vm_compute; reflexivity);
      assert (H2 : B) by (vm_compute; reflexivity)
  end.
  exact (conj H1 (conj H2
           (no_candidate_no_retry svc "비빔밥" "Bibimbap" w _ _ _ H1 H2))).
Defined.

(** A Naver candidate that fails its probe does trigger the two alternate
    queries. *)
Example failed_probe_triggers_retry :
  let svc := Scenario.services (ApiError "unused") Scenario.details
               (fun _ _ => Some [Scenario.plainItem]) (fun _ => false)
               Scenario.noStock "" None in
  snd (searchKoreanFoodImage svc "비빔밥" "Bibimbap" (Scenario.start []))
  = mkWorld 3%nat [] 2
      [EvNaver "비빔밥"; EvHead "https://example.com/bibimbap.jpg";
       EvNaver "비빔밥 레시피"; EvNaver "비빔밥 만들기";
       EvHead "https://example.com/bibimbap.jpg";
       EvHead "https://example.com/bibimbap.jpg"].
Proof. vm_compute. reflexivity. Qed.

(** ** How many external calls a lookup makes *)

Section CallCount.

Context {Ext : Type}.

Lemma calls_ret {A} (a : A) : callsAtMost 0 (ret (Ext:=Ext) a).
Proof.
  intros w r w' Heq. injection Heq as _ <-. exists [].
  now rewrite app_nil_r.
Qed.

Lemma calls_throw {A} msg : callsAtMost 0 (throw (Ext:=Ext) (A:=A) msg).
Proof.
  intros w r w' Heq. injection Heq as _ <-. exists [].
  now rewrite app_nil_r.
Qed.

Lemma calls_lift {A} (res : Res A) : callsAtMost 0 (lift (Ext:=Ext) res).
Proof.
  intros w r w' Heq. injection Heq as _ <-. exists [].
  now rewrite app_nil_r.
Qed.

Lemma calls_call {A} e (oracle : Ext -> A * Ext) :
  callsAtMost 1 (call e oracle).
Proof.
  intros w r w'. unfold call. destruct (oracle (ext w)) as [a x].
  intros Heq. injection Heq as _ <-. simpl. exists [e]. auto.
Qed.

Lemma calls_mono {A} n m (c : M Ext A) :
  (n <= m)%nat -> callsAtMost n c -> callsAtMost m c.
Proof.
  intros Hnm Hc w r w' Heq. destruct (Hc _ _ _ Heq) as (evs & L & B).
  exists evs. split; [exact L | lia].
Qed.

Lemma calls_bind_with {A B} (Qa : Res A -> Prop) n m
    (c : M Ext A) (k : A -> M Ext B) :
  callsAtMost n c -> always Qa c ->
  (forall a, Qa (Ok a) -> callsAtMost m (k a)) ->
  callsAtMost (n + m) (bind c k).
Proof.
  intros Hc Hq Hk w r w'. unfold bind.
  destruct (c w) as [[a|msg] w1] eqn:E; intros Heq.
  - destruct (Hc _ _ _ E) as (evs1 & L1 & B1).
    destruct (Hk a (Hq _ _ _ E) _ _ _ Heq) as (evs2 & L2 & B2).
    exists (evs1 ++ evs2)%list. rewrite L2, L1, app_assoc, length_app.
    split; [reflexivity | lia].
  - injection Heq as _ <-. destruct (Hc _ _ _ E) as (evs1 & L1 & B1).
    exists evs1. split; [exact L1 | lia].
Qed.

Lemma calls_bind {A B} n m (c : M Ext A) (k : A -> M Ext B) :
  callsAtMost n c -> (forall a, callsAtMost m (k a)) ->
  callsAtMost (n + m) (bind c k).
Proof.
  intros Hc Hk. apply calls_bind_with with (Qa := fun _ => True); auto.
  apply always_any.
Qed.

Lemma calls_tryCatch {A} n m (body : M Ext A) handler :
  callsAtMost n body -> (forall msg, callsAtMost m (handler msg)) ->
  callsAtMost (n + m) (tryCatch body handler).
Proof.
  intros Hb Hh w r w'. unfold tryCatch.
  destruct (body w) as [[a|msg] w1] eqn:E; intros Heq.
  - injection Heq as _ <-. destruct (Hb _ _ _ E) as (evs1 & L1 & B1).
    exists evs1. split; [exact L1 | lia].
  - destruct (Hb _ _ _ E) as (evs1 & L1 & B1).
    destruct (Hh msg _ _ _ Heq) as (evs2 & L2 & B2).
    exists (evs1 ++ evs2)%list. rewrite L2, L1, app_assoc, length_app.
    split; [reflexivity | lia].
Qed.

End CallCount.

Section WaterfallCalls.

Context {Ext : Type} (svc : Services Ext).

Lemma calls_searchNaverLoop queries :
  callsAtMost (List.length queries) (searchNaverLoop svc queries).
Proof.
  induction queries as [|q rest IH]; simpl.
  - apply calls_ret.
  - apply (calls_bind 1 (List.length rest)); [apply calls_call|].
    intros [items|]; [|exact IH].
    destruct (naverPick q items); [|exact IH].
    eapply calls_mono; [|apply calls_ret]. lia.
Qed.

Lemma naverQueries_length kn en cq :
  (List.length (naverQueries kn en cq) <= 5)%nat.
Proof.
  unfold naverQueries. destruct (orElse cq None); simpl; lia.
Qed.

Lemma calls_searchNaver kn en cq : callsAtMost 5 (searchNaver svc kn en cq).
Proof.
  eapply calls_mono; [apply naverQueries_length|].
  apply calls_searchNaverLoop.
Qed.

Lemma truthy_app_r a b : truthy b = true -> truthy (a ++ b) = true.
Proof. destruct a; simpl; [trivial | reflexivity]. Qed.

(** An alternate query is one request. *)
Lemma calls_searchNaver_custom kn en q :
  truthy q = true -> callsAtMost 1 (searchNaver svc kn en (Some q)).
Proof.
  intros Hq. unfold searchNaver, naverQueries. simpl. rewrite Hq.
  apply (calls_searchNaverLoop [q]).
Qed.

Lemma calls_validateImageUrl target :
  callsAtMost 1 (validateImageUrl svc target).
Proof.
  destruct target; simpl; [apply calls_call|].
  eapply calls_mono; [|apply calls_ret]. lia.
Qed.

Lemma calls_searchPexels kn en : callsAtMost 5 (searchPexels svc kn en).
Proof.
  unfold searchPexels. destruct (keyMissing _).
  - eapply calls_mono; [|apply calls_ret]. lia.
  - change 5%nat with (List.length (pexelsQueries en)).
    induction (pexelsQueries en) as [|q rest IH]; simpl.
    + apply calls_ret.
    + apply (calls_bind 1 (List.length rest)); [apply calls_call|].
      intros [photos|]; [|exact IH].
      destruct (pexelsPick en q photos); [|exact IH].
      eapply calls_mono; [|apply calls_ret]. lia.
Qed.

Lemma calls_searchPixabay kn en : callsAtMost 4 (searchPixabay svc kn en).
Proof.
  unfold searchPixabay. destruct (keyMissing _).
  - eapply calls_mono; [|apply calls_ret]. lia.
  - change 4%nat with (List.length (pixabayQueries en)).
    induction (pixabayQueries en) as [|q rest IH]; simpl.
    + apply calls_ret.
    + apply (calls_bind 1 (List.length rest)); [apply calls_call|].
      intros [hits|]; [|exact IH].
      destruct (pixabayPick en q hits); [|exact IH].
      eapply calls_mono; [|apply calls_ret]. lia.
Qed.

Lemma alternativesLoop_bounded kn en qs : forall alts,
  Forall (fun q => truthy q = true) qs ->
  callsAtMost (List.length qs) (alternativesLoop svc kn en qs alts)
  /\ always (returns (fun l =>
                (List.length l <= List.length alts + List.length qs)%nat))
            (alternativesLoop svc kn en qs alts).
Proof.
  induction qs as [|q rest IH]; intros alts Hq; simpl.
  - split; [apply calls_ret|]. apply always_ret. simpl. lia.
  - inversion Hq as [|q' rest' Hhead Hrest]; subst. split.
    + apply (calls_bind 1 (List.length rest));
        [now apply calls_searchNaver_custom|].
      intros [r|]; apply IH; exact Hrest.
    + apply always_bind with (Qa := isOk);
        [apply searchNaverLoop_returns| |intros msg []].
      intros [r|] _.
      * eapply always_weaken; [|apply (IH _ Hrest)].
        intros [l|msg]; simpl; [|trivial].
        rewrite length_app. simpl. lia.
      * eapply always_weaken; [|apply (IH _ Hrest)].
        intros [l|msg]; simpl; [lia|trivial].
Qed.

(** The retry fan-out: two requests, at most two alternatives. *)
Lemma getAlternativeNaverUrls_bounded kn en :
  callsAtMost 2 (getAlternativeNaverUrls svc kn en)
  /\ always (returns (fun alts => (List.length alts <= 2)%nat))
            (getAlternativeNaverUrls svc kn en).
Proof.
  unfold getAlternativeNaverUrls.
  apply (alternativesLoop_bounded kn en
           (firstn 2 (alternativeQueries kn en)) []).
  simpl. repeat constructor; now apply truthy_app_r.
Qed.

Lemma calls_firstValid alts :
  callsAtMost (List.length alts) (firstValid svc alts).
Proof.
  induction alts as [|[u acc] rest IH]; simpl.
  - apply calls_ret.
  - apply (calls_bind 1 (List.length rest)); [apply calls_validateImageUrl|].
    intros [|]; [|exact IH]. eapply calls_mono; [|apply calls_ret]. lia.
Qed.

Lemma calls_retryAttempts kn en attempted :
  callsAtMost (4 * naverAttempts attempted)
              (retryAttempts svc kn en attempted).
Proof.
  unfold naverAttempts.
  induction attempted as [|a rest IH]; simpl.
  - apply calls_ret.
  - destruct (a_source a); simpl; try exact IH.
    destruct (getAlternativeNaverUrls_bounded kn en) as (Hc & Hl).
    eapply calls_mono;
      [|apply (calls_bind_with _ 2
                 (2 + 4 * List.length
                        (filter (fun a0 => match a_source a0 with
                                           | naver => true | _ => false end)
                                rest)) _ _ Hc Hl)].
    + lia.
    + intros alts Hal. simpl in Hal.
      apply calls_bind.
      * eapply calls_mono; [exact Hal|apply calls_firstValid].
      * intros [s|]; [|exact IH]. eapply calls_mono; [|apply calls_ret]. lia.
Qed.

Lemma calls_tryCandidate n result src attempted next :
  (forall l,
     (naverAttempts l
      <= naverAttempts attempted
         + match src with naver => 1 | _ => 0 end)%nat ->
     callsAtMost n (next l)) ->
  callsAtMost (1 + n) (tryCandidate svc result src attempted next).
Proof.
  intros Hn. unfold tryCandidate. destruct result as [r|].
  - apply calls_bind; [apply calls_validateImageUrl|].
    intros [|].
    + eapply calls_mono; [|apply calls_ret]. lia.
    + apply Hn. rewrite naverAttempts_snoc. lia.
  - eapply calls_mono; [|apply Hn]; lia.
Qed.

Lemma calls_searchKoreanFoodImage kn en :
  callsAtMost 21 (searchKoreanFoodImage svc kn en).
Proof.
  unfold searchKoreanFoodImage.
  apply (calls_tryCatch 21 0); [|intros; apply calls_ret].
  apply (calls_bind 5 16); [apply calls_searchNaver|]. intros r1.
  apply (calls_tryCandidate 15). intros l1 H1.
  apply (calls_bind 5 10); [apply calls_searchPexels|]. intros r2.
  apply (calls_tryCandidate 9). intros l2 H2.
  apply (calls_bind 4 5); [apply calls_searchPixabay|]. intros r3.
  apply (calls_tryCandidate 4). intros l3 H3.
  eapply calls_mono; [|apply calls_retryAttempts].
  unfold naverAttempts in *. simpl in *. lia.
Qed.

Lemma searchQueries_length english :
  (List.length (searchQueries english) <= 6)%nat.
Proof.
  unfold searchQueries, getSearchTerms.
  repeat match goal with
         | |- context [if ?c then _ else _] => destruct c
         end; simpl; lia.
Qed.

Lemma calls_searchUnsplashLoop queries :
  callsAtMost (List.length queries) (searchUnsplashLoop svc queries).
Proof.
  induction queries as [|q rest IH]; simpl.
  - apply calls_ret.
  - apply (calls_bind 1 (List.length rest)); [apply calls_call|].
    intros [images|].
    + destruct (best (unsplashScore q) images) as [[b s]|]; [|exact IH].
      eapply calls_mono; [|apply calls_ret]. lia.
    + eapply calls_mono; [|apply calls_throw]. lia.
Qed.

Lemma frame_searchUnsplashLoop_only queries :
  frame isUnsplashCall (searchUnsplashLoop svc queries).
Proof.
  induction queries as [|q rest IH]; simpl.
  - apply frame_ret.
  - apply frame_bind; [now apply frame_call|].
    intros [images|]; [|apply frame_throw].
    destruct (best (unsplashScore q) images) as [[b s]|];
      [apply frame_ret | exact IH].
Qed.

Lemma calls_searchKoreanFood kn english :
  callsAtMost 27 (searchKoreanFood svc kn english).
Proof.
  unfold searchKoreanFood.
  apply (calls_bind 21 6); [apply calls_searchKoreanFoodImage|].
  intros r. destruct (present r).
  - eapply calls_mono; [|apply calls_ret]. lia.
  - destruct (negb _).
    + eapply calls_mono; [|apply calls_ret]. lia.
    + apply (calls_tryCatch 6 0); [|intros; apply calls_ret].
      destruct (orElse english None) as [en|].
      * eapply calls_mono; [apply searchQueries_length|].
        apply calls_searchUnsplashLoop.
      * eapply calls_mono; [|apply calls_ret]. lia.
Qed.

Lemma calls_resolveDish name : callsAtMost 30 (resolveDish svc name).
Proof.
  unfold resolveDish.
  apply (calls_bind 1 29).
  - unfold findKoreanFood. apply (calls_bind 1 0); [apply calls_call|].
    intros [msg|]; [apply calls_throw|].
    intros w r w' Heq. injection Heq as _ <-. exists [].
    now rewrite app_nil_r.
  - intros [row|].
    + unfold resolveFromStore. eapply calls_mono;
        [|apply (calls_bind 27 0); [apply calls_searchKoreanFood|]].
      * lia.
      * intros x. destruct (parseImageResult x). apply calls_ret.
    + unfold resolveFromAI. apply (calls_bind 1 28).
      * unfold getFoodDetailsFromAI.
        apply (calls_tryCatch 1 0); [|intros; apply calls_throw].
        apply (calls_bind 1 0); [apply calls_call|intros; apply calls_lift].
      * intros aiData. apply (calls_bind 27 1); [apply calls_searchKoreanFood|].
        intros x. destruct (parseImageResult x).
        apply (calls_bind 1 0); [|intros; apply calls_ret].
        unfold createKoreanFood. apply (calls_bind 1 0); [apply calls_call|].
        intros [msg|]; [apply calls_throw|].
        intros w r w' Heq. injection Heq as _ <-. simpl. exists [].
        now rewrite app_nil_r.
Qed.

Lemma calls_resolveAll names acc :
  callsAtMost (30 * List.length names) (resolveAll svc names acc).
Proof.
  revert acc. induction names as [|name rest IH]; intros acc; simpl.
  - apply calls_ret.
  - eapply calls_mono;
      [|apply (calls_bind 30 (30 * List.length rest))].
    + lia.
    + apply (calls_tryCatch 30 0); [|intros; apply calls_ret].
      apply (calls_bind 30 0); [apply calls_resolveDish|].
      intros d. apply calls_ret.
    + intros acc'. apply IH.
Qed.

End WaterfallCalls.

(** X13.  One image lookup makes a bounded number of external calls: the
    waterfall at most 21 (five Naver queries, five Pexels, four Pixabay,
    three probes, two alternate queries and their two probes), and
    [searchKoreanFood] at most 27 with its six Unsplash queries. *)
Theorem image_lookup_call_bound {Ext} (svc : Services Ext)
    kn english w r w' :
  searchKoreanFood svc kn english w = (r, w') ->
  exists evs,
    log w' = (log w ++ evs)%list /\ (List.length evs <= 27)%nat
    /\ (List.length (filter (fun e => match e with
                                      | EvUnsplash _ => false
                                      | _ => true
                                      end) evs) <= 21)%nat.
Proof.
  intros Heq. unfold searchKoreanFood in Heq.
  pose proof (calls_searchKoreanFood svc kn english _ _ _ Heq) as (evs & L & B).
  exists evs. split; [exact L|]. split; [exact B|].
  unfold searchKoreanFood, bind in Heq.
  destruct (searchKoreanFoodImage svc kn
              (interp (orElse english (Some kn))) w) as [[o|msg] w1] eqn:I.
  - pose proof (calls_searchKoreanFoodImage svc _ _ _ _ _ I) as (evs1 & L1 & B1).
    assert (Fr : frame isUnsplashCall
                   (if present o then ret o
                    else if negb (truthy (accessKey svc)) then ret None
                    else tryCatch
                           match orElse english None with
                           | Some en => searchUnsplashLoop svc (searchQueries en)
                           | None => ret None
                           end (fun _ => ret None))).
    { destruct (present o); [apply frame_ret|].
      destruct (negb _); [apply frame_ret|].
      apply frame_tryCatch; [|intros; apply frame_ret].
      destruct (orElse english None) as [en|]; [|apply frame_ret].
      apply frame_searchUnsplashLoop_only. }
    apply Fr in Heq as (_ & _ & evs2 & L2 & U2).
    assert (evs = (evs1 ++ evs2)%list).
    { rewrite L1, <- app_assoc in L2. rewrite L in L2.
      now apply app_inv_head in L2. }
    subst evs. rewrite filter_app, length_app.
    assert (Hz : filter (fun e => match e with
                                  | EvUnsplash _ => false | _ => true end) evs2
                 = []).
    { clear - U2. induction U2 as [|e l He _ IH]; simpl; [reflexivity|].
      destruct e; simpl in He; try contradiction. exact IH. }
    rewrite Hz. simpl.
    pose proof (filter_length_le
                  (fun e => match e with EvUnsplash _ => false | _ => true end)
                  evs1). lia.
  - injection Heq as _ <-.
    pose proof (calls_searchKoreanFoodImage svc _ _ _ _ _ I) as (evs1 & L1 & B1).
    assert (evs = evs1) by (rewrite L in L1; now apply app_inv_head in L1).
    subst evs.
    pose proof (filter_length_le
                  (fun e => match e with EvUnsplash _ => false | _ => true end)
                  evs1). lia.
Qed.

Lemma image_lookup_call_bound_witness :
  let svc := Cases.everyProvider (fun _ => false) in
  let w := Scenario.start [] in
  exists r w',
    searchKoreanFood svc "비빔밥" (Some "Bibimbap") w = (r, w')
    /\ List.length (log w') = 11%nat
    /\ exists evs,
         log w' = (log w ++ evs)%list /\ (List.length evs <= 27)%nat
         /\ (List.length (filter (fun e => match e with
                                           | EvUnsplash _ => false
                                           | _ => true
                                           end) evs) <= 21)%nat.
Proof.
  intros svc w.
  let c := eval vm_compute in
             (searchKoreanFood svc "비빔밥" (Some "Bibimbap") w) in
  match c with
  | (?r, ?w') => exists r, w'
  end.
  match goal with
  | |- ?A /\ _ => assert (H : A) by (vm_compute; reflexivity)
  end.
  exact (conj H (conj eq_refl
           (image_lookup_call_bound svc "비빔밥" (Some "Bibimbap") w _ _ H))).
Defined.

(** X14.  An analysis makes a bounded number of external calls: the OCR
    request, then at most 30 for each extracted name (the select, the
    generative request, at most 27 image calls, the insert). *)
Theorem analysis_call_bound {Ext} (svc : Services Ext)
    img w ocr w1 r w' :
  extractKoreanFoodNames svc img w = (Ok ocr, w1) ->
  analyzeKoreanMenu svc img w = (r, w') ->
  exists evs,
    log w' = (log w ++ EvOcr img :: evs)%list
    /\ (List.length evs <= 30 * List.length (extractedNames ocr))%nat.
Proof.
  intros E A. pose proof (extract_cases svc _ _ _ _ E) as (_ & _ & L1 & _).
  destruct (overLimit (totalDetected ocr)) as [n|] eqn:O.
  - apply overLimit_some in O as (T & Hn).
    unfold analyzeKoreanMenu, tryCatch, bind in A. rewrite E, T in A.
    rewrite (overLimit_above n Hn) in A. unfold throw in A.
    rewrite foodLimitMessage_tagged in A. injection A as _ <-.
    exists []. split; [exact L1 | simpl; lia].
  - rewrite (analyze_after_extract svc _ _ _ _ E O) in A.
    destruct (negb (isKoreanMenu ocr)).
    + injection A as _ <-. exists []. split; [exact L1 | simpl; lia].
    + destruct (resolveAll svc (extractedNames ocr) ([], tokenUsage ocr) w1)
        as [res w2] eqn:R.
      pose proof (calls_resolveAll svc _ _ _ _ _ R) as (evs & L2 & B).
      assert (w' = w2) by (destruct res; injection A as _ <-; reflexivity).
      subst w2. exists evs. split; [|exact B].
      rewrite L2, L1, <- app_assoc. reflexivity.
Qed.

Lemma analysis_call_bound_witness :
  let names := ["비빔밥"; "호떡"] in
  let svc := Scenario.plain (Scenario.ocrReply names (Some 2)) in
  let w := Scenario.start [Scenario.bibimbap] in
  exists ocr w1 r w',
    extractKoreanFoodNames svc "img" w = (Ok ocr, w1)
    /\ analyzeKoreanMenu svc "img" w = (r, w')
    /\ List.length (log w') = 15%nat
    /\ exists evs,
         log w' = (log w ++ EvOcr "img" :: evs)%list
         /\ (List.length evs <= 30 * List.length (extractedNames ocr))%nat.
Proof.
  intros names svc w.
  let c := eval vm_compute in (extractKoreanFoodNames svc "img" w) in
  match c with
  | (Ok ?ocr, ?w1) =>
      let c' := eval vm_compute in (analyzeKoreanMenu svc "img" w) in
      match c' with
      | (?r, ?w') => exists ocr, w1, r, w'
      end
  end.
  match goal with
  | |- ?A /\ ?B /\ _ =>
      assert (H1 : A) by (vm_compute; reflexivity);
      assert (H2 : B) by (vm_compute; reflexivity)
  end.
  exact (conj H1 (conj H2 (conj eq_refl
           (analysis_call_bound svc "img" w _ _ _ _ H1 H2)))).
Defined.

(** ** Selection among candidates *)

Section TieBreak.

Lemma best_none {A} (score : A -> Z) items :
  best score items = None -> items = [].
Proof.
  unfold best, sortByScore. destruct items as [|x rest]; [reflexivity|].
  simpl. rewrite hd_insertByScore.
  destruct (hd_error _) as [y|]; [destruct (_ <? _)|]; discriminate.
Qed.

Lemma best_cons {A} (score : A -> Z) x rest :
  best score (x :: rest)
  = match best score rest with
    | None => Some (x, score x)
    | Some (b, s) => if score x <? s then Some (b, s) else Some (x, score x)
    end.
Proof.
  unfold best, sortByScore. simpl. rewrite hd_insertByScore.
  destruct (hd_error _) as [[b s]|]; reflexivity.
Qed.

End TieBreak.

(** X15.  Ties go to the earliest candidate: the selected candidate is the
    first of the response, in the provider's order, that reaches the
    highest score; every candidate before it scores strictly less, every
    candidate after it at most as much. *)
Theorem first_of_the_best_wins {A} (score : A -> Z) items b s :
  best score items = Some (b, s) ->
  exists before after,
    items = (before ++ b :: after)%list
    /\ s = score b
    /\ (forall x, In x before -> score x < s)
    /\ (forall x, In x after -> score x <= s).
Proof.
  revert b s. induction items as [|x rest IH]; intros b s.
  - discriminate.
  - rewrite best_cons. destruct (best score rest) as [[b0 s0]|] eqn:B.
    + destruct (IH b0 s0 eq_refl) as (before & after & Hi & Hs & Hb & Ha).
      destruct (Z.ltb_spec (score x) s0) as [Hlt|Hge];
        intros Heq; injection Heq as <- <-.
      * exists (x :: before), after. rewrite Hi. repeat split; trivial.
        intros y [<-|Hy]; [exact Hlt | now apply Hb].
      * exists [], rest. repeat split; [intros y []|].
        intros y Hy. rewrite Hi in Hy. apply in_app_or in Hy.
        destruct Hy as [Hy|[<-|Hy]].
        -- specialize (Hb y Hy). lia.
        -- lia.
        -- specialize (Ha y Hy). lia.
    + apply best_none in B. subst rest.
      intros Heq. injection Heq as <- <-.
      exists [], []. repeat split; intros y [].
Qed.

Lemma first_of_the_best_wins_witness :
  let twin := {| n_title := Some "bibimbap";
                 n_source := None;
                 n_originalUrl := Some "https://example.com/second.jpg";
                 n_thumb := None |} in
  let items := [Scenario.peopleItem; Scenario.plainItem; twin] in
  best naverScore items = Some (Scenario.plainItem, 0)
  /\ exists before after,
       items = (before ++ Scenario.plainItem :: after)%list
       /\ 0 = naverScore Scenario.plainItem
       /\ (forall x, In x before -> naverScore x < 0)
       /\ (forall x, In x after -> naverScore x <= 0).
Proof.
  intros twin items.
  assert (H : best naverScore items = Some (Scenario.plainItem, 0))
    by (vm_compute; reflexivity).
  exact (conj H (first_of_the_best_wins naverScore items _ _ H)).
Defined.

Section BlogCandidates.

Lemma optIncludes_orEmpty o needle :
  optIncludes o needle = true -> includes (orEmpty o) needle = true.
Proof. destruct o; simpl; [trivial | discriminate]. Qed.

Lemma blog_scores_high item :
  blogDomain (orElse (n_originalUrl item) (n_thumb item)) = true ->
  8 <= naverScore item.
Proof.
  unfold blogDomain, naverScore. intros Hb.
  set (u := orElse (n_originalUrl item) (n_thumb item)) in *.
  assert (Hblog : includes (orEmpty u) "blogfiles.naver.net"
                  || includes (orEmpty u) "postfiles.naver.net"
                  || includes (orEmpty u) "blog.naver.com" = true).
  { apply orb_true_iff in Hb as [Hb|Hb];
      [apply orb_true_iff in Hb as [Hb|Hb]|];
      apply optIncludes_orEmpty in Hb; rewrite Hb;
      rewrite ?orb_true_r; reflexivity. }
  cbv zeta. rewrite Hblog. unfold bonus.
  repeat match goal with
         | |- context [if ?c then _ else _] => destruct c
         end; lia.
Qed.

End BlogCandidates.

(** X16.  A candidate from an authentic Korean blog domain is never
    rejected for its score: when the top-scoring candidate of a response
    has such a URL, and the URL is not on a blocked domain, the adapter
    returns it for that response, with accuracy [high]. *)
Theorem blog_candidate_is_returned query items bestItem relevanceScore :
  best naverScore items = Some (bestItem, relevanceScore) ->
  blogDomain (orElse (n_originalUrl bestItem) (n_thumb bestItem)) = true ->
  blockedDomain (orElse (n_originalUrl bestItem) (n_thumb bestItem)) = false ->
  exists r,
    naverPick query items = Some r
    /\ url r = orElse (n_originalUrl bestItem) (n_thumb bestItem)
    /\ accuracy r = high.
Proof.
  intros B Hblog Hfree. unfold naverPick. rewrite B.
  pose proof (best_highest _ _ _ _ B) as (-> & _).
  pose proof (blog_scores_high bestItem Hblog) as Hs.
  destruct (Z.leb_spec 0 (naverScore bestItem)) as [_|Hneg]; [|lia].
  rewrite Hfree. eexists. split; [reflexivity|]. split; [reflexivity|].
  simpl. now apply naverAccuracy_blog.
Qed.

Lemma blog_candidate_is_returned_witness :
  let crowd := {| n_title := Some "사람 건물 풍경";
                  n_source := None;
                  n_originalUrl := None;
                  n_thumb := Some "https://postfiles.naver.net/crowd.jpg" |} in
  naverScore crowd = 8
  /\ exists r,
       naverPick "비빔밥" [Scenario.peopleItem; crowd] = Some r
       /\ url r = orElse (n_originalUrl crowd) (n_thumb crowd)
       /\ accuracy r = high.
Proof.
  intros crowd. split; [vm_compute; reflexivity|].
  apply (blog_candidate_is_returned "비빔밥" [Scenario.peopleItem; crowd]
           crowd 8); vm_compute; reflexivity.
Defined.

(** ** The generic Unsplash query *)

(** X17.  The generic search never throws.  Without an access key it makes
    no request and answers none; otherwise it makes the one generic query,
    and an answer it gives is the URL of one of the first five photos of
    the response. *)
Theorem generic_search_picks_among_first_five {Ext} (svc : Services Ext)
    w r w' :
  searchGenericKoreanFood svc w = (r, w') ->
  exists answer,
    r = Ok answer
    /\ (truthy (accessKey svc) = false -> answer = None /\ log w' = log w)
    /\ (truthy (accessKey svc) = true ->
        log w' = (log w ++ [EvUnsplash genericQuery])%list)
    /\ forall u, answer = Some u ->
         exists images x,
           fst (unsplash_get svc genericQuery x) = Some images
           /\ In u (map i_regular (firstn 5 images)).
Proof.
  unfold searchGenericKoreanFood.
  destruct (truthy (accessKey svc)) eqn:K; cbn [negb].
  2:{ intros Heq. injection Heq as <- <-. exists None.
      split; [reflexivity|]. split; [now split|].
      split; discriminate. }
  unfold tryCatch, bind, call.
  destruct (unsplash_get svc genericQuery (ext w)) as [reply x] eqn:G.
  destruct reply as [images|]; cbn [throw].
  2:{ intros Heq. injection Heq as <- <-. exists None. cbn [log].
      split; [reflexivity|]. split; [discriminate|].
      split; [reflexivity | discriminate]. }
  destruct images as [|img more].
  { intros Heq. injection Heq as <- <-. exists None. cbn [log].
    split; [reflexivity|]. split; [discriminate|].
    split; [reflexivity | discriminate]. }
  set (images := img :: more) in *.
  unfold randomBelow. cbn [ext foods nextId log].
  destruct (math_random svc x) as [n x'] eqn:Rn. unfold ret.
  set (idx := Nat.modulo n (Nat.min (List.length images) 5)).
  intros Heq. injection Heq as <- <-. cbn [log].
  eexists. split; [reflexivity|]. split; [discriminate|].
  split; [reflexivity|].
  intros u Hu. exists images, (ext w). rewrite G. split; [reflexivity|].
  assert (Hidx : (idx < Nat.min (List.length images) 5)%nat).
  { apply Nat.mod_upper_bound. unfold images. cbn [List.length]. lia. }
  destruct (nth_error images idx) as [photo|] eqn:Nth;
    cbn [option_map] in Hu; [|discriminate].
  injection Hu as <-. apply in_map.
  assert (Hf : nth_error (firstn 5 images) idx = Some photo).
  { rewrite nth_error_firstn.
    destruct (Nat.ltb_spec idx 5) as [_|Hge]; [exact Nth | lia]. }
  exact (nth_error_In _ _ Hf).
Qed.

Lemma generic_search_picks_among_first_five_witness :
  let svc := Cases.everyProvider (fun _ => false) in
  let w := Scenario.start [] in
  exists r w',
    searchGenericKoreanFood svc w = (r, w')
    /\ r = Ok (Some "https://images.unsplash.com/photo-1")
    /\ exists answer,
         r = Ok answer
         /\ (truthy (accessKey svc) = false -> answer = None /\ log w' = log w)
         /\ (truthy (accessKey svc) = true ->
             log w' = (log w ++ [EvUnsplash genericQuery])%list)
         /\ forall u, answer = Some u ->
              exists images x,
                fst (unsplash_get svc genericQuery x) = Some images
                /\ In u (map i_regular (firstn 5 images)).
Proof.
  intros svc w.
  let c := eval vm_compute in (searchGenericKoreanFood svc w) in
  match c with
  | (?r, ?w') => exists r, w'
  end.
  match goal with
  | |- ?A /\ _ => assert (H : A) by (vm_compute; reflexivity)
  end.
  exact (conj H (conj eq_refl
           (generic_search_picks_among_first_five svc w _ _ H))).
Defined.

(** * Seeding *)

Section SeedFacts.

Context {Ext : Type} (svc : Services Ext).

Lemma selectByName_none_rows name table :
  selectByName name table = None <-> rowsNamed name table = [].
Proof.
  unfold selectByName, rowsNamed.
  induction table as [|row rest IH]; simpl; [tauto|].
  destruct (String.eqb (nameKorean row) name); [|exact IH].
  split; discriminate.
Qed.

Lemma selectByName_kept name table more row :
  selectByName name table = Some row ->
  selectByName name (table ++ more) = Some row.
Proof.
  unfold selectByName. induction table as [|r rest IH]; simpl; [discriminate|].
  destruct (String.eqb (nameKorean r) name); [trivial | exact IH].
Qed.

Lemma rowsNamed_app name table more :
  rowsNamed name (table ++ more)
  = (rowsNamed name table ++ rowsNamed name more)%list.
Proof. unfold rowsNamed. apply filter_app. Qed.

Lemma findKoreanFood_cases name w r w1 :
  findKoreanFood svc name w = (r, w1) ->
  foods w1 = foods w /\ nextId w1 = nextId w
  /\ log w1 = (log w ++ [EvFind name])%list
  /\ (forall found, r = Ok found -> found = selectByName name (foods w)).
Proof.
  unfold findKoreanFood, bind, call, throw.
  destruct (db_select_error svc name (ext w)) as [[msg|] x]; simpl;
    intros Heq; injection Heq as <- <-; simpl; repeat split; trivial.
  - discriminate.
  - intros found Hf. now injection Hf as <-.
Qed.

(** Seeding keeps the rows it finds and adds at most one row per missing
    name. *)
Lemma seedLoop_rows data : forall w r w',
  seedLoop svc data w = (r, w') ->
  (exists added, foods w' = (foods w ++ added)%list)
  /\ forall name,
       (rowsNamed name (foods w) <> [] ->
        rowsNamed name (foods w') = rowsNamed name (foods w))
       /\ (rowsNamed name (foods w) = [] ->
           (List.length (rowsNamed name (foods w')) <= 1)%nat).
Proof.
  induction data as [|f rest IH]; intros w r w'; simpl.
  - intros Heq. injection Heq as _ <-. split.
    + exists []. now rewrite app_nil_r.
    + intros name. split; [trivial|]. intros ->. simpl. lia.
  - unfold bind at 1.
    destruct (findKoreanFood svc (ins_nameKorean f) w) as [[found|msg] w1] eqn:Fd.
    2:{ intros Heq. injection Heq as _ <-.
        apply findKoreanFood_cases in Fd as (F & _). rewrite F. split.
        - exists []. now rewrite app_nil_r.
        - intros name. split; [trivial|]. intros ->. simpl. lia. }
    apply findKoreanFood_cases in Fd as (F1 & _ & _ & Hfound).
    specialize (Hfound found eq_refl). subst found.
    destruct (selectByName (ins_nameKorean f) (foods w)) as [row|] eqn:Sel.
    + intros R. apply IH in R as (Ha & Hrows). rewrite F1 in *. now split.
    + unfold bind.
      destruct (createKoreanFood svc f w1) as [[saved|msg] w2] eqn:C.
      2:{ intros Heq. injection Heq as _ <-.
          apply createKoreanFood_cases in C as [(m & _ & F2 & _)|(Hs & _)];
            [|discriminate].
          rewrite F2, F1. split.
          - exists []. now rewrite app_nil_r.
          - intros name. split; [trivial|]. intros ->. simpl. lia. }
      apply createKoreanFood_cases in C as [(m & Hm & _)|(_ & F2 & _)];
        [discriminate|].
      rewrite F1 in F2. intros R. apply IH in R as ((added & Ha) & Hrows).
      split.
      * exists (rowOf (nextId w1) f :: added). rewrite Ha, F2.
        now rewrite <- app_assoc.
      * intros name. specialize (Hrows name). rewrite F2 in Hrows.
        rewrite rowsNamed_app in Hrows.
        apply selectByName_none_rows in Sel.
        assert (Hone : rowsNamed name [rowOf (nextId w1) f]
                       = if String.eqb (ins_nameKorean f) name
                         then [rowOf (nextId w1) f] else [])
          by reflexivity.
        rewrite Hone in Hrows. clear Hone.
        destruct (String.eqb_spec (ins_nameKorean f) name) as [Hsame|Hne].
        -- rewrite <- Hsame in *. rewrite Sel in Hrows. simpl in Hrows. split.
           ++ intros Hn. now elim Hn.
           ++ intros _. destruct Hrows as (Hkeep & _).
              rewrite Hkeep by discriminate. simpl. lia.
        -- rewrite app_nil_r in Hrows. exact Hrows.
Qed.

(** With every name already present, seeding only reads. *)
Lemma seedLoop_present data : forall w r w',
  (forall f, In f data -> selectByName (ins_nameKorean f) (foods w) <> None) ->
  seedLoop svc data w = (r, w') ->
  foods w' = foods w
  /\ exists evs, log w' = (log w ++ evs)%list
                 /\ Forall (fun e => ~ isCreate e) evs.
Proof.
  induction data as [|f rest IH]; intros w r w' Hall; simpl.
  - intros Heq. injection Heq as _ <-. split; [reflexivity|].
    exists []. now rewrite app_nil_r.
  - unfold bind at 1.
    destruct (findKoreanFood svc (ins_nameKorean f) w) as [[found|msg] w1] eqn:Fd;
      apply findKoreanFood_cases in Fd as (F1 & _ & L1 & Hfound).
    + specialize (Hfound found eq_refl). subst found.
      destruct (selectByName (ins_nameKorean f) (foods w)) as [row|] eqn:Sel.
      * intros R. apply IH in R as (F & evs & L & Pe).
        -- split; [congruence|]. exists (EvFind (ins_nameKorean f) :: evs).
           split; [rewrite L, L1, <- app_assoc; reflexivity|].
           constructor; [simpl; tauto | exact Pe].
        -- intros g Hg. rewrite F1. apply Hall. now right.
      * elim (Hall f (or_introl eq_refl)). exact Sel.
    + intros Heq. injection Heq as _ <-. split; [exact F1|].
      exists [EvFind (ins_nameKorean f)]. split; [exact L1|].
      constructor; [simpl; tauto | constructor].
Qed.

(** With a healthy database, seeding completes and every seed name is
    then in the table. *)
Lemma seedLoop_healthy data : storeHealthy svc -> forall w,
  exists w',
    seedLoop svc data w = (Ok tt, w')
    /\ (exists added, foods w' = (foods w ++ added)%list)
    /\ forall f, In f data ->
         selectByName (ins_nameKorean f) (foods w') <> None.
Proof.
  intros (Hsel & Hins). induction data as [|f rest IH]; intros w; simpl.
  - exists w. split; [reflexivity|]. split; [|intros f []].
    exists []. now rewrite app_nil_r.
  - destruct (findKoreanFood_healthy svc (ins_nameKorean f) w (Hsel _ _))
      as (w1 & Fd & F1).
    rewrite (bind_run _ _ _ _ _ Fd).
    destruct (selectByName (ins_nameKorean f) (foods w)) as [row|] eqn:Sel.
    + destruct (IH w1) as (w' & R & (added & Ha) & Hall).
      exists w'. split; [exact R|]. rewrite F1 in Ha. split; [now exists added|].
      intros g [<-|Hg]; [|now apply Hall].
      rewrite Ha, (selectByName_kept _ _ added _ Sel). discriminate.
    + assert (C : exists w2,
                 createKoreanFood svc f w1 = (Ok (rowOf (nextId w1) f), w2)
                 /\ foods w2 = (foods w1 ++ [rowOf (nextId w1) f])%list).
      { unfold createKoreanFood, bind, call.
        specialize (Hins f (ext w1)).
        destruct (db_insert_error svc f (ext w1)) as [err x]. simpl in Hins.
        subst err. simpl. eexists. split; reflexivity. }
      destruct C as (w2 & C & F2).
      rewrite (bind_run _ _ _ _ _ C).
      destruct (IH w2) as (w' & R & (added & Ha) & Hall).
      exists w'. split; [exact R|]. split.
      * exists (rowOf (nextId w1) f :: added).
        rewrite Ha, F2, F1, <- app_assoc. reflexivity.
      * intros g [<-|Hg]; [|now apply Hall].
        rewrite Ha, F2, F1.
        rewrite (selectByName_kept _ _ added (rowOf (nextId w1) f)).
        -- discriminate.
        -- now apply selectByName_appended.
Qed.

End SeedFacts.

(** X18.  Seeding never throws and never duplicates: the rows it finds stay
    where they are, a name that already has rows keeps exactly those, and
    a name that has none gets at most one.  This holds whatever the
    database does in between (an error only ends the seeding early). *)
Theorem seeding_never_duplicates {Ext} (svc : Services Ext) data w r w' :
  seedWith svc data w = (r, w') ->
  r = Ok tt
  /\ (exists added, foods w' = (foods w ++ added)%list)
  /\ forall name,
       (rowsNamed name (foods w) <> [] ->
        rowsNamed name (foods w') = rowsNamed name (foods w))
       /\ (rowsNamed name (foods w) = [] ->
           (List.length (rowsNamed name (foods w')) <= 1)%nat).
Proof.
  unfold seedWith, tryCatch.
  destruct (seedLoop svc data w) as [[[]|msg] w1] eqn:S;
    intros Heq; injection Heq as <- <-;
    (split; [reflexivity|]); exact (seedLoop_rows svc _ _ _ _ S).
Qed.

Lemma seeding_never_duplicates_witness :
  let svc := Cases.readOnly (ApiError "unused") in
  let w := Scenario.start [Scenario.bibimbap] in
  exists r w',
    seedKoreanFoodDatabase svc w = (r, w')
    /\ foods w' = [Scenario.bibimbap]
    /\ log w' = [EvFind "비빔밥"; EvFind "김치찌개";
                 EvCreate (nth 1 koreanFoodSeedData
                             (seedRecord "" "" "" [] 0 "" 0 [] false false
                                         "" "" "" None))]
    /\ r = Ok tt
    /\ (exists added, foods w' = (foods w ++ added)%list)
    /\ forall name,
         (rowsNamed name (foods w) <> [] ->
          rowsNamed name (foods w') = rowsNamed name (foods w))
         /\ (rowsNamed name (foods w) = [] ->
             (List.length (rowsNamed name (foods w')) <= 1)%nat).
Proof.
  intros svc w.
  let c := eval vm_compute in (seedKoreanFoodDatabase svc w) in
  match c with
  | (?r, ?w') => exists r, w'
  end.
  match goal with
  | |- ?A /\ _ => assert (H : A) by (vm_compute; reflexivity)
  end.
  exact (conj H (conj eq_refl (conj eq_refl
           (seeding_never_duplicates svc koreanFoodSeedData w _ _ H)))).
Defined.

(** X19.  When the database answers every select and insert, seeding
    completes and every seed name can then be looked up; the rows that
    were there before are still the first rows of the table. *)
Theorem seeded_names_are_found {Ext} (svc : Services Ext) data w :
  storeHealthy svc ->
  exists w',
    seedWith svc data w = (Ok tt, w')
    /\ (exists added, foods w' = (foods w ++ added)%list)
    /\ forall f, In f data ->
         exists row,
           selectByName (ins_nameKorean f) (foods w') = Some row
           /\ nameKorean row = ins_nameKorean f.
Proof.
  intros Hh. destruct (seedLoop_healthy svc data Hh w) as (w' & S & Ha & Hall).
  exists w'. split; [unfold seedWith; now apply tryCatch_ok|].
  split; [exact Ha|]. intros f Hf. specialize (Hall f Hf).
  destruct (selectByName (ins_nameKorean f) (foods w')) as [row|] eqn:Sel;
    [|now elim Hall].
  exists row. split; [reflexivity|].
  unfold selectByName in Sel. apply find_some in Sel as (_ & Hn).
  now apply String.eqb_eq.
Qed.

Lemma seeded_names_are_found_witness :
  let svc := Scenario.plain (ApiError "unused") in
  let w := Scenario.start [Scenario.bibimbap] in
  exists w',
    seedKoreanFoodDatabase svc w = (Ok tt, w')
    /\ map nameKorean (foods w')
       = ["비빔밥"; "김치찌개"; "불고기"; "된장찌개"; "김밥"; "냉면";
          "삼겹살"; "잡채"; "김치"; "호떡"]
    /\ forall f, In f koreanFoodSeedData ->
         exists row,
           selectByName (ins_nameKorean f) (foods w') = Some row
           /\ nameKorean row = ins_nameKorean f.
Proof.
  intros svc w.
  let c := eval vm_compute in (seedKoreanFoodDatabase svc w) in
  match c with
  | (_, ?w') => pose (seeded := w')
  end.
  exists seeded.
  split; [vm_compute; reflexivity|].
  split; [vm_compute; reflexivity|].
  assert (H : seedWith svc koreanFoodSeedData w = (Ok tt, seeded))
    by (vm_compute; reflexivity).
  assert (Hh : storeHealthy svc) by (split; intros; reflexivity).
  destruct (seeded_names_are_found svc koreanFoodSeedData w Hh)
    as (w' & S & _ & Hall).
  rewrite H in S. injection S as E.
  rewrite E. exact Hall.
Defined.

(** X20.  Seeding is idempotent: with a healthy database, a second seeding
    right after the first leaves the table as the first left it and issues
    no insert. *)
Theorem seeding_twice_adds_nothing {Ext} (svc : Services Ext)
    data w r1 w1 r2 w2 :
  storeHealthy svc ->
  seedWith svc data w = (r1, w1) ->
  seedWith svc data w1 = (r2, w2) ->
  foods w2 = foods w1
  /\ exists evs, log w2 = (log w1 ++ evs)%list
                 /\ Forall (fun e => ~ isCreate e) evs.
Proof.
  intros Hh S1 S2.
  destruct (seedLoop_healthy svc data Hh w) as (wa & Sa & _ & Hall).
  unfold seedWith in S1. rewrite (tryCatch_ok _ _ _ _ _ Sa) in S1.
  injection S1 as _ <-.
  unfold seedWith, tryCatch in S2.
  destruct (seedLoop svc data wa) as [[[]|msg] wb] eqn:Sb;
    injection S2 as _ <-; exact (seedLoop_present svc _ _ _ _ Hall Sb).
Qed.

Lemma seeding_twice_adds_nothing_witness :
  let svc := Scenario.plain (ApiError "unused") in
  let w := Scenario.start [] in
  exists r1 w1 r2 w2,
    seedKoreanFoodDatabase svc w = (r1, w1)
    /\ seedKoreanFoodDatabase svc w1 = (r2, w2)
    /\ List.length (foods w1) = 10%nat
    /\ foods w2 = foods w1
    /\ exists evs, log w2 = (log w1 ++ evs)%list
                   /\ Forall (fun e => ~ isCreate e) evs.
Proof.
  intros svc w.
  let c := eval vm_compute in (seedKoreanFoodDatabase svc w) in
  match c with
  | (?r1, ?w1) =>
      let c' := eval vm_compute in (seedKoreanFoodDatabase svc w1) in
      match c' with
      | (?r2, ?w2) => exists r1, w1, r2, w2
      end
  end.
  split; [vm_compute; reflexivity|].
  split; [vm_compute; reflexivity|].
  split; [vm_compute; reflexivity|].
  assert (Hh : storeHealthy svc) by (split; intros; reflexivity).
  match goal with
  | |- foods ?w2 = foods ?w1 /\ _ =>
      assert (H1 : seedWith svc koreanFoodSeedData w = (Ok tt, w1))
        by (vm_compute; reflexivity);
      assert (H2 : seedWith svc koreanFoodSeedData w1 = (Ok tt, w2))
        by (vm_compute; reflexivity)
  end.
  exact (seeding_twice_adds_nothing svc koreanFoodSeedData w _ _ _ _
           Hh H1 H2).
Defined.

(** * The analysis route *)

(** ** Storage operations of the route *)

Section RouteStorage.

Context {Ext : Type} (svc : Services Ext) (be : Backend Ext).

Lemma tables_inv (h h' : Host Ext) :
  tables h' = tables h ->
  pipeline h' = pipeline h /\ users h' = users h
  /\ menuAnalyses h' = menuAnalyses h
  /\ nextAnalysisId h' = nextAnalysisId h.
Proof.
  intros H. repeat split.
  - exact (f_equal (fun t => fst (fst (fst t))) H).
  - exact (f_equal (fun t => snd (fst (fst t))) H).
  - exact (f_equal (fun t => snd (fst t)) H).
  - exact (f_equal snd H).
Qed.

Lemma usageOf_tables (h h' : Host Ext) userId sessionId :
  tables h' = tables h ->
  usageOf h' userId sessionId = usageOf h userId sessionId.
Proof.
  intros T. apply tables_inv in T as (_ & U & A & _).
  unfold usageOf. now rewrite U, A.
Qed.

Lemma ask_inv {A} (oracle : Ext -> A * Ext) h r h' :
  ask oracle h = (r, h') ->
  r = Ok (fst (oracle (ext (world h)))) /\ tables h' = tables h.
Proof.
  unfold ask. destruct (oracle (ext (world h))) as [a x].
  intros H. injection H as <- <-. auto.
Qed.

(** A statement either rejects, leaving the tables alone, or lets the
    rest run on the same tables. *)
Lemma send_inv {A} q (k : Task Ext A) h r h' :
  send be q k h = (r, h') ->
  (exists msg, r = Throw msg /\ tables h' = tables h
               /\ fst (db_error be q (ext (world h))) = Some msg)
  \/ (exists h1, tables h1 = tables h
                 /\ fst (db_error be q (ext (world h))) = None
                 /\ k h1 = (r, h')).
Proof.
  unfold send, andThen.
  destruct (ask (db_error be q) h) as [[err|msg] h1] eqn:E;
    apply ask_inv in E as (E & T); [|discriminate].
  injection E as ->.
  destruct (fst (db_error be q (ext (world h)))) as [msg|] eqn:D.
  - unfold fail. intros H. injection H as <- <-. left. eauto.
  - intros K. right. eauto.
Qed.

Lemma send_up {A} q (k : Task Ext A) h :
  databaseUp be ->
  exists h1, tables h1 = tables h /\ send be q k h = k h1.
Proof.
  intros Up. unfold send, andThen.
  destruct (ask (db_error be q) h) as [[err|msg] h1] eqn:E;
    apply ask_inv in E as (E & T); [|discriminate].
  injection E as ->. rewrite (Up q). eauto.
Qed.

Lemma getUser_inv id h r h' :
  getUser be id h = (r, h') ->
  tables h' = tables h
  /\ ((exists msg, r = Throw msg
                   /\ fst (db_error be (SelectUser id) (ext (world h))) = Some msg)
      \/ r = Ok (userRow id (users h))).
Proof.
  intros G. apply send_inv in G as [(msg & -> & T & D)|(h1 & T & _ & K)].
  - split; [exact T|]. left. eauto.
  - injection K as <- <-. split; [exact T|]. right.
    apply tables_inv in T as (_ & -> & _). reflexivity.
Qed.

Lemma getUsageCount_inv userId sessionId h r h' :
  getUsageCount be userId sessionId h = (r, h') ->
  tables h' = tables h
  /\ ((exists msg, r = Throw msg) \/ r = Ok (usageOf h userId sessionId)).
Proof.
  unfold getUsageCount, usageOf.
  destruct (orElse userId None) as [uid|].
  - intros G. apply send_inv in G as [(msg & -> & T & D)|(h1 & T & _ & K)].
    + split; [exact T|]. left. eauto.
    + injection K as <- <-. split; [exact T|]. right.
      apply tables_inv in T as (_ & -> & _). reflexivity.
  - destruct (orElse sessionId None) as [sid|].
    + intros G. apply send_inv in G as [(msg & -> & T & D)|(h1 & T & _ & K)].
      * split; [exact T|]. left. eauto.
      * injection K as <- <-. split; [exact T|]. right.
        apply tables_inv in T as (_ & _ & -> & _). reflexivity.
    + unfold done. intros G. injection G as <- <-. auto.
Qed.

Lemma getUsageCount_up userId sessionId h :
  databaseUp be ->
  exists h1, tables h1 = tables h
             /\ getUsageCount be userId sessionId h
                = (Ok (usageOf h userId sessionId), h1).
Proof.
  intros Up.
  destruct (getUsageCount be userId sessionId h) as [r h1] eqn:G.
  exists h1. pose proof G as G'. apply getUsageCount_inv in G' as (T & R).
  split; [exact T|]. destruct R as [(msg & ->)| ->]; [|reflexivity].
  exfalso. revert G. unfold getUsageCount.
  destruct (orElse userId None) as [uid|];
    [|destruct (orElse sessionId None) as [sid|]];
    try (intros G; apply send_inv in G as [(m & _ & _ & D)|(h2 & _ & _ & K)];
         [rewrite (Up _) in D; discriminate | discriminate]).
  discriminate.
Qed.

(** Counting a use: the caller's counter goes up by one, or the update
    rejects and nothing changes. *)
Lemma countUse_inv context h r h' :
  countUse be context h = (r, h') ->
  pipeline h' = pipeline h /\ menuAnalyses h' = menuAnalyses h
  /\ nextAnalysisId h' = nextAnalysisId h
  /\ ((exists msg uid,
         r = Throw msg /\ users h' = users h
         /\ orElse (ctx_userId context) None = Some uid
         /\ fst (db_error be (UpdateUsage uid) (ext (world h))) = Some msg)
      \/ (r = Ok tt
          /\ users h' = match orElse (ctx_userId context) None with
                        | Some uid => map (bumped uid) (users h)
                        | None => users h
                        end)).
Proof.
  unfold countUse. destruct (orElse (ctx_userId context) None) as [uid|].
  - intros G. apply send_inv in G as [(msg & -> & T & D)|(h1 & T & _ & K)].
    + apply tables_inv in T as (P & U & A & N). repeat (split; trivial).
      left. exists msg, uid. auto.
    + injection K as <- <-. simpl.
      apply tables_inv in T as (P & U & A & N). repeat (split; trivial).
      right. split; [reflexivity|]. now rewrite U.
  - unfold done. intros G. injection G as <- <-. repeat (split; trivial).
    right. auto.
Qed.

Lemma newest_nonempty rows : rows <> [] -> newest rows <> [].
Proof.
  intros Hne.
  assert (Hmax : exists top, In top rows
            /\ forall other, In other rows ->
                 ma_createdAt other <= ma_createdAt top).
  { clear - Hne. induction rows as [|row rest IH]; [now elim Hne|].
    destruct rest as [|next rest'].
    - exists row. split; [now left|]. intros other [<-|[]]. lia.
    - destruct IH as (top & Hin & Hle); [discriminate|].
      destruct (Z.le_gt_cases (ma_createdAt row) (ma_createdAt top)) as [L|G].
      + exists top. split; [now right|]. intros other [<-|Ho]; auto.
      + exists row. split; [now left|]. intros other [<-|Ho]; [lia|].
        specialize (Hle other Ho). lia. }
  destruct Hmax as (top & Hin & Hle). intros E.
  assert (Hn : In top (newest rows)).
  { unfold newest. apply filter_In. split; [exact Hin|].
    apply forallb_forall. intros other Ho. apply Z.leb_le. auto. }
  rewrite E in Hn. exact Hn.
Qed.

Lemma newest_In rows row : In row (newest rows) -> In row rows.
Proof. unfold newest. intros H. now apply filter_In in H. Qed.

(** The cache lookup: a rejection, nothing when no row carries the hash,
    or one of the newest rows that carry it. *)
Lemma getCached_inv imageHash h r h' :
  getCachedAnalysisByImageHash be imageHash h = (r, h') ->
  tables h' = tables h
  /\ ((exists msg, r = Throw msg
         /\ fst (db_error be (SelectByHash imageHash) (ext (world h))) = Some msg)
      \/ (r = Ok None /\ filter (hashed imageHash) (menuAnalyses h) = [])
      \/ (exists row, r = Ok (Some row)
            /\ In row (newest (filter (hashed imageHash) (menuAnalyses h))))).
Proof.
  intros G. apply send_inv in G as [(msg & -> & T & D)|(h1 & T & _ & K)].
  - split; [exact T|]. left. eauto.
  - unfold andThen in K.
    destruct (ask (db_pick be) h1) as [[choice|msg] h2] eqn:E;
      apply ask_inv in E as (E & T2); [|discriminate].
    injection K as <- <-.
    assert (T3 : tables h2 = tables h) by congruence.
    split; [exact T3|]. right.
    apply tables_inv in T3 as (_ & _ & -> & _).
    set (candidates := newest (filter (hashed imageHash) (menuAnalyses h))).
    destruct (nth_error candidates
                (Nat.modulo choice (List.length candidates))) as [row|] eqn:N.
    + right. exists row. split; [reflexivity|]. eapply nth_error_In, N.
    + left. split; [reflexivity|].
      apply nth_error_None in N.
      destruct (filter (hashed imageHash) (menuAnalyses h)) as [|r0 rest] eqn:F;
        [reflexivity|].
      exfalso.
      assert (Hne : candidates <> []) by (apply newest_nonempty; discriminate).
      destruct candidates as [|c0 cs]; [now elim Hne|].
      pose proof (Nat.mod_upper_bound choice (List.length (c0 :: cs))) as B.
      simpl in B, N. lia.
Qed.

Lemma createMenuAnalysis_inv analysis h r h' :
  createMenuAnalysis be analysis h = (r, h') ->
  pipeline h' = pipeline h /\ users h' = users h
  /\ ((exists msg, r = Throw msg /\ menuAnalyses h' = menuAnalyses h
                   /\ nextAnalysisId h' = nextAnalysisId h
                   /\ fst (db_error be (InsertAnalysis analysis)
                             (ext (world h))) = Some msg)
      \/ (exists now,
            r = Ok (storedAnalysis (nextAnalysisId h) now analysis)
            /\ menuAnalyses h'
               = (menuAnalyses h
                  ++ [storedAnalysis (nextAnalysisId h) now analysis])%list
            /\ nextAnalysisId h' = nextAnalysisId h + 1)).
Proof.
  intros G. apply send_inv in G as [(msg & -> & T & D)|(h1 & T & _ & K)].
  - apply tables_inv in T as (P & U & A & N). repeat (split; trivial).
    left. exists msg. auto.
  - unfold andThen in K.
    destruct (ask (db_now be) h1) as [[now|msg] h2] eqn:E;
      apply ask_inv in E as (E & T2); [|discriminate].
    injection K as <- <-. simpl.
    assert (T3 : tables h2 = tables h) by congruence.
    apply tables_inv in T3 as (P & U & A & N). repeat (split; trivial).
    right. exists now. rewrite A, N. auto.
Qed.

Lemma inWorld_inv {A} (m : M Ext A) h r h' :
  inWorld m h = (r, h') ->
  m (world h) = (r, world h') /\ users h' = users h
  /\ menuAnalyses h' = menuAnalyses h
  /\ nextAnalysisId h' = nextAnalysisId h.
Proof.
  unfold inWorld. destruct (m (world h)) as [r0 w'].
  intros H. injection H as <- <-. auto.
Qed.

End RouteStorage.

(** ** The usage middleware *)

Section Gate.

Context {Ext : Type} (be : Backend Ext).

Lemma orElse_given s t : orElse s None = Some t -> s = Some t /\ truthy t = true.
Proof.
  destruct s as [u|]; simpl; [|discriminate].
  destruct (truthy u) eqn:T; [|discriminate].
  intros H. injection H as <-. auto.
Qed.

Lemma callerOf_given req : orElse (callerOf req) None = callerOf req.
Proof.
  unfold callerOf. destruct (isAuthenticated req); simpl; [|reflexivity].
  destruct (claimsSub req) as [s|]; simpl; [|reflexivity].
  destruct (truthy s) eqn:T; simpl; [now rewrite T | reflexivity].
Qed.

Lemma usageOf_session (h : Host Ext) userId sessionId sid :
  orElse sessionId None = Some sid ->
  usageOf h userId (Some sid) = usageOf h userId sessionId.
Proof.
  intros O. unfold usageOf. rewrite O.
  apply orElse_given in O as (_ & T). simpl. now rewrite T.
Qed.

(** The middleware works for the signed-in caller, or else for the
    session of the request, or else for a session it names itself. *)
Lemma identify_inv req h r h' :
  identify be req h = (r, h') ->
  tables h' = tables h
  /\ exists sessionId,
       r = Ok (callerOf req, sessionId)
       /\ match callerOf req with
          | Some _ => sessionId = None
          | None =>
              exists sid, sessionId = Some sid
                /\ forall s, orElse (sessionID req) None = Some s -> sid = s
          end.
Proof.
  unfold identify, callerOf.
  destruct (isAuthenticated req && present (claimsSub req)) eqn:C.
  - unfold done. intros H. injection H as <- <-. split; [reflexivity|].
    exists None. split; [reflexivity|].
    destruct (claimsSub req); [reflexivity|].
    rewrite andb_comm in C. discriminate.
  - destruct (orElse (sessionID req) None) as [sid|] eqn:O.
    + unfold done. intros H. injection H as <- <-. split; [reflexivity|].
      exists (Some sid). split; [reflexivity|]. exists sid.
      split; [reflexivity|]. intros s Hs. now injection Hs.
    + unfold andThen.
      destruct (ask (nanoid be) h) as [[fresh|msg] h1] eqn:E;
        apply ask_inv in E as (E & T); [|discriminate].
      unfold done. intros H. injection H as <- <-. split; [exact T|].
      exists (Some fresh). split; [reflexivity|]. exists fresh.
      split; [reflexivity|]. discriminate.
Qed.

(** Every way the middleware can end. *)
Lemma checkUsageLimit_inv req h r h' :
  checkUsageLimit be req h = (r, h') ->
  tables h' = tables h
  /\ exists sessionId,
       match callerOf req with
       | Some _ => sessionId = None
       | None =>
           exists sid, sessionId = Some sid
             /\ forall s, orElse (sessionID req) None = Some s -> sid = s
       end
       /\ let n := usageOf h (callerOf req) sessionId in
          let context := {| ctx_userId := callerOf req;
                            ctx_sessionId := sessionId;
                            ctx_usageCount := n |} in
          (r = Ok (inl checkFailed)
           /\ exists q x msg, fst (db_error be q x) = Some msg)
          \/ (r = Ok (inr context)
              /\ ((3 <=? n) && negb (isAdmin (callerOf req)) = false
                  \/ exists uid, callerOf req = Some uid
                       /\ premium (userRow uid (users h)) = true))
          \/ ((3 <=? n) && negb (isAdmin (callerOf req)) = true
              /\ ((callerOf req = None
                   /\ r = Ok (inl (limitReached anonymousLimitMessage n
                                                requiresAuth)))
                  \/ (exists uid, callerOf req = Some uid
                        /\ premium (userRow uid (users h)) = false
                        /\ r = Ok (inl (limitReached accountLimitMessage n
                                                     requiresPayment))))).
Proof.
  unfold checkUsageLimit, attempt. unfold andThen at 1.
  destruct (identify be req h) as [[ids|msg] h1] eqn:I;
    apply identify_inv in I as (T1 & sessionId & I & S); [|discriminate].
  injection I as ->. simpl fst. simpl snd.
  unfold andThen at 1.
  destruct (getUsageCount be (callerOf req) sessionId h1) as [[n|msg] h2] eqn:G.
  2:{ unfold done. intros H. injection H as <- <-.
      pose proof G as G'. apply getUsageCount_inv in G' as (T2 & _).
      split; [congruence|]. exists sessionId. split; [exact S|]. left.
      split; [reflexivity|].
      revert G. unfold getUsageCount.
      destruct (orElse (callerOf req) None) as [uid|];
        [|destruct (orElse sessionId None) as [sid|]];
        try (intros G; apply send_inv in G as [(m & _ & _ & D)|(h3 & _ & _ & K)];
             [eauto | discriminate]).
      discriminate. }
  apply getUsageCount_inv in G as (T2 & [(m & G)|G]); [discriminate|].
  injection G as ->. rewrite (usageOf_tables h h1 _ _ T1).
  assert (T : tables h2 = tables h) by congruence.
  set (n := usageOf h (callerOf req) sessionId).
  destruct ((3 <=? n) && negb (isAdmin (callerOf req))) eqn:Over.
  2:{ unfold done. intros H. injection H as <- <-. split; [exact T|].
      exists sessionId. split; [exact S|]. right. left. auto. }
  rewrite callerOf_given.
  destruct (callerOf req) as [uid|] eqn:C.
  - unfold andThen.
    destruct (getUser be uid h2) as [[user|msg] h3] eqn:U;
      apply getUser_inv in U as (T3 & [(m & U & D)|U]); try discriminate.
    + injection U as ->.
      apply tables_inv in T as T'. destruct T' as (_ & -> & _).
      destruct (premium (userRow uid (users h))) eqn:Pr; simpl;
        unfold done; intros H; injection H as <- <-;
        (split; [congruence|]); exists sessionId; (split; [exact S|]).
      * right. left. split; [reflexivity|]. right. eauto.
      * right. right. split; [exact Over|]. right. eauto.
    + injection U as ->. unfold done. intros H. injection H as <- <-.
      split; [congruence|]. exists sessionId. split; [exact S|]. left.
      split; [reflexivity|]. eauto.
  - unfold done. intros H. injection H as <- <-. split; [exact T|].
    exists sessionId. split; [exact S|]. right. right.
    split; [exact Over|]. left. auto.
Qed.

Lemma identify_exact req h r h' :
  identify be req h = (r, h') ->
  tables h' = tables h /\ r = Ok (callerOf req, sessionFor be req h).
Proof.
  unfold identify, sessionFor, callerOf.
  destruct (isAuthenticated req && present (claimsSub req)) eqn:C.
  - unfold done. intros H. injection H as <- <-. split; [reflexivity|].
    destruct (claimsSub req); [reflexivity|].
    rewrite andb_comm in C. discriminate.
  - destruct (orElse (sessionID req) None) as [sid|] eqn:O.
    + unfold done. intros H. injection H as <- <-. now split.
    + unfold andThen.
      destruct (ask (nanoid be) h) as [[fresh|msg] h1] eqn:E;
        apply ask_inv in E as (E & T); [|discriminate].
      injection E as ->.
      unfold done. intros H. injection H as <- <-. now split.
Qed.

(** Every way the middleware can end, for the session it works for. *)
Lemma checkUsageLimit_exact req h r h' :
  checkUsageLimit be req h = (r, h') ->
  tables h' = tables h
  /\ let sessionId := sessionFor be req h in
     let n := usageOf h (callerOf req) sessionId in
     let context := {| ctx_userId := callerOf req;
                       ctx_sessionId := sessionId;
                       ctx_usageCount := n |} in
     (r = Ok (inl checkFailed)
      /\ exists q x msg, fst (db_error be q x) = Some msg)
     \/ (r = Ok (inr context)
         /\ ((3 <=? n) && negb (isAdmin (callerOf req)) = false
             \/ exists uid, callerOf req = Some uid
                  /\ premium (userRow uid (users h)) = true))
     \/ ((3 <=? n) && negb (isAdmin (callerOf req)) = true
         /\ ((callerOf req = None
              /\ r = Ok (inl (limitReached anonymousLimitMessage n
                                           requiresAuth)))
             \/ (exists uid, callerOf req = Some uid
                   /\ premium (userRow uid (users h)) = false
                   /\ r = Ok (inl (limitReached accountLimitMessage n
                                                requiresPayment))))).
Proof.
  cbv zeta. set (sessionId := sessionFor be req h).
  unfold checkUsageLimit, attempt. unfold andThen at 1.
  destruct (identify be req h) as [[ids|msg] h1] eqn:I;
    apply identify_exact in I as (T1 & I); [|discriminate].
  injection I as ->. simpl fst. simpl snd. fold sessionId.
  unfold andThen at 1.
  destruct (getUsageCount be (callerOf req) sessionId h1) as [[n|msg] h2] eqn:G.
  2:{ unfold done. intros H. injection H as <- <-.
      pose proof G as G'. apply getUsageCount_inv in G' as (T2 & _).
      split; [congruence|]. left.
      split; [reflexivity|].
      revert G. unfold getUsageCount.
      destruct (orElse (callerOf req) None) as [uid|];
        [|destruct (orElse sessionId None) as [sid|]];
        try (intros G; apply send_inv in G as [(m & _ & _ & D)|(h3 & _ & _ & K)];
             [eauto | discriminate]).
      discriminate. }
  apply getUsageCount_inv in G as (T2 & [(m & G)|G]); [discriminate|].
  injection G as ->. rewrite (usageOf_tables h h1 _ _ T1).
  assert (T : tables h2 = tables h) by congruence.
  set (n := usageOf h (callerOf req) sessionId).
  destruct ((3 <=? n) && negb (isAdmin (callerOf req))) eqn:Over.
  2:{ unfold done. intros H. injection H as <- <-. split; [exact T|].
      right. left. auto. }
  rewrite callerOf_given.
  destruct (callerOf req) as [uid|] eqn:C.
  - unfold andThen.
    destruct (getUser be uid h2) as [[user|msg] h3] eqn:U;
      apply getUser_inv in U as (T3 & [(m & U & D)|U]); try discriminate.
    + injection U as ->.
      apply tables_inv in T as T'. destruct T' as (_ & -> & _).
      destruct (premium (userRow uid (users h))) eqn:Pr; simpl;
        unfold done; intros H; injection H as <- <-;
        (split; [congruence|]).
      * right. left. split; [reflexivity|]. right. eauto.
      * right. right. split; [first [exact Over | reflexivity]|]. right. eauto.
    + injection U as ->. unfold done. intros H. injection H as <- <-.
      split; [congruence|]. left.
      split; [reflexivity|]. eauto.
  - unfold done. intros H. injection H as <- <-. split; [exact T|].
    right. right.
    split; [first [exact Over | reflexivity]|]. left. auto.
Qed.

End Gate.

Lemma isAdmin_false caller :
  isAdmin caller = false <-> caller <> Some adminUserId.
Proof.
  destruct caller as [uid|]; simpl.
  - destruct (String.eqb_spec uid adminUserId) as [->|Hne].
    + split; [discriminate | intros H; now elim H].
    + split; [intros _ H; injection H as H; auto | reflexivity].
  - split; [discriminate | reflexivity].
Qed.

(** X21.  The usage middleware never throws and changes no table.  It
    works for the signed-in caller or else for a session: the session of
    the request, or a fresh one when the request has none.  It answers 402
    only to a caller other than the administrator whose count, the
    counter of the signed-in caller or else the number of analyses of that
    session, has reached 3 and who, when signed in, has no premium row;
    whoever it lets through gets a context with their id, that session and
    that count. *)
Theorem usage_gate_sound {Ext} (be : Backend Ext) req h r h' :
  checkUsageLimit be req h = (r, h') ->
  tables h' = tables h
  /\ sessionFor be req h
     = match callerOf req, orElse (sessionID req) None with
       | Some _, _ => None
       | None, Some sid => Some sid
       | None, None => Some (fst (nanoid be (ext (world h))))
       end
  /\ exists answer,
       r = Ok answer
       /\ match answer with
          | inl response =>
              response = checkFailed
              \/ (status response = 402
                  /\ 3 <= usageOf h (callerOf req) (sessionFor be req h)
                  /\ callerOf req <> Some adminUserId
                  /\ forall uid, callerOf req = Some uid ->
                       premium (userRow uid (users h)) = false)
          | inr context =>
              context = {| ctx_userId := callerOf req;
                           ctx_sessionId := sessionFor be req h;
                           ctx_usageCount :=
                             usageOf h (callerOf req) (sessionFor be req h) |}
          end.
Proof.
  intros G. apply checkUsageLimit_exact in G as (T & G).
  split; [exact T|]. split; [reflexivity|]. cbv zeta in G.
  destruct G as [(-> & _)|[(-> & _)|(Over & G)]].
  - exists (inl checkFailed). auto.
  - eexists (inr _). split; reflexivity.
  - apply andb_true_iff in Over as (Hn & Ha).
    apply Z.leb_le in Hn. apply negb_true_iff, isAdmin_false in Ha.
    destruct G as [(C & ->)|(uid & C & Pr & ->)];
      eexists (inl _); (split; [reflexivity|]); right;
      (split; [reflexivity|]); (split; [exact Hn|]); (split; [exact Ha|]).
    + intros uid Hc. rewrite C in Hc. discriminate.
    + intros uid' Hc. rewrite C in Hc. injection Hc as <-. exact Pr.
Qed.

Lemma usage_gate_sound_witness :
  let be := Deployment.up in
  let h := Deployment.start []
             [Deployment.earlier 1 "s1"; Deployment.earlier 2 "s1";
              Deployment.earlier 3 "s1"; Deployment.earlier 4 "s2"] in
  let req := Deployment.upload "AAAA" "s1" in
  exists h',
    checkUsageLimit be req h
    = (Ok (inl (limitReached anonymousLimitMessage 3 requiresAuth)), h')
    /\ sessionFor be req h = Some "s1"
    /\ usageOf h (callerOf req) (sessionFor be req h) = 3
    /\ tables h' = tables h
    /\ exists answer,
         Ok (inl (limitReached anonymousLimitMessage 3 requiresAuth))
         = Ok answer
         /\ match answer with
            | inl response =>
                response = checkFailed
                \/ (status response = 402
                    /\ 3 <= usageOf h (callerOf req) (sessionFor be req h)
                    /\ callerOf req <> Some adminUserId
                    /\ forall uid, callerOf req = Some uid ->
                         premium (userRow uid (users h)) = false)
            | inr context =>
                context = {| ctx_userId := callerOf req;
                             ctx_sessionId := sessionFor be req h;
                             ctx_usageCount :=
                               usageOf h (callerOf req)
                                       (sessionFor be req h) |}
            end.
Proof.
  intros be h req.
  let c := eval vm_compute in (checkUsageLimit be req h) in
  match c with
  | (_, ?v) => exists v
  end.
  match goal with
  | |- ?A /\ _ => assert (H : A) by (vm_compute; reflexivity)
  end.
  pose proof (usage_gate_sound be req h _ _ H) as (T & _ & R).
  exact (conj H (conj eq_refl (conj eq_refl (conj T R)))).
Defined.

(** X22.  With the database up the middleware decides by the tables alone:
    it refuses, with status 402 and a message that [isUsageLimitError]
    recognises, exactly the callers other than the administrator whose
    count has reached 3 and who have no premium row; an anonymous caller
    is told to sign in, a signed-in one to pay. *)
Theorem usage_gate_decides {Ext} (be : Backend Ext) req h :
  databaseUp be ->
  exists h' answer sessionId,
    checkUsageLimit be req h = (Ok answer, h')
    /\ (forall s, callerOf req = None ->
          orElse (sessionID req) None = Some s -> sessionId = Some s)
    /\ let n := usageOf h (callerOf req) sessionId in
       let refused :=
         3 <= n /\ callerOf req <> Some adminUserId
         /\ forall uid, callerOf req = Some uid ->
              premium (userRow uid (users h)) = false in
       match answer with
       | inl response =>
           refused
           /\ exists message,
                isUsageLimitError message = true
                /\ response
                   = limitReached message n
                       (match callerOf req with
                        | Some _ => requiresPayment
                        | None => requiresAuth
                        end)
       | inr context =>
           ~ refused
           /\ context = {| ctx_userId := callerOf req;
                           ctx_sessionId := sessionId;
                           ctx_usageCount := n |}
       end.
Proof.
  intros Up.
  destruct (checkUsageLimit be req h) as [r h'] eqn:G.
  apply checkUsageLimit_inv in G as (T & sessionId & S & G). cbv zeta in G.
  assert (Hs : forall s, callerOf req = None ->
                 orElse (sessionID req) None = Some s -> sessionId = Some s).
  { intros s C O. rewrite C in S. destruct S as (sid & -> & Hsid).
    now rewrite (Hsid s O). }
  destruct G as [(_ & q & x & msg & D)|[(-> & G)|(Over & G)]].
  - rewrite (Up q x) in D. discriminate.
  - exists h'. eexists (inr _), sessionId. split; [reflexivity|].
    split; [exact Hs|]. cbv zeta. split; [|reflexivity].
    intros (Hn & Ha & Hp). destruct G as [Under|(uid & C & Pr)].
    + apply andb_false_iff in Under as [Hlt|Hadm].
      * apply Z.leb_gt in Hlt. lia.
      * apply negb_false_iff in Hadm. apply isAdmin_false in Ha. congruence.
    + rewrite (Hp uid C) in Pr. discriminate.
  - apply andb_true_iff in Over as (Hn & Ha).
    apply Z.leb_le in Hn. apply negb_true_iff, isAdmin_false in Ha.
    destruct G as [(C & ->)|(uid & C & Pr & ->)];
      exists h'; eexists (inl _), sessionId; (split; [reflexivity|]);
      (split; [exact Hs|]); cbv zeta; split.
    + split; [exact Hn|]. split; [exact Ha|].
      intros uid Hc. rewrite C in Hc. discriminate.
    + exists anonymousLimitMessage. split; [reflexivity|]. now rewrite C.
    + split; [exact Hn|]. split; [exact Ha|].
      intros uid' Hc. rewrite C in Hc. injection Hc as <-. exact Pr.
    + exists accountLimitMessage. split; [reflexivity|]. now rewrite C.
Qed.

Lemma usage_gate_decides_witness :
  let be := Deployment.up in
  let h := Deployment.start
             [mkUser "44879184" false 10; mkUser "1001" false 3] [] in
  let req := Deployment.signedIn "AAAA" "44879184" in
  databaseUp be
  /\ fst (checkUsageLimit be req h)
     = Ok (inr {| ctx_userId := Some "44879184";
                  ctx_sessionId := None;
                  ctx_usageCount := 10 |})
  /\ fst (checkUsageLimit be (Deployment.signedIn "AAAA" "1001") h)
     = Ok (inl (limitReached accountLimitMessage 3 requiresPayment))
  /\ exists h' answer sessionId,
       checkUsageLimit be req h = (Ok answer, h')
       /\ (forall s, callerOf req = None ->
             orElse (sessionID req) None = Some s -> sessionId = Some s)
       /\ let n := usageOf h (callerOf req) sessionId in
          let refused :=
            3 <= n /\ callerOf req <> Some adminUserId
            /\ forall uid, callerOf req = Some uid ->
                 premium (userRow uid (users h)) = false in
          match answer with
          | inl response =>
              refused
              /\ exists message,
                   isUsageLimitError message = true
                   /\ response
                      = limitReached message n
                          (match callerOf req with
                           | Some _ => requiresPayment
                           | None => requiresAuth
                           end)
          | inr context =>
              ~ refused
              /\ context = {| ctx_userId := callerOf req;
                              ctx_sessionId := sessionId;
                              ctx_usageCount := n |}
          end.
Proof.
  intros be h req.
  assert (Up : databaseUp be) by (intros q x; reflexivity).
  split; [exact Up|].
  split; [vm_compute; reflexivity|].
  split; [vm_compute; reflexivity|].
  exact (usage_gate_decides be req h Up).
Defined.

(** ** The handler *)

Section Handler.

Context {Ext : Type} (svc : Services Ext) (be : Backend Ext).

(** Some statement of the route is rejected in some state. *)
#[local] Abbreviation rejecting :=
  (exists q x msg, fst (db_error be q x) = Some msg).

Lemma imageOf_inv req (h : Host Ext) r h' :
  imageOf req h = (r, h') ->
  h' = h
  /\ match imageText req with
     | Some img => r = Ok (inr img)
     | None =>
         (exists msg, r = Throw msg)
         \/ exists response,
              r = Ok (inl response) /\ status response = 400
              /\ isAnalysis response = false
     end.
Proof.
  unfold imageOf, imageText.
  destruct (file req) as [encoded|].
  - unfold done. intros H. injection H as <- <-. auto.
  - destruct (body req) as [typeError|[|s|[|]]].
    + unfold fail. intros H. injection H as <- <-. split; [reflexivity|].
      left. eauto.
    + unfold done. intros H. injection H as <- <-. split; [reflexivity|].
      right. eexists. split; [reflexivity|]. auto.
    + destruct (truthy s); unfold done; intros H; injection H as <- <-;
        (split; [reflexivity|]); [reflexivity|].
      right. eexists. split; [reflexivity|]. auto.
    + unfold done. intros H. injection H as <- <-. split; [reflexivity|].
      right. eexists. split; [reflexivity|]. auto.
    + unfold done. intros H. injection H as <- <-. split; [reflexivity|].
      right. eexists. split; [reflexivity|]. auto.
Qed.

(** The inner [try] body, step by step. *)
Lemma analyzeFresh_inv context img h r h' :
  analyzeFresh svc be context img h = (r, h') ->
  exists ra w1,
    analyzeKoreanMenu svc img (world h) = (ra, w1)
    /\ nextAnalysisId h' >= nextAnalysisId h
    /\ match ra with
       | Throw msg =>
           r = Throw msg /\ world h' = w1 /\ users h' = users h
           /\ menuAnalyses h' = menuAnalyses h
       | Ok analysis =>
           (foods (world h'), nextId (world h'), log (world h'))
           = (foods w1, nextId w1, log w1)
           /\ ((exists msg, r = Throw msg /\ users h' = users h
                            /\ menuAnalyses h' = menuAnalyses h /\ rejecting)
               \/ exists now,
                    let row := storedAnalysis (nextAnalysisId h) now
                                 (analysisRecord be context img analysis) in
                    menuAnalyses h' = (menuAnalyses h ++ [row])%list
                    /\ ((exists msg, r = Throw msg /\ users h' = users h
                                     /\ rejecting)
                        \/ (r = Ok (freshResponse row analysis)
                            /\ users h'
                               = match orElse (ctx_userId context) None with
                                 | Some uid => map (bumped uid) (users h)
                                 | None => users h
                                 end)))
       end.
Proof.
  unfold analyzeFresh. unfold andThen at 1.
  destruct (inWorld (analyzeKoreanMenu svc img) h) as [[analysis|msg] h1] eqn:A;
    apply inWorld_inv in A as (A & U1 & M1 & N1).
  2:{ intros H. injection H as <- <-. exists (Throw msg), (world h1).
      split; [exact A|]. split; [lia|]. auto. }
  exists (Ok analysis), (world h1). split; [exact A|].
  revert H. cbv beta iota. unfold andThen at 1.
  destruct (createMenuAnalysis be (analysisRecord be context img analysis) h1)
    as [[created|msg] h2] eqn:C;
    apply createMenuAnalysis_inv in C as (P2 & U2 & C).
  2:{ intros H. injection H as <- <-.
      destruct C as [(m & _ & M2 & N2 & D)|(now & C & _)]; [|discriminate].
      split; [lia|]. split; [exact P2|]. left. exists msg.
      split; [reflexivity|]. split; [congruence|]. split; [congruence|].
      eauto. }
  destruct C as [(m & C & _)|(now & C & M2 & N2)]; [discriminate|].
  injection C as ->. cbv beta iota. unfold andThen.
  destruct (countUse be context h2) as [[[]|msg] h3] eqn:K;
    apply countUse_inv in K as (P3 & M3 & N3 & K);
    destruct K as [(m & uid & K & U3 & _ & D)|(K & U3)]; try discriminate;
    unfold done; intros H; injection H as <- <-;
    (split; [lia|]); (split; [unfold pipeline in *; congruence|]);
    right; exists now; cbv zeta; rewrite <- N1, <- M1;
    (split; [congruence|]).
  - right. split; [reflexivity|]. rewrite U3, U2, U1. reflexivity.
  - left. exists msg. split; [reflexivity|]. split; [congruence|]. eauto.
Qed.

(** Every way the handler can end. *)
Lemma analyzeMenuHandler_inv req context h r h' :
  analyzeMenuHandler svc be req context h = (r, h') ->
  exists response,
    r = Ok response
    /\ ((imageText req = None /\ tables h' = tables h
         /\ (status response = 400 \/ status response = 500)
         /\ isAnalysis response = false)
        \/ exists img,
             imageText req = Some img
             /\ ((exists msg, response = failure be msg
                    /\ tables h' = tables h /\ rejecting)
                 \/ (exists row,
                       In row (newest (filter (hashed (sha256 be img))
                                              (menuAnalyses h)))
                       /\ pipeline h' = pipeline h
                       /\ menuAnalyses h' = menuAnalyses h
                       /\ nextAnalysisId h' = nextAnalysisId h
                       /\ ((exists msg, response = failure be msg
                              /\ users h' = users h /\ rejecting)
                           \/ (response = cachedResponse row
                               /\ users h'
                                  = match orElse (ctx_userId context) None with
                                    | Some uid => map (bumped uid) (users h)
                                    | None => users h
                                    end)))
                 \/ (filter (hashed (sha256 be img)) (menuAnalyses h) = []
                     /\ exists h1 rf,
                          tables h1 = tables h
                          /\ analyzeFresh svc be context img h1 = (rf, h')
                          /\ response
                             = match rf with
                               | Ok fresh => fresh
                               | Throw msg =>
                                   if truthy msg
                                      && includes msg "FOOD_LIMIT_ERROR:"
                                   then {| status := 400;
                                           payload :=
                                             LimitError
                                               (replaceFirst
                                                  "FOOD_LIMIT_ERROR: " "" msg) |}
                                   else failure be msg
                               end))).
Proof.
  unfold analyzeMenuHandler, attempt. unfold andThen at 1.
  destruct (imageOf req h) as [[image|msg] h0] eqn:I;
    apply imageOf_inv in I as (-> & I).
  2:{ unfold done. intros H. injection H as <- <-. eexists.
      split; [reflexivity|]. left.
      destruct (imageText req) as [img|]; [discriminate|].
      repeat split. now right. }
  destruct (imageText req) as [img|] eqn:Img.
  2:{ destruct I as [(m & I)|(response & I & St & An)]; [discriminate|].
      injection I as ->. unfold done. intros H. injection H as <- <-.
      exists response. split; [reflexivity|]. left. repeat split; auto. }
  injection I as ->. unfold andThen at 1.
  destruct (getCachedAnalysisByImageHash be (sha256 be img) h)
    as [[cachedAnalysis|msg] h1] eqn:G;
    apply getCached_inv in G as (T1 & G).
  2:{ destruct G as [(m & G & D)|[(G & _)|(row & G & _)]]; try discriminate.
      injection G as <-. unfold done. intros H. injection H as <- <-.
      eexists. split; [reflexivity|]. right. exists img.
      split; [reflexivity|]. left. exists msg. split; [reflexivity|].
      split; [exact T1|]. eauto. }
  destruct G as [(m & G & _)|[(G & F)|(row & G & Hin)]]; try discriminate.
  - injection G as ->.
    destruct (analyzeFresh svc be context img h1) as [[fresh|msg] h2] eqn:A.
    + intros H. injection H as <- <-. exists fresh. split; [reflexivity|].
      right. exists img. split; [reflexivity|]. right. right.
      split; [exact F|]. exists h1, (Ok fresh). auto.
    + unfold onAnalysisError.
      destruct (truthy msg && includes msg "FOOD_LIMIT_ERROR:") eqn:L;
        unfold done, fail; intros H; injection H as <- <-;
        eexists; (split; [reflexivity|]); right; exists img;
        (split; [reflexivity|]); right; right; (split; [exact F|]);
        exists h1, (Throw msg); rewrite L; auto.
  - injection G as ->. apply tables_inv in T1 as (P1 & U1 & M1 & N1).
    unfold andThen.
    destruct (countUse be context h1) as [[[]|msg] h2] eqn:K;
      apply countUse_inv in K as (P2 & M2 & N2 & K);
      destruct K as [(m & uid & K & U2 & _ & D)|(K & U2)]; try discriminate;
      unfold done; intros H; injection H as <- <-;
      eexists; (split; [reflexivity|]); right; exists img;
      (split; [reflexivity|]); right; left; exists row;
      (split; [exact Hin|]); (split; [congruence|]); (split; [congruence|]);
      (split; [congruence|]).
    + right. split; [reflexivity|]. rewrite U2, U1. reflexivity.
    + left. exists msg. split; [reflexivity|]. split; [congruence|]. eauto.
Qed.

End Handler.

(** ** The route as a whole *)

Section Route.

Context {Ext : Type} (svc : Services Ext) (be : Backend Ext).

#[local] Abbreviation rejecting :=
  (exists q x msg, fst (db_error be q x) = Some msg).

Lemma analysis_rejects_long_menus img w ocr n :
  decodeOcr (fst (openai_ocr svc img (ext w))) = Ok ocr ->
  totalDetected ocr = Some n ->
  3 < n ->
  exists w1,
    analyzeKoreanMenu svc img w = (Throw (foodLimitMessage n), w1)
    /\ foods w1 = foods w /\ nextId w1 = nextId w
    /\ log w1 = (log w ++ [EvOcr img])%list.
Proof.
  intros D T N.
  destruct (extractKoreanFoodNames svc img w) as [r w1] eqn:E.
  pose proof (extract_cases svc _ _ _ _ E) as (F & Nx & L & R).
  destruct r as [ocr'|msg].
  - rewrite D in R. injection R as <-. exists w1.
    split; [|auto].
    unfold analyzeKoreanMenu, tryCatch, bind. rewrite E, T.
    rewrite (overLimit_above n N). unfold throw.
    now rewrite foodLimitMessage_tagged.
  - destruct R as (_ & cause & R). rewrite D in R. discriminate.
Qed.

Lemma limit_message_stripped n :
  truthy (foodLimitMessage n) && includes (foodLimitMessage n) "FOOD_LIMIT_ERROR:"
  = true
  /\ replaceFirst "FOOD_LIMIT_ERROR: " "" (foodLimitMessage n)
     = "Too many menu items detected (" ++ ofZ n
       ++ " items found). Please upload a photo with 3 or fewer menu items for analysis.".
Proof.
  split.
  - apply andb_true_iff. split; [reflexivity|].
    exact (foodLimitMessage_tagged n).
  - reflexivity.
Qed.

Lemma hashed_stored img newId now context analysis :
  hashed (sha256 be img)
         (storedAnalysis newId now (analysisRecord be context img analysis))
  = true.
Proof. unfold hashed. simpl. apply String.eqb_refl. Qed.

Lemma refusal_failure msg : refusal (failure be msg).
Proof. split; simpl; auto. Qed.

Lemma refusal_caught msg :
  refusal (if truthy msg && includes msg "FOOD_LIMIT_ERROR:"
           then {| status := 400;
                   payload := LimitError
                                (replaceFirst "FOOD_LIMIT_ERROR: " "" msg) |}
           else failure be msg).
Proof.
  destruct (truthy msg && includes msg "FOOD_LIMIT_ERROR:");
    split; simpl; auto.
Qed.

(** The handler answers with an analysis or with a refusal. *)
Lemma handler_answers req context h r h' :
  analyzeMenuHandler svc be req context h = (r, h') ->
  exists response,
    r = Ok response
    /\ (refusal response
        \/ (status response = 200 /\ isAnalysis response = true)).
Proof.
  intros G. apply analyzeMenuHandler_inv in G as (response & -> & G).
  exists response. split; [reflexivity|].
  destruct G as [(Img & T & St & An)|(img & Img & G)].
  - left. split; [exact An|]. tauto.
  - destruct G as [(msg & -> & _)|[(row & _ & _ & _ & _ & G)|(_ & h1 & rf & _ & A & ->)]].
    + left. apply refusal_failure.
    + destruct G as [(msg & -> & _)|(-> & _)].
      * left. apply refusal_failure.
      * right. auto.
    + apply analyzeFresh_inv in A as (ra & w1 & _ & _ & A).
      destruct ra as [analysis|msg].
      * destruct A as (_ & [(msg & -> & _)|(now & _ & [(msg & -> & _)|(-> & _)])]).
        -- left. now apply refusal_caught.
        -- left. now apply refusal_caught.
        -- right. auto.
      * destruct A as (-> & _). left. now apply refusal_caught.
Qed.

End Route.

(** X23.  The analysis route always answers: it never throws, its status
    is 200, 400, 402 or 500, and it is 200 exactly when the body is an
    analysis, fresh or cached. *)
Theorem route_always_answers {Ext} (svc : Services Ext) (be : Backend Ext)
    req h r h' :
  analyzeMenu svc be req h = (r, h') ->
  exists response,
    r = Ok response
    /\ In (status response) [200; 400; 402; 500]
    /\ (status response = 200 <-> isAnalysis response = true).
Proof.
  unfold analyzeMenu, andThen.
  destruct (checkUsageLimit be req h) as [r0 h0] eqn:G.
  apply checkUsageLimit_inv in G as (_ & sessionId & _ & G). cbv zeta in G.
  assert (Hr : forall response, refusal response ->
            In (status response) [200; 400; 402; 500]
            /\ (status response = 200 <-> isAnalysis response = true)).
  { intros response (An & St). rewrite An. split.
    - simpl. destruct St as [-> | [-> | ->]]; auto.
    - split; [|discriminate].
      destruct St as [-> | [-> | ->]]; discriminate. }
  destruct G as [(-> & _) | [(-> & _) | (Over & [(C & ->) | (uid & C & Pr & ->)])]].
  - unfold done. intros H. injection H as <- <-. eexists.
    split; [reflexivity|]. apply Hr. split; simpl; auto.
  - intros H. apply handler_answers in H as (response & -> & H).
    exists response. split; [reflexivity|].
    destruct H as [H|(St & An)]; [now apply Hr|].
    rewrite St, An. split; [simpl; auto | tauto].
  - unfold done. intros H. injection H as <- <-. eexists.
    split; [reflexivity|]. apply Hr. split; simpl; auto.
  - unfold done. intros H. injection H as <- <-. eexists.
    split; [reflexivity|]. apply Hr. split; simpl; auto.
Qed.

Lemma route_always_answers_witness :
  let svc := Scenario.plain (Scenario.ocrReply ["비빔밥"] (Some 1)) in
  let be := Deployment.up in
  let h := Deployment.start [] [] in
  let req := Deployment.upload "AAAA" "s1" in
  exists r h',
    analyzeMenu svc be req h = (r, h')
    /\ option_map status (match r with Ok a => Some a | Throw _ => None end)
       = Some 200
    /\ List.length (menuAnalyses h') = 1%nat
    /\ exists response,
         r = Ok response
         /\ In (status response) [200; 400; 402; 500]
         /\ (status response = 200 <-> isAnalysis response = true).
Proof.
  intros svc be h req.
  let c := eval vm_compute in (analyzeMenu svc be req h) in
  match c with
  | (?r, ?h') => exists r, h'
  end.
  match goal with
  | |- ?A /\ _ => assert (H : A) by (vm_compute; reflexivity)
  end.
  exact (conj H (conj eq_refl (conj eq_refl
           (route_always_answers svc be req h _ _ H)))).
Defined.

Section Effects.

Context {Ext : Type} (svc : Services Ext) (be : Backend Ext).

(** What the handler leaves in the two tables. *)
Lemma handler_effects req context h r h' :
  analyzeMenuHandler svc be req context h = (r, h') ->
  let counted := match orElse (ctx_userId context) None with
                 | Some uid => map (bumped uid) (users h)
                 | None => users h
                 end in
  let appended img analysis now :=
    imageText req = Some img
    /\ filter (hashed (sha256 be img)) (menuAnalyses h) = []
    /\ menuAnalyses h'
       = (menuAnalyses h
          ++ [storedAnalysis (nextAnalysisId h) now
                (analysisRecord be context img analysis)])%list in
  (menuAnalyses h' = menuAnalyses h
   \/ exists img analysis now, appended img analysis now)
  /\ (users h' = users h
      \/ (users h' = counted
          /\ exists response, r = Ok response /\ status response = 200))
  /\ forall response, r = Ok response -> status response = 200 ->
       users h' = counted
       /\ if isFresh response
          then exists img analysis now,
                 appended img analysis now
                 /\ response
                    = freshResponse
                        (storedAnalysis (nextAnalysisId h) now
                           (analysisRecord be context img analysis))
                        analysis
          else menuAnalyses h' = menuAnalyses h /\ pipeline h' = pipeline h.
Proof.
  intros G counted appended.
  apply analyzeMenuHandler_inv in G as (response & -> & G).
  assert (Hno : forall resp response' : Response,
            status resp = 400 \/ status resp = 402 \/ status resp = 500 ->
            Ok resp = Ok response' -> status response' = 200 -> False).
  { intros resp response' St E St'. injection E as <-.
    destruct St as [St|[St|St]]; rewrite St in St'; discriminate. }
  destruct G as [(Img & T & St & An)|(img & Img & G)].
  { apply tables_inv in T as (P & U & A & N).
    split; [now left|]. split; [now left|].
    intros response' E St'. exfalso. refine (Hno _ _ _ E St'). tauto. }
  destruct G as [(msg & -> & T & _)|[(row & Hin & P & A & N & G)|(F & h1 & rf & T & Fr & ->)]].
  - apply tables_inv in T as (P & U & A & N).
    split; [now left|]. split; [now left|].
    intros response' E St'. exfalso. refine (Hno _ _ _ E St'). simpl. auto.
  - split; [now left|].
    destruct G as [(msg & -> & U & _)|(-> & U)].
    + split; [now left|].
      intros response' E St'. exfalso. refine (Hno _ _ _ E St'). simpl. auto.
    + split; [right; split; [exact U|]; eexists; split; reflexivity|].
      intros response E _. injection E as <-. simpl. auto.
  - apply tables_inv in T as (P1 & U1 & A1 & N1).
    apply analyzeFresh_inv in Fr as (ra & w1 & _ & _ & Fr).
    destruct ra as [analysis|msg].
    + destruct Fr as (_ & [(msg & -> & U & A & _)|(now & A & Fr)]).
      * split; [left; congruence|]. split; [left; congruence|].
        intros response' E St'. exfalso. refine (Hno _ _ _ E St').
        destruct (refusal_caught be msg) as (_ & St). exact St.
      * rewrite A1, N1 in A.
        assert (App : appended img analysis now) by (repeat split; auto).
        split; [right; eauto|].
        destruct Fr as [(msg & -> & U & _)|(-> & U)].
        -- split; [left; congruence|].
           intros response' E St'. exfalso. refine (Hno _ _ _ E St').
        destruct (refusal_caught be msg) as (_ & St). exact St.
        -- rewrite U1 in U. rewrite N1.
           split; [right; split; [exact U|]; eexists; split; reflexivity|].
           intros response E _. injection E as <-. split; [exact U|].
           simpl. exists img, analysis, now. split; [exact App|reflexivity].
    + destruct Fr as (-> & _ & U & A).
      split; [left; congruence|]. split; [left; congruence|].
      intros response' E St'. exfalso. refine (Hno _ _ _ E St').
        destruct (refusal_caught be msg) as (_ & St). exact St.
Qed.

(** A request for an image that some row already carries is answered from
    that row or not at all. *)
Lemma handler_hit req context h r h' img :
  imageText req = Some img ->
  filter (hashed (sha256 be img)) (menuAnalyses h) <> [] ->
  analyzeMenuHandler svc be req context h = (r, h') ->
  pipeline h' = pipeline h /\ menuAnalyses h' = menuAnalyses h
  /\ nextAnalysisId h' = nextAnalysisId h
  /\ exists response,
       r = Ok response
       /\ ((status response = 500
            /\ exists q x msg, fst (db_error be q x) = Some msg)
           \/ exists row,
                In row (newest (filter (hashed (sha256 be img))
                                       (menuAnalyses h)))
                /\ response = cachedResponse row).
Proof.
  intros Img Hit G.
  apply analyzeMenuHandler_inv in G as (response & -> & G).
  destruct G as [(Img' & _)|(img' & Img' & G)]; [congruence|].
  assert (img' = img) as -> by congruence.
  destruct G as [(msg & -> & T & Rej)|[(row & Hin & P & A & N & G)|(F & _)]].
  - apply tables_inv in T as (P & U & A & N). repeat (split; trivial).
    eexists. split; [reflexivity|]. left. split; [reflexivity | exact Rej].
  - repeat (split; trivial). exists response. split; [reflexivity|].
    destruct G as [(msg & -> & U & Rej)|(-> & U)].
    + left. split; [reflexivity | exact Rej].
    + right. eauto.
  - now elim Hit.
Qed.

End Effects.

Section WholeRoute.

Context {Ext : Type} (svc : Services Ext) (be : Backend Ext).

(** The route is the middleware's own answer, or the handler's answer for
    the context the middleware made. *)
Lemma analyzeMenu_inv req h r h' :
  analyzeMenu svc be req h = (r, h') ->
  (tables h' = tables h
   /\ exists response,
        r = Ok response /\ isAnalysis response = false
        /\ ((status response = 500
             /\ exists q x msg, fst (db_error be q x) = Some msg)
            \/ (status response = 402
                /\ exists sessionId,
                     3 <= usageOf h (callerOf req) sessionId)))
  \/ exists h0 sessionId,
       tables h0 = tables h
       /\ match callerOf req with
          | Some _ => sessionId = None
          | None =>
              exists sid, sessionId = Some sid
                /\ forall s, orElse (sessionID req) None = Some s -> sid = s
          end
       /\ analyzeMenuHandler svc be req
            {| ctx_userId := callerOf req;
               ctx_sessionId := sessionId;
               ctx_usageCount := usageOf h (callerOf req) sessionId |} h0
          = (r, h').
Proof.
  unfold analyzeMenu, andThen.
  destruct (checkUsageLimit be req h) as [r0 h0] eqn:G.
  apply checkUsageLimit_inv in G as (T & sessionId & S & G). cbv zeta in G.
  destruct G as [(-> & Rej) | [(-> & _) | (Over & G)]].
  - unfold done. intros H. injection H as <- <-. left. split; [exact T|].
    eexists. split; [reflexivity|]. split; [reflexivity|]. left.
    split; [reflexivity | exact Rej].
  - intros H. right. exists h0, sessionId. auto.
  - apply andb_true_iff in Over as (Hn & _). apply Z.leb_le in Hn.
    destruct G as [(C & ->) | (uid & C & Pr & ->)];
      unfold done; intros H; injection H as <- <-; left; (split; [exact T|]);
      eexists; (split; [reflexivity|]); (split; [reflexivity|]); right;
      (split; [reflexivity|]); eauto.
Qed.

Lemma userRow_bumped uid table :
  userRow uid (map (bumped uid) table)
  = option_map (bumped uid) (userRow uid table).
Proof.
  unfold userRow. induction table as [|u rest IH]; simpl; [reflexivity|].
  unfold bumped at 1.
  destruct (String.eqb (user_id u) uid) eqn:E; simpl; rewrite E;
    [|exact IH].
  unfold bumped. now rewrite E.
Qed.

Lemma usage_after_bump uid table :
  orZero (option_map freeUsageCount (userRow uid (map (bumped uid) table)))
  = orZero (option_map freeUsageCount (userRow uid table))
    + match userRow uid table with Some _ => 1 | None => 0 end.
Proof.
  rewrite userRow_bumped.
  destruct (userRow uid table) as [u|] eqn:R; simpl; [|reflexivity].
  unfold userRow in R. apply find_some in R as (_ & E).
  unfold bumped. rewrite E. reflexivity.
Qed.

End WholeRoute.

(** X24.  What a request leaves in the tables.  It appends at most one
    analysis, and only for an image whose hash no row carried; the row
    holds that hash, the next serial and the signed-in caller.  It changes
    no user but the signed-in caller, whose counter goes up by one, and
    only together with a 200 answer. *)
Theorem route_storage_effects {Ext} (svc : Services Ext) (be : Backend Ext)
    req h r h' :
  analyzeMenu svc be req h = (r, h') ->
  (menuAnalyses h' = menuAnalyses h
   \/ exists img row,
        imageText req = Some img
        /\ filter (hashed (sha256 be img)) (menuAnalyses h) = []
        /\ menuAnalyses h' = (menuAnalyses h ++ [row])%list
        /\ ma_imageHash row = Some (sha256 be img)
        /\ ma_id row = nextAnalysisId h
        /\ ma_userId row = callerOf req)
  /\ (users h' = users h
      \/ exists uid response,
           callerOf req = Some uid
           /\ users h' = map (bumped uid) (users h)
           /\ r = Ok response /\ status response = 200).
Proof.
  intros G. apply analyzeMenu_inv in G as [(T & _) | (h0 & sessionId & T & _ & G)].
  - apply tables_inv in T as (_ & U & A & _). auto.
  - apply tables_inv in T as (_ & U & A & N).
    apply handler_effects in G as (Rows & Users & _). cbv zeta in Rows, Users.
    rewrite A, N in Rows. rewrite U in Users. split.
    + destruct Rows as [Same | (img & analysis & now & Img & F & App)];
        [now left|].
      right. exists img. eexists. split; [exact Img|]. split; [exact F|].
      split; [exact App|]. repeat split.
    + destruct Users as [Same | (Bump & response & -> & St)]; [now left|].
      simpl in Bump. rewrite callerOf_given in Bump.
      destruct (callerOf req) as [uid|]; [|now left].
      right. exists uid, response. auto.
Qed.

Lemma route_storage_effects_witness :
  let svc := Scenario.plain (Scenario.ocrReply ["비빔밥"] (Some 1)) in
  let be := Deployment.up in
  let h := Deployment.start [mkUser "1001" false 2] [] in
  let req := Deployment.signedIn "AAAA" "1001" in
  exists r h',
    analyzeMenu svc be req h = (r, h')
    /\ users h' = [mkUser "1001" false 3]
    /\ map ma_imageHash (menuAnalyses h') = [Some "sha256:AAAA"]
    /\ (menuAnalyses h' = menuAnalyses h
        \/ exists img row,
             imageText req = Some img
             /\ filter (hashed (sha256 be img)) (menuAnalyses h) = []
             /\ menuAnalyses h' = (menuAnalyses h ++ [row])%list
             /\ ma_imageHash row = Some (sha256 be img)
             /\ ma_id row = nextAnalysisId h
             /\ ma_userId row = callerOf req)
    /\ (users h' = users h
        \/ exists uid response,
             callerOf req = Some uid
             /\ users h' = map (bumped uid) (users h)
             /\ r = Ok response /\ status response = 200).
Proof.
  intros svc be h req.
  let c := eval vm_compute in (analyzeMenu svc be req h) in
  match c with
  | (?r, ?h') => exists r, h'
  end.
  match goal with
  | |- ?A /\ _ => assert (H : A) by (vm_compute; reflexivity)
  end.
  exact (conj H (conj eq_refl (conj eq_refl
           (route_storage_effects svc be req h _ _ H)))).
Defined.

(** X25.  Usage accounting.  After a 200 answer the count of a signed-in
    caller who has a row in [users] is one higher, whether the analysis was
    fresh or cached; the count of an anonymous session is one higher after
    a fresh analysis and unchanged after a cached one. *)
Theorem usage_is_counted {Ext} (svc : Services Ext) (be : Backend Ext)
    req h response h' :
  analyzeMenu svc be req h = (Ok response, h') ->
  status response = 200 ->
  match callerOf req with
  | Some uid =>
      usageOf h' (Some uid) None
      = usageOf h (Some uid) None
        + match userRow uid (users h) with Some _ => 1 | None => 0 end
  | None =>
      forall sid, orElse (sessionID req) None = Some sid ->
        usageOf h' None (Some sid)
        = usageOf h None (Some sid) + if isFresh response then 1 else 0
  end.
Proof.
  intros G St.
  apply analyzeMenu_inv in G as [(_ & resp & E & _ & Hst) | (h0 & sessionId & T & S & G)].
  { injection E as <-. exfalso.
    destruct Hst as [(Hst & _) | (Hst & _)]; rewrite Hst in St; discriminate. }
  apply tables_inv in T as (_ & U & A & N).
  apply handler_effects in G as (_ & _ & G).
  specialize (G response eq_refl St). cbv zeta in G. destruct G as (Hu & G).
  simpl in Hu. rewrite callerOf_given, U in Hu.
  pose proof (callerOf_given req) as Given.
  destruct (callerOf req) as [uid|] eqn:C.
  - apply orElse_given in Given as (_ & Tu).
    unfold usageOf. simpl. rewrite Tu, Hu. apply usage_after_bump.
  - destruct S as (sid0 & -> & Hsid). intros sid O.
    rewrite (Hsid sid O) in *. pose proof O as O'.
    apply orElse_given in O' as (_ & Ts).
    unfold usageOf. simpl. rewrite Ts.
    destruct (isFresh response).
    + destruct G as (img & analysis & now & (_ & _ & App) & _).
      rewrite A, N in App. rewrite App, filter_app, length_app.
      cbn [filter].
      match goal with
      | |- context [ofSession sid ?row] =>
          assert (Hrow : ofSession sid row = true)
            by (unfold ofSession; simpl; apply String.eqb_refl);
          rewrite Hrow
      end.
      simpl List.length. lia.
    + destruct G as (Same & _). rewrite Same, A. lia.
Qed.

Lemma usage_is_counted_witness :
  let svc := Scenario.plain (Scenario.ocrReply ["비빔밥"] (Some 1)) in
  let be := Deployment.up in
  let h := Deployment.start [] [Deployment.earlier 7 "s0"] in
  let cachedRequest := Deployment.upload "7" "s1" in
  let freshRequest := Deployment.upload "AAAA" "s1" in
  exists cached h1 fresh h2,
    analyzeMenu svc be cachedRequest h = (Ok cached, h1)
    /\ analyzeMenu svc be freshRequest h = (Ok fresh, h2)
    /\ (isFresh cached, isFresh fresh) = (false, true)
    /\ usageOf h None (Some "s1") = 0
    /\ usageOf h1 None (Some "s1") = 0
    /\ usageOf h2 None (Some "s1") = 1
    /\ (forall sid, orElse (sessionID cachedRequest) None = Some sid ->
          usageOf h1 None (Some sid)
          = usageOf h None (Some sid) + if isFresh cached then 1 else 0)
    /\ (forall sid, orElse (sessionID freshRequest) None = Some sid ->
          usageOf h2 None (Some sid)
          = usageOf h None (Some sid) + if isFresh fresh then 1 else 0).
Proof.
  intros svc be h cachedRequest freshRequest.
  let c := eval vm_compute in (analyzeMenu svc be cachedRequest h) in
  match c with
  | (Ok ?a, ?h1) =>
      let c' := eval vm_compute in (analyzeMenu svc be freshRequest h) in
      match c' with
      | (Ok ?b, ?h2) => exists a, h1, b, h2
      end
  end.
  match goal with
  | |- ?A /\ ?B /\ _ =>
      assert (H1 : A) by (vm_compute; reflexivity);
      assert (H2 : B) by (vm_compute; reflexivity)
  end.
  split; [exact H1|]. split; [exact H2|].
  split; [reflexivity|].
  split; [vm_compute; reflexivity|].
  split; [vm_compute; reflexivity|].
  split; [vm_compute; reflexivity|].
  split.
  - exact (usage_is_counted svc be cachedRequest h _ _ H1 eq_refl).
  - exact (usage_is_counted svc be freshRequest h _ _ H2 eq_refl).
Defined.

Lemma newest_spec rows row :
  In row (newest rows) ->
  In row rows
  /\ forall other, In other rows -> ma_createdAt other <= ma_createdAt row.
Proof.
  unfold newest. intros H. apply filter_In in H as (Hin & Hall).
  split; [exact Hin|]. intros other Ho.
  rewrite forallb_forall in Hall. apply Z.leb_le. now apply Hall.
Qed.

(** X26.  A request for an image that some row already carries costs
    nothing: no call to the OCR, the generative model or an image
    provider, no dish row, no analysis row.  Its answer is
    never a 400, and a 200 answer is the cached copy of the newest row
    with the image's hash. *)
Theorem cache_hit_costs_nothing {Ext} (svc : Services Ext) (be : Backend Ext)
    req h r h' img :
  imageText req = Some img ->
  filter (hashed (sha256 be img)) (menuAnalyses h) <> [] ->
  analyzeMenu svc be req h = (r, h') ->
  pipeline h' = pipeline h
  /\ menuAnalyses h' = menuAnalyses h
  /\ exists response,
       r = Ok response
       /\ status response <> 400
       /\ (status response = 200 ->
           exists row,
             In row (menuAnalyses h)
             /\ hashed (sha256 be img) row = true
             /\ (forall other, In other (menuAnalyses h) ->
                   hashed (sha256 be img) other = true ->
                   ma_createdAt other <= ma_createdAt row)
             /\ response = cachedResponse row).
Proof.
  intros Img Hit G.
  apply analyzeMenu_inv in G as [(T & response & -> & _ & St) | (h0 & sessionId & T & _ & G)].
  - apply tables_inv in T as (P & _ & A & _). repeat (split; trivial).
    exists response. split; [reflexivity|].
    destruct St as [(St & _) | (St & _)]; rewrite St;
      (split; [discriminate|]); discriminate.
  - apply tables_inv in T as (P & _ & A & _).
    rewrite <- A in Hit.
    apply (handler_hit svc be _ _ _ _ _ _ Img Hit) in G
      as (P' & A' & _ & response & -> & G).
    split; [congruence|]. split; [congruence|].
    exists response. split; [reflexivity|].
    destruct G as [(St & _) | (row & Hin & ->)].
    + rewrite St. split; discriminate.
    + split; [discriminate|]. intros _. exists row. rewrite A in Hin.
      apply newest_spec in Hin as (Hin & Hmax).
      apply filter_In in Hin as (Hin & Hh).
      split; [exact Hin|]. split; [exact Hh|]. split; [|reflexivity].
      intros other Ho Hho. apply Hmax. apply filter_In. auto.
Qed.

Lemma cache_hit_costs_nothing_witness :
  let svc := Scenario.plain (Scenario.ocrReply ["비빔밥"] (Some 1)) in
  let be := Deployment.up in
  let h := Deployment.start []
             [Deployment.earlier 7 "s0"; Deployment.earlier 8 "s0"] in
  let req := Deployment.upload "7" "s1" in
  exists r h',
    analyzeMenu svc be req h = (r, h')
    /\ r = Ok (cachedResponse (Deployment.earlier 7 "s0"))
    /\ log (world h') = []
    /\ pipeline h' = pipeline h
    /\ menuAnalyses h' = menuAnalyses h
    /\ exists response,
         r = Ok response
         /\ status response <> 400
         /\ (status response = 200 ->
             exists row,
               In row (menuAnalyses h)
               /\ hashed (sha256 be "7") row = true
               /\ (forall other, In other (menuAnalyses h) ->
                     hashed (sha256 be "7") other = true ->
                     ma_createdAt other <= ma_createdAt row)
               /\ response = cachedResponse row).
Proof.
  intros svc be h req.
  let c := eval vm_compute in (analyzeMenu svc be req h) in
  match c with
  | (?r, ?h') => exists r, h'
  end.
  match goal with
  | |- ?A /\ _ => assert (H : A) by (vm_compute; reflexivity)
  end.
  assert (Hit : filter (hashed (sha256 be "7")) (menuAnalyses h) <> [])
    by (vm_compute; discriminate).
  exact (conj H (conj eq_refl (conj eq_refl
           (cache_hit_costs_nothing svc be req h _ _ "7" eq_refl Hit H)))).
Defined.

Lemma isFresh_isAnalysis response :
  isFresh response = true -> isAnalysis response = true.
Proof. unfold isFresh, isAnalysis. now destruct (payload response). Qed.

(** X27.  The cache round trip.  Once a request has been answered with a
    fresh analysis, a request with the same image makes no call to the
    OCR, the generative model or an image provider and adds no dish row
    and no analysis row; the one thing it may write is the counter of a
    signed-in caller, which goes up by one exactly when the answer is 200.
    The request is never answered 400, and a 200 answer carries the same
    id, flag and dishes as the first answer, the dish names and the token
    usage as the columns hold them. *)
Theorem analysis_round_trip {Ext} (svc : Services Ext) (be : Backend Ext)
    req1 req2 h first h1 r2 h2 :
  analyzeMenu svc be req1 h = (Ok first, h1) ->
  isFresh first = true ->
  imageText req2 = imageText req1 ->
  analyzeMenu svc be req2 h1 = (r2, h2) ->
  pipeline h2 = pipeline h1
  /\ menuAnalyses h2 = menuAnalyses h1
  /\ exists second,
       r2 = Ok second
       /\ status second <> 400
       /\ (status second = 200 ->
           users h2 = match callerOf req2 with
                      | Some uid => map (bumped uid) (users h1)
                      | None => users h1
                      end)
       /\ (status second <> 200 -> users h2 = users h1)
       /\ (status second = 200 ->
           exists id flag dishes message usage date,
             payload first
             = Fresh id flag (map responseDish dishes) message usage
             /\ payload second
                = Cached id flag dishes (map d_nameKorean dishes)
                         (jsonUsage usage) date).
Proof.
  intros G1 Fr Img G2.
  apply analyzeMenu_inv in G1 as [(_ & resp & E & An & _) | (h0 & sessionId & T & _ & G1)].
  { injection E as <-. apply isFresh_isAnalysis in Fr. congruence. }
  apply tables_inv in T as (_ & _ & A & N).
  pose proof (handler_answers svc be _ _ _ _ _ G1) as (resp & E & St).
  injection E as <-.
  destruct St as [(An & _) | (St & _)];
    [apply isFresh_isAnalysis in Fr; congruence|].
  apply handler_effects in G1 as (_ & _ & G1).
  specialize (G1 first eq_refl St). cbv zeta in G1. destruct G1 as (_ & G1).
  rewrite Fr in G1. destruct G1 as (img & analysis & now & (Img1 & F & App) & ->).
  rewrite Img1 in Img.
  set (row := storedAnalysis (nextAnalysisId h0) now
                (analysisRecord be
                   {| ctx_userId := callerOf req1;
                      ctx_sessionId := sessionId;
                      ctx_usageCount := usageOf h (callerOf req1) sessionId |}
                   img analysis)) in *.
  assert (Hrows : filter (hashed (sha256 be img)) (menuAnalyses h1) = [row]).
  { rewrite App, filter_app, F. cbn [filter app].
    unfold row. now rewrite hashed_stored. }
  assert (Hit : filter (hashed (sha256 be img)) (menuAnalyses h1) <> [])
    by (rewrite Hrows; discriminate).
  apply analyzeMenu_inv in G2 as [(T & second & -> & _ & St2) | (h3 & sessionId2 & T & _ & G2)].
  - apply tables_inv in T as (P & U & A2 & _). repeat (split; trivial).
    exists second. split; [reflexivity|].
    destruct St2 as [(St2 & _) | (St2 & _)]; rewrite St2;
      (split; [discriminate|]); (split; [discriminate|]);
      (split; [intros _; exact U|]); discriminate.
  - apply tables_inv in T as (P & U & A2 & _).
    rewrite <- A2 in Hit.
    pose proof (handler_effects svc be _ _ _ _ _ G2) as (_ & Us & Counted).
    cbn [ctx_userId] in Us, Counted. rewrite callerOf_given, U in Us, Counted.
    apply (handler_hit svc be _ _ _ _ _ _ Img Hit) in G2
      as (P' & A' & _ & second & -> & G2).
    split; [congruence|]. split; [congruence|].
    exists second. split; [reflexivity|].
    assert (Hu : (status second = 200 ->
                  users h2 = match callerOf req2 with
                             | Some uid => map (bumped uid) (users h1)
                             | None => users h1
                             end)
                 /\ (status second <> 200 -> users h2 = users h1)).
    { split.
      - intros S200. exact (proj1 (Counted second eq_refl S200)).
      - intros Not200.
        destruct Us as [Us | (_ & response & E & S200)]; [exact Us|].
        injection E as <-. contradiction. }
    destruct Hu as (Hu1 & Hu2).
    destruct G2 as [(St2 & _) | (row' & Hin & ->)].
    + split; [rewrite St2; discriminate|].
      split; [exact Hu1|]. split; [exact Hu2|]. rewrite St2. discriminate.
    + split; [discriminate|]. split; [exact Hu1|]. split; [exact Hu2|].
      intros _.
      rewrite A2, Hrows in Hin. apply newest_In in Hin.
      destruct Hin as [<- | []].
      exists (ma_id row), (r_isKoreanMenu analysis), (dishes analysis).
      eexists. exists (r_tokenUsage analysis), now.
      split; reflexivity.
Qed.

Lemma analysis_round_trip_witness :
  let svc := Scenario.plain (Scenario.ocrReply ["비빔밥"] (Some 1)) in
  let be := Deployment.up in
  let h := Deployment.start
             [{| user_id := "1001"; isPremium := false;
                 freeUsageCount := 1 |}] [] in
  let req1 := Deployment.upload "AAAA" "s1" in
  let req2 := Deployment.signedIn "AAAA" "1001" in
  exists first h1 r2 h2,
    analyzeMenu svc be req1 h = (Ok first, h1)
    /\ analyzeMenu svc be req2 h1 = (r2, h2)
    /\ isFresh first = true
    /\ option_map status (match r2 with Ok a => Some a | Throw _ => None end)
       = Some 200
    /\ map freeUsageCount (users h1) = [1]
    /\ map freeUsageCount (users h2) = [2]
    /\ pipeline h2 = pipeline h1
    /\ menuAnalyses h2 = menuAnalyses h1
    /\ exists second,
         r2 = Ok second
         /\ status second <> 400
         /\ (status second = 200 ->
             users h2 = match callerOf req2 with
                        | Some uid => map (bumped uid) (users h1)
                        | None => users h1
                        end)
         /\ (status second <> 200 -> users h2 = users h1)
         /\ (status second = 200 ->
             exists id flag dishes message usage date,
               payload first
               = Fresh id flag (map responseDish dishes) message usage
               /\ payload second
                  = Cached id flag dishes (map d_nameKorean dishes)
                           (jsonUsage usage) date).
Proof.
  intros svc be h req1 req2.
  let c := eval vm_compute in (analyzeMenu svc be req1 h) in
  match c with
  | (Ok ?a, ?h1) =>
      let c' := eval vm_compute in (analyzeMenu svc be req2 h1) in
      match c' with
      | (?r2, ?h2) => exists a, h1, r2, h2
      end
  end.
  match goal with
  | |- ?A /\ ?B /\ _ =>
      assert (H1 : A) by (vm_compute; reflexivity);
      assert (H2 : B) by (vm_compute; reflexivity)
  end.
  exact (conj H1 (conj H2 (conj eq_refl (conj eq_refl
           (conj eq_refl (conj eq_refl
              (analysis_round_trip svc be req1 req2 h _ _ _ _
                 H1 eq_refl eq_refl H2))))))).
Defined.

(** X28.  A menu with more than three items.  With the database up, a
    request whose image was not analysed before and on which the OCR
    counts more than three items is refused by the middleware (402),
    without any call of the pipeline, or answered with status 400 and the
    limit message without its tag, the OCR request being the only call of
    the pipeline: no dish is looked up.  The message starts with the text
    in front of the count and, for a count that prints as its digits, is
    the source's text around those digits.  Nothing is stored. *)
Theorem long_menu_is_a_400 {Ext} (svc : Services Ext) (be : Backend Ext)
    req h r h' img ocr n :
  databaseUp be ->
  imageText req = Some img ->
  filter (hashed (sha256 be img)) (menuAnalyses h) = [] ->
  (forall x, decodeOcr (fst (openai_ocr svc img x)) = Ok ocr) ->
  totalDetected ocr = Some n ->
  3 < n ->
  analyzeMenu svc be req h = (r, h') ->
  users h' = users h /\ menuAnalyses h' = menuAnalyses h
  /\ foods (world h') = foods (world h)
  /\ exists response,
       r = Ok response
       /\ ((status response = 402 /\ log (world h') = log (world h))
           \/ (exists text,
                 response = {| status := 400; payload := LimitError text |}
                 /\ startsWith text "Too many menu items detected (" = true
                 /\ (n <= maxExactInteger ->
                     text
                     = "Too many menu items detected (" ++ ofZ n
                       ++ " items found). Please upload a photo with 3 or fewer menu items for analysis.")
                 /\ log (world h') = (log (world h) ++ [EvOcr img])%list)).
Proof.
  intros Up Img Miss Ocr Tot Hn G.
  assert (NoRej : ~ exists q x msg, fst (db_error be q x) = Some msg).
  { intros (q & x & msg & D). rewrite (Up q x) in D. discriminate. }
  apply analyzeMenu_inv in G as [(T & response & -> & _ & St) | (h0 & sessionId & T & _ & G)].
  - apply tables_inv in T as (P & U & A & _).
    split; [exact U|]. split; [exact A|].
    split; [exact (f_equal (fun t => fst (fst t)) P)|].
    exists response. split; [reflexivity|].
    destruct St as [(_ & Rej) | (St & _)]; [now elim NoRej|].
    left. split; [exact St|]. exact (f_equal (fun t => snd t) P).
  - apply tables_inv in T as (P & U & A & _).
    apply analyzeMenuHandler_inv in G as (response & -> & G).
    destruct G as [(Img' & _) | (img' & Img' & G)]; [congruence|].
    assert (img' = img) as -> by congruence.
    destruct G as [(msg & _ & _ & Rej) | [(row & Hin & _) | (_ & h1 & rf & T1 & Fr & ->)]].
    + now elim NoRej.
    + rewrite A, Miss in Hin. destruct Hin.
    + apply tables_inv in T1 as (P1 & U1 & A1 & _).
      apply analyzeFresh_inv in Fr as (ra & w1 & An & _ & Fr).
      destruct (analysis_rejects_long_menus svc img (world h1) ocr n
                  (Ocr _) Tot Hn) as (w1' & An' & F1 & _ & L1).
      rewrite An' in An. injection An as <- <-.
      destruct Fr as (-> & W & U2 & A2).
      destruct (limit_message_stripped n) as (Tag & Strip).
      rewrite Tag, Strip.
      pose proof (f_equal (fun t => fst (fst t)) P1) as Pf1.
      pose proof (f_equal (fun t => snd t) P1) as Pl1.
      pose proof (f_equal (fun t => fst (fst t)) P) as Pf.
      pose proof (f_equal (fun t => snd t) P) as Pl.
      simpl in Pf1, Pl1, Pf, Pl.
      split; [congruence|]. split; [congruence|].
      split; [rewrite W; congruence|].
      eexists. split; [reflexivity|]. right. eexists.
      split; [reflexivity|]. split; [reflexivity|].
      split; [intros _; reflexivity|].
      rewrite W, L1. congruence.
Qed.

Lemma long_menu_is_a_400_witness :
  let names := ["비빔밥"; "김치찌개"; "불고기"] in
  let svc := Scenario.plain (Scenario.ocrReply names (Some 5)) in
  let be := Deployment.up in
  let h := Deployment.start [] [] in
  let req := Deployment.upload "AAAA" "s1" in
  exists r h',
    analyzeMenu svc be req h = (r, h')
    /\ r = Ok {| status := 400;
                 payload := LimitError "Too many menu items detected (5 items found). Please upload a photo with 3 or fewer menu items for analysis." |}
    /\ log (world h') = [EvOcr "AAAA"]
    /\ users h' = users h /\ menuAnalyses h' = menuAnalyses h
    /\ foods (world h') = foods (world h)
    /\ exists response,
         r = Ok response
         /\ ((status response = 402 /\ log (world h') = log (world h))
             \/ (exists text,
                   response = {| status := 400; payload := LimitError text |}
                   /\ startsWith text "Too many menu items detected (" = true
                   /\ (5 <= maxExactInteger ->
                       text
                       = "Too many menu items detected (" ++ ofZ 5
                         ++ " items found). Please upload a photo with 3 or fewer menu items for analysis.")
                   /\ log (world h')
                      = (log (world h) ++ [EvOcr "AAAA"])%list)).
Proof.
  intros names svc be h req.
  let c := eval vm_compute in (analyzeMenu svc be req h) in
  match c with
  | (?r, ?h') => exists r, h'
  end.
  match goal with
  | |- ?A /\ _ => assert (H : A) by (vm_compute; reflexivity)
  end.
  assert (Up : databaseUp be) by (intros q x; reflexivity).
  pose (ocr := {| isKoreanMenu := true;
                  extractedNames := names;
                  totalDetected := Some 5;
                  tokenUsage := {| prompt_tokens := 1000;
                                   completion_tokens := 50;
                                   total_tokens := 1050;
                                   cost_usd := totalCostUSD Scenario.usage;
                                   cost_aud := totalCostAUD Scenario.usage |} |}).
  assert (Ocr : forall x, decodeOcr (fst (openai_ocr svc "AAAA" x)) = Ok ocr)
    by (intros x; vm_compute; reflexivity).
  assert (Hn : 3 < 5) by lia.
  exact (conj H (conj eq_refl (conj eq_refl
           (long_menu_is_a_400 svc be req h _ _ "AAAA" ocr 5
              Up eq_refl eq_refl Ocr eq_refl Hn H)))).
Defined.
